(** * chi_operator.network: the three operator commands over Neutron and Blazar

    A shallow embedding of [chi_operator/network.py]:
    [NetworkDeleteCommand.run] (tear a network down),
    [NetworkSegmentStatusCommand.run] (VLAN segment report) and
    [NetworkPublicIPStatusCommand.run] (public IP audit).

    The commands are sequences of calls to the Neutron and Blazar clients.
    They are embedded as trees of client calls ([prog]); a reference model of
    the cloud ([Cloud], [handle]) answers the calls, so that a command can be
    run on a concrete backing state and its calls, result and final state
    inspected. *)

From Stdlib Require Import ZArith Ascii Lia.
From Stdlib Require String.
From Equations Require Import Equations.
From stdpp Require Import base tactics option list numbers strings pretty gmap sorting.

Local Open Scope Z_scope.

(** ** Data model: the JSON objects the clients return

    Every key that the commands read is a field of the record.  A string is
    the sequence of its characters, one [ascii] each (code points below
    256).  Identifiers, names and projects are strings that are always
    there.  The two provider attributes of a network are not: Neutron shows
    them only to callers its policy allows, and a network type without a
    physical network (a tunnel) or without a segment (a flat network) has
    null there. *)

(** A key of a JSON object: absent, null ([None] in Python), or a value. *)
Inductive attr (A : Type) : Type :=
| Missing
| Null
| Val (a : A).
Arguments Missing {A}.
Arguments Null {A}.
Arguments Val {A} a.

Global Instance attr_eq_dec {A : Type} `{EqDecision A} : EqDecision (attr A).
Proof. solve_decision. Defined.

(** [d.get(key)]: [None] for an absent key. *)
Definition get {A : Type} (a : attr A) : option A :=
  match a with
  | Val v => Some v
  | Missing | Null => None
  end.

Record FixedIP := {
  fixed_subnet_id : string;
  ip_address : string
}.

Record Port := {
  port_id : string;
  port_network_id : string;
  device_id : string;
  device_owner : string;
  fixed_ips : list FixedIP;
  port_project_id : string
}.

Record Network := {
  net_id : string;
  net_name : string;
  segmentation_id : attr Z;        (* provider:segmentation_id *)
  physical_network : attr string;  (* provider:physical_network *)
  net_project_id : string;
  net_subnets : list string
}.

Record AllocationPool := {
  pool_start : string;
  pool_end : string
}.

Record Subnet := {
  subnet_id : string;
  subnet_network_id : string;
  allocation_pools : list AllocationPool
}.

Record Router := {
  router_id : string;
  router_project_id : string
}.

(** An entry of [blazar.floatingip.list()]. *)
Record FloatingIP := {
  floating_ip_address : string
}.

Global Instance FixedIP_eq_dec : EqDecision FixedIP.
Proof. solve_decision. Defined.
Global Instance Port_eq_dec : EqDecision Port.
Proof. solve_decision. Defined.
Global Instance Network_eq_dec : EqDecision Network.
Proof. solve_decision. Defined.
Global Instance AllocationPool_eq_dec : EqDecision AllocationPool.
Proof. solve_decision. Defined.
Global Instance Subnet_eq_dec : EqDecision Subnet.
Proof. solve_decision. Defined.
Global Instance Router_eq_dec : EqDecision Router.
Proof. solve_decision. Defined.

(** ** Python exceptions raised by the commands and by the clients *)

Inductive exn :=
| ValueError (msg : string)
| AddressValueError (address : string)   (* ipaddress: malformed IPv4 literal *)
| IndexError                             (* list index out of range *)
| KeyError (key : string)                (* d[key] for an absent key *)
| TypeError (msg : string)
| AttributeError (name : string)         (* the object has no such attribute *)
| NotFound (resource : string)           (* client: HTTP 404 *)
| Conflict (resource : string).          (* client: HTTP 409 *)

(** [d[key]]: KeyError for an absent key. *)
Definition getitem {A : Type} (key : string) (a : attr A) : exn + option A :=
  match a with
  | Missing => inl (KeyError key)
  | Null => inr None
  | Val v => inr (Some v)
  end.

(** ** The [ipaddress] module, as far as the audit uses it

    An [IPv4Address] is its 32-bit integer value. *)
Module ipaddress.

Definition ALL_ONES : Z := 2 ^ 32 - 1.
Definition max_prefixlen : Z := 32.

Definition is_digit (c : ascii) : bool :=
  let n := nat_of_ascii c in (48 <=? n)%nat && (n <=? 57)%nat.

Definition digit_value (c : ascii) : Z := Z.of_nat (nat_of_ascii c) - 48.

Fixpoint all_digits (s : string) : bool :=
  match s with
  | EmptyString => true
  | String c s' => is_digit c && all_digits s'
  end.

(** [int(octet_str, 10)] on a string of ASCII digits. *)
Fixpoint int_of_digits (acc : Z) (s : string) : Z :=
  match s with
  | EmptyString => acc
  | String c s' => int_of_digits (10 * acc + digit_value c) s'
  end.

(** [str.split('.')]. *)
Fixpoint split_dot (cur : string) (s : string) : list string :=
  match s with
  | EmptyString => [String.rev cur]
  | String c s' =>
      if Ascii.eqb c "."%char then String.rev cur :: split_dot EmptyString s'
      else split_dot (String c cur) s'
  end.

(** [_parse_octet]: non-empty, ASCII digits, at most three of them, no
    leading zero unless the octet is "0" (as CPython has it since 3.9.5),
    value at most 255. *)
Definition parse_octet (octet_str : string) : option Z :=
  match octet_str with
  | EmptyString => None
  | String c rest =>
      if negb (all_digits octet_str) then None
      else if (3 <? String.length octet_str)%nat then None
      else if negb (String.eqb octet_str "0") && Ascii.eqb c "0"%char then None
      else
        let octet_int := int_of_digits 0 octet_str in
        if 255 <? octet_int then None else Some octet_int
  end.

(** [IPv4Address(address)] for a string: four octets, big-endian. *)
Definition IPv4Address (address : string) : option Z :=
  match split_dot EmptyString address with
  | [a; b; c; d] =>
      match parse_octet a, parse_octet b, parse_octet c, parse_octet d with
      | Some a, Some b, Some c, Some d =>
          Some (((a * 256 + b) * 256 + c) * 256 + d)
      | _, _, _, _ => None
      end
  | _ => None
  end.

(** [str(IPv4Address)]: the dotted quad of the four bytes. *)
Definition str (ip : Z) : string :=
  pretty (ip / 16777216 mod 256) +:+ "." +:+
  pretty (ip / 65536 mod 256) +:+ "." +:+
  pretty (ip / 256 mod 256) +:+ "." +:+
  pretty (ip mod 256).

(** [int.bit_length()]. *)
Definition bit_length (z : Z) : Z :=
  if z =? 0 then 0 else Z.log2 (Z.abs z) + 1.

(** [_count_righthand_zero_bits(number, bits)]. *)
Definition count_righthand_zero_bits (number bits : Z) : Z :=
  if number =? 0 then bits
  else Z.min bits (bit_length (Z.land (Z.lnot number) (number - 1))).

Record IPv4Network := {
  network_address : Z;
  prefixlen : Z
}.

(** The number of host bits of the next network yielded. *)
Definition next_nbits (first_int last_int : Z) : Z :=
  Z.min (count_righthand_zero_bits first_int max_prefixlen)
        (bit_length (last_int - first_int + 1) - 1).

(** The [while first_int <= last_int] loop of [summarize_address_range]:
    it yields a network, advances [first_int] past it, and leaves early
    when the network ended at the last address there is. *)
Equations? summarize_loop (first_int last_int : Z) : list IPv4Network
  by wf (Z.to_nat (last_int - first_int + 1)) lt :=
  summarize_loop first_int last_int with Z_le_dec first_int last_int => {
    | right _ => []
    | left Hle =>
        let nbits := next_nbits first_int last_int in
        let net := {| network_address := first_int;
                      prefixlen := max_prefixlen - nbits |} in
        let first_int' := first_int + Z.shiftl 1 nbits in
        if first_int' - 1 =? ALL_ONES then [net]
        else net :: summarize_loop first_int' last_int }.
Proof.
  assert (Hlen : ∀ z, 0 <= bit_length z).
  { intros z. unfold bit_length. destruct (z =? 0); [lia |].
    pose proof (Z.log2_nonneg (Z.abs z)). lia. }
  assert (Hpos : 1 <= bit_length (last_int - first_int + 1)).
  { unfold bit_length. destruct (Z.eqb_spec (last_int - first_int + 1) 0); [lia |].
    pose proof (Z.log2_nonneg (Z.abs (last_int - first_int + 1))). lia. }
  assert (Hn : 0 <= nbits).
  { subst nbits. unfold next_nbits, count_righthand_zero_bits, max_prefixlen.
    pose proof (Hlen (Z.land (Z.lnot first_int) (first_int - 1))).
    destruct (first_int =? 0); lia. }
  assert (0 < Z.shiftl 1 nbits).
  { rewrite Z.shiftl_1_l. apply Z.pow_pos_nonneg; lia. }
  subst first_int'. lia.
Qed.

(** [summarize_address_range(first, last)]: the networks yielded, or the
    ValueError raised when [first > last]. *)
Definition summarize_address_range (first last : Z)
  : exn + list IPv4Network :=
  if last <? first then
    inl (ValueError "last IP address must be greater than first")
  else inr (summarize_loop first last).

(** The integers from [lo], [count] of them. *)
Definition int_range (lo : Z) (count : nat) : list Z :=
  (λ i : nat, lo + Z.of_nat i) <$> seq 0 count.

(** [list(IPv4Network(net))]: every address of the network, the network
    and broadcast addresses included. *)
Definition network_addresses (net : IPv4Network) : list Z :=
  int_range (network_address net)
            (Z.to_nat (Z.shiftl 1 (max_prefixlen - prefixlen net))).

End ipaddress.

(** ** The client calls

    Keyword arguments of the list calls are optional filters. *)

Record network_filter := {
  nf_segmentation_id : option string;   (* provider:segmentation_id=... *)
  nf_name : option string               (* name=... *)
}.

Record port_filter := {
  pf_network_id : option string;
  pf_device_id : option string;
  pf_device_owner : option string
}.

Definition no_network_filter : network_filter :=
  {| nf_segmentation_id := None; nf_name := None |}.

Definition no_port_filter : port_filter :=
  {| pf_network_id := None; pf_device_id := None; pf_device_owner := None |}.

(** A call and the type of what it returns.  [print] writes a line to
    standard output ([print] and [click.echo]); everything else is a method
    of the Neutron client (python-neutronclient's [Client]), but
    [floatingip_list], which is Blazar's.  The Neutron client has no
    [get_network] (its call for one network is [show_network]), so there is
    no such call. *)
Inductive call : Type → Type :=
| list_networks (params : network_filter) : call (list Network)
| list_ports (params : port_filter) : call (list Port)
| list_subnets (network_id : string) : call (list Subnet)
| show_subnet (subnet : string) : call Subnet
| show_router (router : string) : call Router
| remove_interface_router (router : string) (port : string) : call unit
| delete_subnet (subnet : string) : call unit
| delete_network (network : string) : call unit
| remove_gateway_router (router : string) : call unit
| delete_router (router : string) : call unit
| floatingip_list : call (list FloatingIP)
| print (text : string) : call unit.

Inductive event :=
| Event (R : Type) (c : call R).
Arguments Event {R} c.


Definition is_api_call (e : event) : bool :=
  match e with
  | Event (print _) => false
  | _ => true
  end.

Definition printed (e : event) : option string :=
  match e with
  | Event (print text) => Some text
  | _ => None
  end.

(** ** Commands as trees of calls *)

Inductive prog (A : Type) : Type :=
| Ret (a : A)
| Raise (e : exn)
| Call (R : Type) (c : call R) (k : R → prog A).
Arguments Ret {A} a.
Arguments Raise {A} e.
Arguments Call {A R} c k.

Fixpoint bind {A B : Type} (m : prog A) (f : A → prog B) : prog B :=
  match m with
  | Ret a => f a
  | Raise e => Raise e
  | Call c k => Call c (λ r, bind (k r) f)
  end.

Definition perform {R : Type} (c : call R) : prog R := Call c Ret.

(** A computation that makes no call: its value, or the error it raises. *)
Definition lift {A : Type} (r : exn + A) : prog A :=
  match r with
  | inl e => Raise e
  | inr a => Ret a
  end.

Global Instance prog_ret : MRet prog := @Ret.
Global Instance prog_bind : MBind prog := λ A B f m, bind m f.

(** [for x in l: body], where the body updates the local state [acc]. *)
Fixpoint for_fold {A S : Type} (body : S → A → prog S) (l : list A) (acc : S)
  : prog S :=
  match l with
  | [] => Ret acc
  | x :: l' => acc' ← body acc x; for_fold body l' acc'
  end.

(** [for x in l: body], with no local state. *)
Fixpoint for_each {A : Type} (l : list A) (body : A → prog unit) : prog unit :=
  match l with
  | [] => Ret ()
  | x :: l' => body x;; for_each l' body
  end.

(** ** Python built-ins the commands use *)

(** [sorted(l, key=key)]: a stable sort, ascending by key. *)
Fixpoint insert_by {A : Type} (key : A → Z) (x : A) (l : list A) : list A :=
  match l with
  | [] => [x]
  | y :: l' => if key x <=? key y then x :: l else y :: insert_by key x l'
  end.

Fixpoint sorted {A : Type} (key : A → Z) (l : list A) : list A :=
  match l with
  | [] => []
  | x :: l' => insert_by key x (sorted key l')
  end.

(** [str(b)] for a bool. *)
Definition str_bool (b : bool) : string := if b then "True" else "False".

(** [repr(s)] for a string, as CPython's [unicode_repr] has it: the string
    between single quotes, or between double quotes when it holds a single
    quote and no double quote; the quote in use and the backslash are
    escaped with a backslash, tab, newline and carriage return are written
    as backslash and t, n, r, and every other character that is not
    printable as backslash, x and two hexadecimal digits. *)
Definition single_quote : ascii := ascii_of_nat 39.
Definition double_quote : ascii := ascii_of_nat 34.
Definition backslash : ascii := ascii_of_nat 92.

Fixpoint contains (c : ascii) (s : string) : bool :=
  match s with
  | String.EmptyString => false
  | String.String c' s' => Ascii.eqb c c' || contains c s'
  end.

Definition hex_digit (n : nat) : ascii :=
  default "0"%char (String.get n "0123456789abcdef").

Definition hex_escape (c : ascii) : string :=
  let n := nat_of_ascii c in
  String.String backslash
    (String.String "x"
       (String.String (hex_digit (n / 16))
          (String.String (hex_digit (n mod 16)) String.EmptyString))).

(** [Py_UNICODE_ISPRINTABLE] below 256: the controls, the no-break space
    and the soft hyphen are not printable. *)
Definition is_printable (c : ascii) : bool :=
  let n := nat_of_ascii c in
  negb ((n <? 32) || (n =? 127) || ((128 <=? n) && (n <=? 160)) || (n =? 173))%nat.

Definition repr_char (quote c : ascii) : string :=
  let n := nat_of_ascii c in
  if Ascii.eqb c quote || Ascii.eqb c backslash then
    String.String backslash (String.String c String.EmptyString)
  else if (n =? 9)%nat then String.String backslash "t"
  else if (n =? 10)%nat then String.String backslash "n"
  else if (n =? 13)%nat then String.String backslash "r"
  else if is_printable c then String.String c String.EmptyString
  else hex_escape c.

Fixpoint repr_chars (quote : ascii) (s : string) : string :=
  match s with
  | String.EmptyString => String.EmptyString
  | String.String c s' => repr_char quote c +:+ repr_chars quote s'
  end.

Definition repr_str (s : string) : string :=
  let quote :=
    if contains single_quote s && negb (contains double_quote s)
    then double_quote else single_quote in
  String.String quote (repr_chars quote s +:+ String.String quote String.EmptyString).

(** [len(x)]: of a string its length; [None] has none. *)
Definition len (x : option string) : exn + nat :=
  match x with
  | Some v => inr (String.length v)
  | None => inl (TypeError "object of type 'NoneType' has no len()")
  end.

(** [max(l)]: the largest item; of no item, ValueError. *)
Definition max_of (l : list nat) : exn + nat :=
  match l with
  | [] => inl (ValueError "max() arg is an empty sequence")
  | _ :: _ => inr (max_list l)
  end.

(** [[f(x) for x in l]], where [f] may raise: the first error, in order. *)
Fixpoint collect {A B : Type} (f : A → exn + B) (l : list A) : exn + list B :=
  match l with
  | [] => inr []
  | x :: l' =>
      match f x with
      | inl e => inl e
      | inr y =>
          match collect f l' with
          | inl e => inl e
          | inr ys => inr (y :: ys)
          end
      end
  end.

(** [val.ljust(width)]. *)
Definition ljust (val : string) (width : nat) : string :=
  val +:+ String.concat "" (replicate (width - String.length val) " ").

(** [zip] of the unpacked rows: the columns, as many as the shortest row has
    entries. *)
Definition zip_star {A : Type} (rows : list (list A)) : list (list A) :=
  match rows with
  | [] => []
  | row :: rows' =>
      let n := foldr Nat.min (length row) (length <$> rows') in
      (λ j, omap (λ r : list A, r !! j) rows) <$> seq 0 n
  end.

(** ** The backing state and a reference model of the two services

    The Neutron and Blazar services are not part of the repository.  The
    model below answers each call from the backing state, the way the
    Networking API documents it:
    - list calls return the resources that match the filters, in the order
      of the backing state; show calls return the resource with the
      identifier, or 404 (NotFound);
    - [remove_interface_router] answers 404 unless the router exists and the
      port is one of its interfaces, and deletes the port;
    - [delete_subnet] answers 404 for a missing subnet and 409 (Conflict)
      while a port other than a DHCP port holds an address of it; it removes
      the subnet, also from the list of its network;
    - [delete_network] answers 404 for a missing network and 409 while a
      port other than a DHCP port is on it; it removes the network, its
      subnets and its ports;
    - [remove_gateway_router] answers 404 for a missing router and removes
      the router's gateway port;
    - [delete_router] answers 404 for a missing router and 409 while the
      router has an interface; it removes the router and its gateway port. *)

Record Cloud := {
  networks : list Network;
  subnets : list Subnet;
  ports : list Port;
  routers : list Router;
  floatingips : list FloatingIP      (* Blazar's reserved floating IPs *)
}.

Definition opt_matches (o : option string) (v : string) : Prop :=
  match o with
  | Some x => x = v
  | None => True
  end.

Global Instance opt_matches_dec o v : Decision (opt_matches o v).
Proof. destruct o; simpl; apply _. Defined.

Definition network_matches (f : network_filter) (n : Network) : Prop :=
  match nf_segmentation_id f with
  | Some seg => pretty <$> get (segmentation_id n) = Some seg
  | None => True
  end ∧ opt_matches (nf_name f) (net_name n).

Global Instance network_matches_dec f n : Decision (network_matches f n).
Proof. unfold network_matches. destruct (nf_segmentation_id f); apply _. Defined.

Definition port_matches (f : port_filter) (p : Port) : Prop :=
  opt_matches (pf_network_id f) (port_network_id p) ∧
  opt_matches (pf_device_id f) (device_id p) ∧
  opt_matches (pf_device_owner f) (device_owner p).

Global Instance port_matches_dec f p : Decision (port_matches f p).
Proof. unfold port_matches. apply _. Defined.

Definition lookup_network (s : Cloud) (id : string) : option Network :=
  head (filter (λ n, net_id n = id) (networks s)).

Definition lookup_subnet (s : Cloud) (id : string) : option Subnet :=
  head (filter (λ sn, subnet_id sn = id) (subnets s)).

Definition lookup_router (s : Cloud) (id : string) : option Router :=
  head (filter (λ r, router_id r = id) (routers s)).

(** The port is an interface of the router. *)
Definition interface_of (router port : string) (p : Port) : Prop :=
  port_id p = port ∧ device_id p = router ∧
  device_owner p = "network:router_interface".

(** The port is the external gateway of the router. *)
Definition gateway_of (router : string) (p : Port) : Prop :=
  device_id p = router ∧ device_owner p = "network:router_gateway".

(** Ports that go away with their subnet or network; any other port keeps
    them in use. *)
Definition auto_deleted (p : Port) : Prop := device_owner p = "network:dhcp".

Definition uses_subnet (subnet : string) (p : Port) : Prop :=
  ¬ auto_deleted p ∧ Exists (λ ip, fixed_subnet_id ip = subnet) (fixed_ips p).

Definition uses_network (network : string) (p : Port) : Prop :=
  ¬ auto_deleted p ∧ port_network_id p = network.

Definition set_ports (s : Cloud) (ps : list Port) : Cloud :=
  {| networks := networks s; subnets := subnets s; ports := ps;
     routers := routers s; floatingips := floatingips s |}.

Definition drop_subnet (subnet : string) (n : Network) : Network :=
  {| net_id := net_id n; net_name := net_name n;
     segmentation_id := segmentation_id n;
     physical_network := physical_network n;
     net_project_id := net_project_id n;
     net_subnets := filter (λ id, id ≠ subnet) (net_subnets n) |}.

Definition handle {R : Type} (c : call R) (s : Cloud) : (exn + R) * Cloud :=
  match c in call R return (exn + R) * Cloud with
  | list_networks params => (inr (filter (network_matches params) (networks s)), s)
  | list_ports params => (inr (filter (port_matches params) (ports s)), s)
  | list_subnets network_id =>
      (inr (filter (λ sn, subnet_network_id sn = network_id) (subnets s)), s)
  | show_subnet subnet =>
      match lookup_subnet s subnet with
      | Some sn => (inr sn, s)
      | None => (inl (NotFound subnet), s)
      end
  | show_router router =>
      match lookup_router s router with
      | Some r => (inr r, s)
      | None => (inl (NotFound router), s)
      end
  | remove_interface_router router port =>
      if decide (lookup_router s router = None) then (inl (NotFound router), s)
      else if decide (Exists (interface_of router port) (ports s)) then
        (inr (), set_ports s (filter (λ p, port_id p ≠ port) (ports s)))
      else (inl (NotFound port), s)
  | delete_subnet subnet =>
      if decide (lookup_subnet s subnet = None) then (inl (NotFound subnet), s)
      else if decide (Exists (uses_subnet subnet) (ports s)) then
        (inl (Conflict subnet), s)
      else
        (inr (),
         {| networks := drop_subnet subnet <$> networks s;
            subnets := filter (λ sn, subnet_id sn ≠ subnet) (subnets s);
            ports := ports s; routers := routers s;
            floatingips := floatingips s |})
  | delete_network network =>
      if decide (lookup_network s network = None) then (inl (NotFound network), s)
      else if decide (Exists (uses_network network) (ports s)) then
        (inl (Conflict network), s)
      else
        (inr (),
         {| networks := filter (λ n, net_id n ≠ network) (networks s);
            subnets := filter (λ sn, subnet_network_id sn ≠ network) (subnets s);
            ports := filter (λ p, port_network_id p ≠ network) (ports s);
            routers := routers s; floatingips := floatingips s |})
  | remove_gateway_router router =>
      if decide (lookup_router s router = None) then (inl (NotFound router), s)
      else (inr (), set_ports s (filter (λ p, ¬ gateway_of router p) (ports s)))
  | delete_router router =>
      if decide (lookup_router s router = None) then (inl (NotFound router), s)
      else if decide (Exists (λ p, device_id p = router ∧
                           device_owner p = "network:router_interface") (ports s))
      then (inl (Conflict router), s)
      else
        (inr (),
         {| networks := networks s; subnets := subnets s;
            ports := filter (λ p, ¬ gateway_of router p) (ports s);
            routers := filter (λ r, router_id r ≠ router) (routers s);
            floatingips := floatingips s |})
  | floatingip_list => (inr (floatingips s), s)
  | print _ => (inr (), s)
  end.

(** What running a command gives: its result, the backing state it leaves
    and the calls it made, in order. *)
Record outcome (A : Type) := {
  result : exn + A;
  final : Cloud;
  trace : list event
}.
Arguments result {A} _.
Arguments final {A} _.
Arguments trace {A} _.

Fixpoint interp {A : Type} (p : prog A) (s : Cloud) : outcome A :=
  match p with
  | Ret a => {| result := inr a; final := s; trace := [] |}
  | Raise e => {| result := inl e; final := s; trace := [] |}
  | Call c k =>
      match handle c s with
      | (inl e, s') => {| result := inl e; final := s'; trace := [Event c] |}
      | (inr r, s') =>
          let o := interp (k r) s' in
          {| result := result o; final := final o; trace := Event c :: trace o |}
      end
  end.

(** The lines a run wrote to standard output. *)
Definition stdout {A : Type} (o : outcome A) : list string :=
  omap printed (trace o).

(** ** [network delete]

    Logging ([self.log.info]) is left out: it writes to the log and calls
    no client. *)
Module NetworkDeleteCommand.

(** [str(params)] in the error message: the keys that are there, each
    with the [repr] of its string. *)
Definition repr_params (params : network_filter) : string :=
  let items :=
    from_option (λ segment, ["'provider:segmentation_id': " +:+ repr_str segment])
                [] (nf_segmentation_id params) ++
    from_option (λ name, ["'name': " +:+ repr_str name]) [] (nf_name params) in
  "{" +:+ String.concat ", " items +:+ "}".

Definition _find_network (params : network_filter) : prog Network :=
  networks ← perform (list_networks params);
  match networks with
  | [] => Raise (ValueError ("Could not find network for " +:+ repr_params params))
  | n :: _ => Ret n
  end.

(** The two resources [_list_for_network] is called with; the list method
    is picked by name. *)
Inductive resource : Type → Type :=
| res_ports : resource Port
| res_subnets : resource Subnet.

Definition _list_for_network {R : Type} (network : Network) (name : resource R)
  : prog (list R) :=
  let network_id := net_id network in
  match name in resource R return prog (list R) with
  | res_ports =>
      perform (list_ports {| pf_network_id := Some network_id;
                             pf_device_id := None; pf_device_owner := None |})
  | res_subnets => perform (list_subnets network_id)
  end.

Definition run (segment network : option string) : prog unit :=
  neutron_network ←
    match segment with
    | Some segment =>
        _find_network {| nf_segmentation_id := Some segment; nf_name := None |}
    | None =>
        match network with
        | Some network =>
            (* neutron.get_network: the client has no such attribute *)
            Raise (AttributeError "get_network")
        | None => Raise (ValueError "Missing either segment ID or network ID")
        end
    end;
  (* Find ports *)
  ports ← _list_for_network neutron_network res_ports;
  (* Abort if there are nova ports, this means there are running instances *)
  if decide (Exists (λ p, device_owner p = "compute:nova") ports) then
    Raise (ValueError "Network has running instances!")
  else
    let router_ports :=
      filter (λ p, device_owner p = "network:router_interface") ports in
    (* Detach subnets from router(s) *)
    for_each router_ports (λ p,
      perform (remove_interface_router (device_id p) (port_id p)));;
    subnets ← _list_for_network neutron_network res_subnets;
    for_each subnets (λ s, perform (delete_subnet (subnet_id s)));;
    perform (delete_network (net_id neutron_network));;
    for_each router_ports (λ p,
      let router_id := device_id p in
      other_router_ports ←
        perform (list_ports {| pf_network_id := None;
                               pf_device_id := Some router_id;
                               pf_device_owner := Some (device_owner p) |});
      match other_router_ports with
      | [] =>
          perform (remove_gateway_router router_id);;
          perform (delete_router router_id)
      | _ :: _ => Ret ()
      end).

End NetworkDeleteCommand.

(** ** [network segments]

    A cell of the table is a string or [None]: the physical network of a
    network is put into its row as it is. *)
Module NetworkSegmentStatusCommand.

Definition header_text : list string :=
  ["physical_network"; "segmentation_id"; "name"; "project_id"].

Definition header : list (option string) := Some <$> header_text.

(** Handle networks without a VLAN tag, which have no segment ID:
    [x.get("provider:segmentation_id") or -1]. *)
Definition sort_key (x : Network) : Z :=
  match get (segmentation_id x) with
  | None => -1
  | Some id => if id =? 0 then -1 else id
  end.

(** [str(x)] of a segmentation ID or [None]. *)
Definition str (x : option Z) : string :=
  match x with
  | None => "None"
  | Some id => pretty id
  end.

(** The row of a network; the two provider attributes are read with
    [n[...]], the physical network first. *)
Definition row (n : Network) : exn + list (option string) :=
  match getitem "provider:physical_network" (physical_network n) with
  | inl e => inl e
  | inr physical_network =>
      match getitem "provider:segmentation_id" (segmentation_id n) with
      | inl e => inl e
      | inr segmentation_id =>
          inr [physical_network; Some (str segmentation_id);
               Some (net_name n); Some (net_project_id n)]
      end
  end.

(** [rows] after the loop: the header, then a row for each network in
    sorted order. *)
Definition rows_of (networks : list Network) : exn + list (list (option string)) :=
  match collect row (sorted sort_key networks) with
  | inl e => inl e
  | inr rows => inr (header :: rows)
  end.

(** The widths: [max(map(len, col))] for each column [col] of the rows. *)
Definition widths_of (rows : list (list (option string))) : exn + list nat :=
  collect (λ col, match collect len col with
                  | inl e => inl e
                  | inr lens => max_of lens
                  end) (zip_star rows).

(** [val.ljust(width)] for a cell. *)
Definition ljust_cell (cw : option string * nat) : exn + string :=
  match cw.1 with
  | Some val => inr (ljust val cw.2)
  | None => inl (AttributeError "ljust")
  end.

(** The line of a row: ["  ".join(cols)]. *)
Definition format_row (widths : list nat) (row : list (option string))
  : exn + string :=
  match collect ljust_cell (zip row widths) with
  | inl e => inl e
  | inr cols => inr (String.concat "  " cols)
  end.

Definition run : prog unit :=
  networks ← perform (list_networks no_network_filter);
  rows ← lift (rows_of networks);
  widths ← lift (widths_of rows);
  for_each rows (λ row,
    line ← lift (format_row widths row);
    perform (print line)).

End NetworkSegmentStatusCommand.

(** ** [network ips]

    [log] writes to standard error and is left out.  The spinner and the
    progress bar write to standard output.  When that is not a terminal the
    spinner stays silent and the bar is hidden: entering it echoes its label
    as one line (click 8) and nothing more; this is what the model has.  On
    a terminal both are drawn and redrawn as time passes, which is not
    modelled. *)
Module NetworkPublicIPStatusCommand.

Definition headers : list string :=
  ["public_ip"; "allocation_type"; "reservable"; "project_id"].

Definition progress_label : string := "Processing addresses".

(** [ipaddress.IPv4Address(s)], raising on a malformed literal. *)
Definition IPv4Address (s : string) : prog Z :=
  match ipaddress.IPv4Address s with
  | Some ip => Ret ip
  | None => Raise (AddressValueError s)
  end.

Definition _public_allocation_pools : prog (list AllocationPool) :=
  networks ← perform (list_networks {| nf_segmentation_id := None;
                                       nf_name := Some "public" |});
  match networks with
  | [] => Raise (ValueError "Could not find public network")
  | public_net :: _ =>
      match net_subnets public_net with
      | [] => Raise (ValueError "No subnets defined on public network")
      | subnets =>
          for_fold (λ pools subnet_id,
                      subnet ← perform (show_subnet subnet_id);
                      Ret (pools ++ allocation_pools subnet))
                   subnets []
      end
  end.

(** The dict comprehension [{p.get("fixed_ips")[0].get("ip_address"): p
    for p in public_ports}]; a later port replaces an earlier one at the
    same key. *)
Definition index_ports (public_ports : list Port) : prog (gmap string Port) :=
  for_fold (λ (ports_by_ip : gmap string Port) p,
              match fixed_ips p with
              | [] => Raise IndexError
              | ip :: _ => Ret (<[ip_address ip := p]> ports_by_ip)
              end)
           public_ports ∅.

(** The loop over the allocation pools, extending [all_addresses]. *)
Definition extend_with_pools (all_addresses : list Z)
    (allocation_pools : list AllocationPool) : prog (list Z) :=
  for_fold (λ all_addresses p,
              start_ip ← IPv4Address (pool_start p);
              end_ip ← IPv4Address (pool_end p);
              match ipaddress.summarize_address_range start_ip end_ip with
              | inl e => Raise e
              | inr nets =>
                  Ret (foldl (λ acc net, acc ++ ipaddress.network_addresses net)
                             all_addresses nets)
              end)
           allocation_pools all_addresses.

(** The body of the loop over the sorted addresses; the local state is
    the [routers] cache and the [rows] built so far. *)
Definition process_address (ports_by_ip : gmap string Port)
    (reservable_ips : list Z)
    (state : gmap string Router * list (list string)) (public_ip : Z)
  : prog (gmap string Router * list (list string)) :=
  let '(routers, rows) := state in
  let port := ports_by_ip !! ipaddress.str public_ip in
  let reservable := str_bool (bool_decide (public_ip ∈ reservable_ips)) in
  '(routers, allocation_type, project_id) ←
    match port with
    | Some port =>
        if decide (device_owner port = "network:router_gateway") then
          let router_id := device_id port in
          '(routers, router) ←
            match routers !! router_id with
            | Some router => Ret (routers, router)
            | None =>
                router ← perform (show_router router_id);
                Ret (<[router_id := router]> routers, router)
            end;
          Ret (routers, "gateway", router_project_id router)
        else Ret (routers, "floating_ip", port_project_id port)
    | None => Ret (routers, "unallocated", "none")
    end;
  Ret (routers,
       rows ++ [[ipaddress.str public_ip; allocation_type; reservable;
                 project_id]]).

(** [run] up to the table: the rows. *)
Definition run_rows : prog (list (list string)) :=
  fips ← perform floatingip_list;
  reservable_ips ←
    for_fold (λ ips fip, ip ← IPv4Address (floating_ip_address fip);
                         Ret (ips ++ [ip]))
             fips [];
  ports ← perform (list_ports no_port_filter);
  let public_ports :=
    filter (λ p, device_owner p ∈ ["network:floatingip";
                                   "network:router_gateway"]) ports in
  ports_by_ip ← index_ports public_ports;
  allocation_pools ← _public_allocation_pools;
  all_addresses ← extend_with_pools reservable_ips allocation_pools;
  let ips := sorted id all_addresses in
  (* with click.progressbar(sorted(all_addresses), label=...) as ips *)
  perform (print progress_label);;
  '(_, rows) ← for_fold (process_address ports_by_ip reservable_ips) ips (∅, []);
  Ret rows.

Section Tabulate.
(** [tabulate.tabulate(rows, headers=headers)], which lays the table
    out; it is a function of the two. *)
Variable tabulate : list (list string) → list string → string.

Definition run : prog unit :=
  rows ← run_rows;
  perform (print (tabulate rows headers)).
End Tabulate.

End NetworkPublicIPStatusCommand.

(** ** Reasoning about runs: weakest preconditions

    [wp p Q s]: running [p] from [s] ends with a result and a backing state
    that satisfy [Q]. *)
Fixpoint wp {A : Type} (p : prog A) (Q : exn + A → Cloud → Prop) (s : Cloud)
  : Prop :=
  match p with
  | Ret a => Q (inr a) s
  | Raise e => Q (inl e) s
  | Call c k =>
      match handle c s with
      | (inl e, s') => Q (inl e) s'
      | (inr r, s') => wp (k r) Q s'
      end
  end.

(** The postcondition of the first part of a sequence. *)
Definition and_then {A B : Type} (f : A → prog B)
    (Q : exn + B → Cloud → Prop) : exn + A → Cloud → Prop :=
  λ r s, match r with
         | inl e => Q (inl e) s
         | inr a => wp (f a) Q s
         end.

(** A postcondition that holds of a successful run only. *)
Definition on_success {A : Type} (Q : A → Cloud → Prop)
  : exn + A → Cloud → Prop :=
  λ r s, match r with
         | inl _ => True
         | inr a => Q a s
         end.

(** A postcondition that demands success. *)
Definition succeeds {A : Type} (Q : A → Cloud → Prop)
  : exn + A → Cloud → Prop :=
  λ r s, match r with
         | inl _ => False
         | inr a => Q a s
         end.

(** ** What the claims speak of, read off the backing state *)

(** The network that the selectors of [network delete] resolve to: the
    first network that Neutron lists for the segment.  A network ID alone
    resolves to nothing, as the run then ends at [neutron.get_network]. *)
Definition target_network (s : Cloud) (segment network : option string)
  : option Network :=
  match segment with
  | Some segment =>
      head (filter (network_matches {| nf_segmentation_id := Some segment;
                                       nf_name := None |}) (networks s))
  | None => None
  end.

Definition is_router_interface (p : Port) : Prop :=
  device_owner p = "network:router_interface".

Definition is_compute (p : Port) : Prop := device_owner p = "compute:nova".

Definition on_network (n : Network) (p : Port) : Prop :=
  port_network_id p = net_id n.

Global Instance is_router_interface_dec p : Decision (is_router_interface p).
Proof. unfold is_router_interface. apply _. Defined.

Global Instance is_compute_dec p : Decision (is_compute p).
Proof. unfold is_compute. apply _. Defined.

Global Instance on_network_dec n p : Decision (on_network n p).
Proof. unfold on_network. apply _. Defined.

(** The ports of the backing state that are interfaces of the router. *)
Definition interfaces (s : Cloud) (router : string) : list Port :=
  filter (λ p, device_id p = router ∧ is_router_interface p) (ports s).

(** The router-interface ports on a network: the ports teardown detaches. *)
Definition router_ports_on (s : Cloud) (n : Network) : list Port :=
  filter is_router_interface (filter (on_network n) (ports s)).

Definition has_router (s : Cloud) (router : string) : Prop :=
  Exists (λ r, router_id r = router) (routers s).

Definition has_network (s : Cloud) (network : string) : Prop :=
  Exists (λ n, net_id n = network) (networks s).

(** Some subnet of the given network is still there. *)
Definition has_subnet_of (s : Cloud) (network : string) : Prop :=
  Exists (λ sn, subnet_network_id sn = network) (subnets s).

(** The backing state is well formed for the teardown of [n]: identifiers
    are unique, only ports of the network hold addresses of its subnets,
    the ports on the network are router interfaces or DHCP ports, and the
    router interfaces belong to routers that exist, one interface each. *)
Definition tearable (s : Cloud) (n : Network) : Prop :=
  NoDup (port_id <$> ports s) ∧
  NoDup (subnet_id <$> subnets s) ∧
  Forall (λ p, Forall (λ sn,
            subnet_network_id sn = net_id n →
            Exists (λ ip, fixed_subnet_id ip = subnet_id sn) (fixed_ips p) →
            on_network n p) (subnets s)) (ports s) ∧
  Forall (λ p, on_network n p → is_router_interface p ∨ auto_deleted p)
         (ports s) ∧
  Forall (λ p, has_router s (device_id p)) (router_ports_on s n) ∧
  NoDup (device_id <$> router_ports_on s n).

Global Instance tearable_dec s n : Decision (tearable s n).
Proof. unfold tearable, has_router, auto_deleted. apply _. Defined.

(** *** The segment report, read off the backing state *)

(** The report can show the network: both provider attributes are there
    and the physical network is a string. *)
Definition reportable (n : Network) : Prop :=
  is_Some (get (physical_network n)) ∧ segmentation_id n ≠ Missing.

Global Instance reportable_dec n : Decision (reportable n).
Proof. unfold reportable. apply _. Defined.

(** A row of strings, as cells of the table. *)
Definition cells (row : list string) : list (option string) := Some <$> row.

(** The cells of the row of a network that the report can show. *)
Definition report_row (n : Network) : list string :=
  [default String.EmptyString (get (physical_network n));
   NetworkSegmentStatusCommand.str (get (segmentation_id n));
   net_name n; net_project_id n].

(** The table: the header, then the rows in sorted order. *)
Definition report_rows (nets : list Network) : list (list string) :=
  NetworkSegmentStatusCommand.header_text
  :: (report_row <$> sorted NetworkSegmentStatusCommand.sort_key nets).

(** The width of each column: the length of its longest cell. *)
Definition column_widths (rows : list (list string)) : list nat :=
  (λ col, max_list (String.length <$> col)) <$> zip_star rows.

(** The line of a row: its cells, each padded to the width of its column,
    with two spaces between them. *)
Definition report_line (widths : list nat) (row : list string) : string :=
  String.concat "  " (zip_with ljust row widths).

(** *** The public IP audit, read off the backing state *)

(** The addresses of a list of literals, or the error of the first literal
    that is malformed. *)
Fixpoint parse_addresses (l : list string) : exn + list Z :=
  match l with
  | [] => inr []
  | a :: l' =>
      match ipaddress.IPv4Address a with
      | None => inl (AddressValueError a)
      | Some ip =>
          match parse_addresses l' with
          | inl e => inl e
          | inr ips => inr (ip :: ips)
          end
      end
  end.

(** The reserved floating-IP addresses, in Blazar's order. *)
Definition reserved_addresses (s : Cloud) : exn + list Z :=
  parse_addresses (floating_ip_address <$> floatingips s).

(** The ports the audit keeps. *)
Definition is_public_port (p : Port) : Prop :=
  device_owner p ∈ ["network:floatingip"; "network:router_gateway"].

Global Instance is_public_port_dec p : Decision (is_public_port p).
Proof. unfold is_public_port. apply _. Defined.

Definition public_ports (s : Cloud) : list Port :=
  filter is_public_port (ports s).

Definition first_address (p : Port) : option string :=
  ip_address <$> head (fixed_ips p).

(** The index of the ports by first fixed IP address, a later port
    replacing an earlier one; [None] when a port has no fixed IP. *)
Fixpoint index_from (m : gmap string Port) (l : list Port)
  : option (gmap string Port) :=
  match l with
  | [] => Some m
  | p :: l' =>
      match first_address p with
      | None => None
      | Some a => index_from (<[a := p]> m) l'
      end
  end.

(** The allocation pools of the subnets with the given identifiers. *)
Fixpoint subnet_pools (s : Cloud) (ids : list string)
  : exn + list AllocationPool :=
  match ids with
  | [] => inr []
  | id :: ids' =>
      match lookup_subnet s id with
      | None => inl (NotFound id)
      | Some sn =>
          match subnet_pools s ids' with
          | inl e => inl e
          | inr pools => inr (allocation_pools sn ++ pools)
          end
      end
  end.

(** The allocation pools of the first network named "public". *)
Definition public_pools (s : Cloud) : exn + list AllocationPool :=
  match filter (λ n, net_name n = "public") (networks s) with
  | [] => inl (ValueError "Could not find public network")
  | public_net :: _ =>
      match net_subnets public_net with
      | [] => inl (ValueError "No subnets defined on public network")
      | ids => subnet_pools s ids
      end
  end.

(** The two ends of a pool, as addresses. *)
Definition pool_bounds (p : AllocationPool) : exn + Z * Z :=
  match ipaddress.IPv4Address (pool_start p) with
  | None => inl (AddressValueError (pool_start p))
  | Some lo =>
      match ipaddress.IPv4Address (pool_end p) with
      | None => inl (AddressValueError (pool_end p))
      | Some hi =>
          if hi <? lo
          then inl (ValueError "last IP address must be greater than first")
          else inr (lo, hi)
      end
  end.

Fixpoint pools_bounds (pools : list AllocationPool) : exn + list (Z * Z) :=
  match pools with
  | [] => inr []
  | p :: pools' =>
      match pool_bounds p with
      | inl e => inl e
      | inr b =>
          match pools_bounds pools' with
          | inl e => inl e
          | inr bs => inr (b :: bs)
          end
      end
  end.

(** Every address of a pool, both ends included. *)
Definition pool_addresses (b : Z * Z) : list Z :=
  ipaddress.int_range (fst b) (Z.to_nat (snd b - fst b + 1)).

(** The candidate addresses: the reserved ones, then the pools'. *)
Definition candidate_addresses (reserved : list Z) (bounds : list (Z * Z))
  : list Z :=
  reserved ++ concat (pool_addresses <$> bounds).

(** What a row says about its address, given the index of the kept ports
    and the reserved addresses. *)
Definition row_for (s : Cloud) (ports_by_ip : gmap string Port)
    (reserved : list Z) (a : Z) (row : list string) : Prop :=
  ∃ allocation_type project_id,
    row = [ipaddress.str a; allocation_type;
           str_bool (bool_decide (a ∈ reserved)); project_id] ∧
    match ports_by_ip !! ipaddress.str a with
    | Some port =>
        if decide (device_owner port = "network:router_gateway") then
          allocation_type = "gateway" ∧
          ∃ router, lookup_router s (device_id port) = Some router ∧
                    project_id = router_project_id router
        else
          allocation_type = "floating_ip" ∧ project_id = port_project_id port
    | None => allocation_type = "unallocated" ∧ project_id = "none"
    end.

(** Every router in the cache is the router of the backing state. *)
Definition cache_of (s : Cloud) (routers : gmap string Router) : Prop :=
  ∀ id router, routers !! id = Some router → lookup_router s id = Some router.

(** What a run of the audit ends with, step by step: the error of the first
    step that fails, or rows that describe the sorted candidate addresses. *)
Definition audit_outcome (s : Cloud) (r : exn + list (list string)) : Prop :=
  match reserved_addresses s with
  | inl e => r = inl e
  | inr reserved =>
      match index_from ∅ (public_ports s) with
      | None => r = inl IndexError
      | Some ports_by_ip =>
          match public_pools s with
          | inl e => r = inl e
          | inr pools =>
              match pools_bounds pools with
              | inl e => r = inl e
              | inr bounds =>
                  match r with
                  | inl e => ∃ id, e = NotFound id
                  | inr rows =>
                      Forall2 (row_for s ports_by_ip reserved)
                              (sorted id (candidate_addresses reserved bounds))
                              rows
                  end
              end
          end
      end
  end.

(** The router of the gateway port that the index holds at the address, if
    it holds one, is there. *)
Definition router_known (s : Cloud) (ports_by_ip : gmap string Port) (a : Z)
  : Prop :=
  match ports_by_ip !! ipaddress.str a with
  | Some port =>
      device_owner port = "network:router_gateway" →
      is_Some (lookup_router s (device_id port))
  | None => True
  end.

Global Instance router_known_dec s ports_by_ip a :
  Decision (router_known s ports_by_ip a).
Proof. unfold router_known. destruct (_ !! _); apply _. Defined.

(** The audit can read everything it needs: the reserved addresses and the
    pools are well formed, every kept port has a fixed IP, the public
    network and its subnets are there, and so is the router of every gateway
    port that the index holds at a candidate address. *)
Definition auditable (s : Cloud) : Prop :=
  match reserved_addresses s, index_from ∅ (public_ports s), public_pools s with
  | inr reserved, Some ports_by_ip, inr pools =>
      match pools_bounds pools with
      | inr bounds =>
          Forall (router_known s ports_by_ip)
                 (candidate_addresses reserved bounds)
      | inl _ => False
      end
  | _, _, _ => False
  end.

Global Instance auditable_dec s : Decision (auditable s).
Proof. unfold auditable. repeat case_match; apply _. Defined.

(** ** Backing states used as examples *)
Module Examples.

Definition port (id network device owner : string) (ips : list FixedIP)
    (project : string) : Port :=
  {| port_id := id; port_network_id := network; device_id := device;
     device_owner := owner; fixed_ips := ips; port_project_id := project |}.

Definition ip (subnet address : string) : FixedIP :=
  {| fixed_subnet_id := subnet; ip_address := address |}.

Definition net (id name : string) (segment : attr Z) (project : string)
    (subnets : list string) : Network :=
  {| net_id := id; net_name := name; segmentation_id := segment;
     physical_network := Val "physnet1"; net_project_id := project;
     net_subnets := subnets |}.

Definition public : Network := net "pub" "public" (Val 30) "admin" ["psub"].
Definition net1 : Network := net "n1" "one" Null "p1" ["s1"].
Definition net2 : Network := net "n2" "two" (Val 10) "p2" ["s2"].

Definition site_subnets : list Subnet :=
  [ {| subnet_id := "psub"; subnet_network_id := "pub";
       allocation_pools := [ {| pool_start := "10.0.0.2";
                                pool_end := "10.0.0.4" |} ] |};
    {| subnet_id := "s1"; subnet_network_id := "n1"; allocation_pools := [] |};
    {| subnet_id := "s2"; subnet_network_id := "n2"; allocation_pools := [] |} ].

Definition floating : Port :=
  port "fp" "pub" "fip1" "network:floatingip" [ip "psub" "10.0.0.3"] "p1".
Definition gateway : Port :=
  port "gw" "pub" "r1" "network:router_gateway" [ip "psub" "10.0.0.4"] "".
Definition iface1 : Port :=
  port "i1" "n1" "r1" "network:router_interface" [ip "s1" "192.168.0.1"] "p1".
Definition iface2 : Port :=
  port "i2" "n2" "r1" "network:router_interface" [ip "s2" "192.168.1.1"] "p1".
Definition dhcp1 : Port :=
  port "d1" "n1" "dhcp1" "network:dhcp" [ip "s1" "192.168.0.2"] "p1".

(** A public network with the pool 10.0.0.2 - 10.0.0.4, a floating IP at
    10.0.0.3, a reservation for 10.0.0.5, and one router with its gateway
    at 10.0.0.4 and an interface on each of two tenant networks. *)
Definition site : Cloud :=
  {| networks := [public; net1; net2];
     subnets := site_subnets;
     ports := [floating; gateway; iface1; iface2; dhcp1];
     routers := [ {| router_id := "r1"; router_project_id := "p1" |} ];
     floatingips := [ {| floating_ip_address := "10.0.0.5" |} ] |}.

(** [site] where network n1 is a VLAN too, with segment 20. *)
Definition net1_vlan : Network := net "n1" "one" (Val 20) "p1" ["s1"].

Definition site_vlan : Cloud :=
  {| networks := [public; net1_vlan; net2];
     subnets := subnets site; ports := ports site; routers := routers site;
     floatingips := floatingips site |}.


(** [site] where the reserved address lies inside the pool. *)
Definition site_overlap : Cloud :=
  {| networks := networks site; subnets := subnets site;
     ports := ports site; routers := routers site;
     floatingips := [ {| floating_ip_address := "10.0.0.3" |} ] |}.

(** [site] with a floating-IP port that has no fixed IP. *)
Definition site_no_fixed_ip : Cloud :=
  set_ports site
    (ports site ++ [port "fp2" "pub" "fip2" "network:floatingip" [] "p1"]).

Definition net1_two_subnets : Network :=
  net "n1" "one" (Val 20) "p1" ["s1"; "s1b"].
Definition iface1b : Port :=
  port "i1b" "n1" "r1" "network:router_interface" [ip "s1b" "192.168.5.1"] "p1".

(** Network n1 has two subnets, both attached to router r1, which has no
    other interface. *)
Definition site_two_interfaces : Cloud :=
  {| networks := [public; net1_two_subnets];
     subnets :=
       [ {| subnet_id := "psub"; subnet_network_id := "pub";
            allocation_pools := [ {| pool_start := "10.0.0.2";
                                     pool_end := "10.0.0.4" |} ] |};
         {| subnet_id := "s1"; subnet_network_id := "n1";
            allocation_pools := [] |};
         {| subnet_id := "s1b"; subnet_network_id := "n1";
            allocation_pools := [] |} ];
     ports :=
       [gateway; iface1; iface1b];
     routers := [ {| router_id := "r1"; router_project_id := "p1" |} ];
     floatingips := [] |}.

(** A tunnelled network: a segment (its VNI) and no physical network. *)
Definition tunnel : Network :=
  {| net_id := "t1"; net_name := "overlay"; segmentation_id := Val 1001;
     physical_network := Null; net_project_id := "p3"; net_subnets := [] |}.

(** [site] with a tunnelled network beside the VLANs. *)
Definition site_tunnel : Cloud :=
  {| networks := [public; net1; net2; tunnel];
     subnets := subnets site; ports := ports site; routers := routers site;
     floatingips := floatingips site |}.

(** A network as a caller sees it whom the policy does not show the
    provider attributes. *)
Definition hidden : Network :=
  {| net_id := "n1"; net_name := "one"; segmentation_id := Missing;
     physical_network := Missing; net_project_id := "p1";
     net_subnets := ["s1"] |}.

Definition site_hidden : Cloud :=
  {| networks := [hidden];
     subnets := subnets site; ports := ports site; routers := routers site;
     floatingips := floatingips site |}.

End Examples.

(** ** The calls of a teardown, read off the backing state *)

(** The call that resolves the selectors. *)
Definition select_event (segment network : option string) : list event :=
  match segment with
  | Some segment =>
      [Event (list_networks {| nf_segmentation_id := Some segment;
                               nf_name := None |})]
  | None => []
  end.

(** The subnets that [list_subnets] returns for the network. *)
Definition subnets_on (s : Cloud) (n : Network) : list Subnet :=
  filter (λ sn, subnet_network_id sn = net_id n) (subnets s).

(** The calls up to the deletion of the network, in order: resolve, list
    the ports, detach every router-interface port, list the subnets, delete
    every subnet, delete the network. *)
Definition teardown_plan (s : Cloud) (segment network : option string)
    (n : Network) : list event :=
  select_event segment network ++
  [Event (list_ports {| pf_network_id := Some (net_id n);
                        pf_device_id := None; pf_device_owner := None |})] ++
  ((λ p, Event (remove_interface_router (device_id p) (port_id p)))
     <$> router_ports_on s n) ++
  [Event (list_subnets (net_id n))] ++
  ((λ sn, Event (delete_subnet (subnet_id sn))) <$> subnets_on s n) ++
  [Event (delete_network (net_id n))].

(** The interfaces that are left to a router once the router-interface
    ports of the network are detached and the network is deleted. *)
Definition kept_interfaces (s : Cloud) (n : Network) (router : string)
  : list Port :=
  filter (λ p, (port_id p ∉ port_id <$> router_ports_on s n) ∧
               ¬ on_network n p)
         (interfaces s router).

(** The calls that collect the routers, in order: for each detached port
    the list of the interfaces of its router and, when none is left, the
    removal of the router's gateway and of the router. *)
Definition collect_plan (s : Cloud) (n : Network) : list event :=
  router_ports_on s n ≫= λ p,
    Event (list_ports {| pf_network_id := None;
                         pf_device_id := Some (device_id p);
                         pf_device_owner := Some (device_owner p) |}) ::
    match kept_interfaces s n (device_id p) with
    | [] => [Event (remove_gateway_router (device_id p));
             Event (delete_router (device_id p))]
    | _ :: _ => []
    end.

(** What a teardown of the network may change: the router-interface ports
    on it, its subnets, the network itself and the routers of those ports.
    Calls that only read are always allowed. *)
Definition teardown_may (s : Cloud) (n : Network) (e : event) : Prop :=
  match e with
  | Event (remove_interface_router router port) =>
      ∃ p, p ∈ router_ports_on s n ∧ router = device_id p ∧ port = port_id p
  | Event (delete_subnet subnet) => subnet ∈ subnet_id <$> subnets_on s n
  | Event (delete_network network) => network = net_id n
  | Event (remove_gateway_router router) | Event (delete_router router) =>
      router ∈ device_id <$> router_ports_on s n
  | _ => True
  end.

(** ** The calls of an audit *)

(** The router that a call fetches, if it is a [show_router]. *)
Definition shown_router (e : event) : option string :=
  match e with
  | Event (show_router router) => Some router
  | _ => None
  end.

(** The routers fetched by the calls of a run, in order. *)
Definition shown_routers (t : list event) : list string := omap shown_router t.

(** ** More backing states used as examples *)
Module Scenarios.

(** [site_vlan] with a bare-metal node on network n1: its port is not owned
    by "compute:nova", and it holds an address of subnet s1. *)
Definition site_baremetal : Cloud :=
  set_ports Examples.site_vlan
    (ports Examples.site_vlan ++
     [Examples.port "bm" "n1" "node1" "baremetal:none"
                    [Examples.ip "s1" "192.168.0.7"] "p1"]).

(** [site] where Blazar reports a malformed address after a good one. *)
Definition site_bad_reservation : Cloud :=
  {| networks := networks Examples.site; subnets := subnets Examples.site;
     ports := ports Examples.site; routers := routers Examples.site;
     floatingips := [ {| floating_ip_address := "10.0.0.5" |};
                      {| floating_ip_address := "10.0.0.256" |} ] |}.

(** [site] where the public network lists a subnet that is gone between two
    that are there, and where a second network is named "public". *)
Definition site_missing_subnet : Cloud :=
  {| networks := [Examples.net "pub" "public" (Val 30) "admin"
                               ["psub"; "gone"; "s1"];
                  Examples.net "pub2" "public" Null "admin" ["s2"];
                  Examples.net1; Examples.net2];
     subnets := subnets Examples.site; ports := ports Examples.site;
     routers := routers Examples.site;
     floatingips := floatingips Examples.site |}.

(** [site] where the public subnet has a pool of one address and then a
    pool that ends before it starts. *)
Definition site_reversed_pool : Cloud :=
  {| networks := networks Examples.site;
     subnets :=
       [ {| subnet_id := "psub"; subnet_network_id := "pub";
            allocation_pools := [ {| pool_start := "10.0.0.2";
                                     pool_end := "10.0.0.2" |};
                                  {| pool_start := "10.0.0.9";
                                     pool_end := "10.0.0.4" |} ] |} ];
     ports := ports Examples.site; routers := routers Examples.site;
     floatingips := floatingips Examples.site |}.

End Scenarios.

(** * Properties *)

(** ** Runs and weakest preconditions *)

Lemma wp_interp {A : Type} (p : prog A) Q s :
  wp p Q s ↔ Q (result (interp p s)) (final (interp p s)).
Proof.
  revert s. induction p as [a | e | R c k IH]; intros s; simpl; [done | done |].
  destruct (handle c s) as [[e | r] s']; simpl; [done | apply IH].
Qed.

Lemma wp_mono {A : Type} (p : prog A) (Q Q' : exn + A → Cloud → Prop) s :
  (∀ r s', Q r s' → Q' r s') → wp p Q s → wp p Q' s.
Proof.
  intros HQ. revert s. induction p as [a | e | R c k IH]; intros s; simpl; auto.
  destruct (handle c s) as [[e | r] s']; auto.
Qed.

Lemma wp_bind {A B : Type} (m : prog A) (f : A → prog B) Q s :
  wp (m ≫= f) Q s ↔ wp m (and_then f Q) s.
Proof.
  unfold mbind, prog_bind. revert s.
  induction m as [a | e | R c k IH]; intros s; simpl; [done | done |].
  destruct (handle c s) as [[e | r] s']; simpl; [done | apply IH].
Qed.

Lemma wp_perform {R : Type} (c : call R) Q s :
  wp (perform c) Q s ↔ Q (fst (handle c s)) (snd (handle c s)).
Proof. simpl. by destruct (handle c s) as [[e | r] s']. Qed.

Lemma wp_for_each_cons {A : Type} (x : A) l (body : A → prog unit) Q s :
  wp (for_each (x :: l) body) Q s
  ↔ wp (body x) (and_then (λ _, for_each l body) Q) s.
Proof. apply wp_bind. Qed.

Lemma wp_for_fold_cons {A S : Type} (x : A) l (body : S → A → prog S) acc Q s :
  wp (for_fold body (x :: l) acc) Q s
  ↔ wp (body acc x) (and_then (for_fold body l) Q) s.
Proof. apply wp_bind. Qed.

(** ** Lookups in the backing state *)

Lemma head_filter_None {A : Type} (P : A → Prop) `{∀ x, Decision (P x)}
    (l : list A) :
  head (filter P l) = None ↔ ¬ Exists P l.
Proof.
  rewrite head_None. split.
  - intros Hnil [x [Hx HP]]%Exists_exists.
    assert (x ∈ filter P l) as Hin by (by apply list_elem_of_filter).
    rewrite Hnil in Hin. by apply not_elem_of_nil in Hin.
  - intros Hno. induction l as [| x l IH]; [done |].
    rewrite filter_cons_False.
    + apply IH. intros Hex. apply Hno. by right.
    + intros HP. apply Hno. by left.
Qed.

Lemma lookup_router_None s router :
  lookup_router s router = None ↔ ¬ has_router s router.
Proof. apply head_filter_None. Qed.

Lemma lookup_network_None s network :
  lookup_network s network = None ↔ ¬ has_network s network.
Proof. apply head_filter_None. Qed.

Lemma list_ports_on_network n (l : list Port) :
  filter (port_matches {| pf_network_id := Some (net_id n);
                          pf_device_id := None; pf_device_owner := None |}) l
  = filter (on_network n) l.
Proof.
  apply list_filter_iff. intros p. unfold port_matches, on_network. simpl.
  intuition congruence.
Qed.

Lemma list_ports_of_router router (l : list Port) :
  filter (port_matches {| pf_network_id := None; pf_device_id := Some router;
                          pf_device_owner := Some "network:router_interface" |}) l
  = filter (λ p, device_id p = router ∧ is_router_interface p) l.
Proof.
  apply list_filter_iff. intros p.
  unfold port_matches, is_router_interface. simpl. intuition congruence.
Qed.

Lemma list_all_ports (l : list Port) : filter (port_matches no_port_filter) l = l.
Proof.
  induction l as [| p l IH]; [done |].
  rewrite filter_cons_True; [by rewrite IH | by unfold port_matches].
Qed.

Lemma list_all_networks (l : list Network) :
  filter (network_matches no_network_filter) l = l.
Proof.
  induction l as [| n l IH]; [done |].
  rewrite filter_cons_True; [by rewrite IH | by unfold network_matches].
Qed.

(** ** [network delete]: the selectors and the running-instances check *)

Lemma target_found s segment network n :
  target_network s segment network = Some n →
  n ∈ networks s.
Proof.
  unfold target_network. destruct segment as [seg |]; [| done].
  intros Hhead. apply head_Some_elem_of in Hhead.
  by apply list_elem_of_filter in Hhead as [_ ?].
Qed.



(** ** [network delete]: the four phases after the check *)

Lemma wp_conj {A : Type} (p : prog A) (Q1 Q2 : exn + A → Cloud → Prop) s :
  wp p Q1 s → wp p Q2 s → wp p (λ r s', Q1 r s' ∧ Q2 r s') s.
Proof. rewrite !wp_interp. done. Qed.

Lemma filter_all {A : Type} (P : A → Prop) `{∀ x, Decision (P x)} (l : list A) :
  Forall P l → filter P l = l.
Proof.
  induction 1 as [| x l HP _ IH]; [done |].
  by rewrite filter_cons_True, IH.
Qed.

Lemma filter_none {A : Type} (P : A → Prop) `{∀ x, Decision (P x)} (l : list A) :
  (∀ x, x ∈ l → ¬ P x) → filter P l = [].
Proof.
  induction l as [| x l IH]; intros Hno; [done |].
  rewrite filter_cons_False by (apply Hno; by left).
  apply IH. intros y Hy. apply Hno. by right.
Qed.

(** Phase 1: every router-interface port is detached from its router. *)
Lemma detach_effect (l : list Port) s :
  wp (for_each l (λ p,
        perform (remove_interface_router (device_id p) (port_id p))))
     (on_success (λ _ s',
        ports s' = filter (λ q, port_id q ∉ port_id <$> l) (ports s) ∧
        networks s' = networks s ∧ subnets s' = subnets s ∧
        routers s' = routers s ∧
        Forall (λ p, has_router s (device_id p)) l)) s.
Proof.
  revert s. induction l as [| p l IH]; intros s.
  - repeat split; [| done]. symmetry. apply filter_all, Forall_forall.
    intros q _. apply not_elem_of_nil.
  - rewrite wp_for_each_cons, wp_perform. cbn [handle].
    destruct (decide (lookup_router s (device_id p) = None)) as [| Hrouter]; [done |].
    destruct (decide (Exists _ (ports s))); [| done]. cbn [fst snd and_then].
    eapply wp_mono; [| apply IH].
    intros [? | []] s'; simpl; [done |].
    intros (Hports & Hnets & Hsubs & Hrouters & Hall).
    repeat split; try done.
    + rewrite Hports. rewrite list_filter_filter. apply list_filter_iff.
      intros q. rewrite not_elem_of_cons. tauto.
    + constructor; [by apply dec_stable; rewrite <-lookup_router_None |].
      done.
Qed.

Lemma detach_succeeds (l : list Port) s :
  NoDup (port_id <$> l) →
  Forall (λ p, p ∈ ports s ∧ is_router_interface p ∧
               has_router s (device_id p)) l →
  wp (for_each l (λ p,
        perform (remove_interface_router (device_id p) (port_id p))))
     (succeeds (λ _ _, True)) s.
Proof.
  revert s. induction l as [| p l IH]; intros s Hnodup Hall; [done |].
  rewrite fmap_cons in Hnodup. apply NoDup_cons in Hnodup as [Hfresh Hnodup].
  apply Forall_cons in Hall as [(Hin & Hiface & Hrouter) Hall].
  rewrite wp_for_each_cons, wp_perform. cbn [handle].
  rewrite decide_False by (by rewrite lookup_router_None; intros []).
  rewrite decide_True by (apply Exists_exists; exists p; by unfold interface_of).
  cbn [fst snd and_then]. apply IH; [done |].
  apply Forall_forall. intros q Hq.
  pose proof (proj1 (Forall_forall _ _) Hall q Hq) as (Hqin & Hqif & Hqr).
  repeat split; try done.
  apply list_elem_of_filter. split; [| done].
  intros Heq. apply Hfresh. rewrite <-Heq. by apply list_elem_of_fmap_2.
Qed.

(** Phase 2: the subnets of the network are deleted. *)
Lemma delete_subnets_effect (l : list Subnet) s :
  wp (for_each l (λ sn, perform (delete_subnet (subnet_id sn))))
     (on_success (λ _ s',
        ports s' = ports s ∧ routers s' = routers s ∧
        net_id <$> networks s' = net_id <$> networks s)) s.
Proof.
  revert s. induction l as [| sn l IH]; intros s; [done |].
  rewrite wp_for_each_cons, wp_perform. cbn [handle].
  destruct (decide (lookup_subnet s (subnet_id sn) = None)); [done |].
  destruct (decide (Exists _ (ports s))); [done |]. cbn [fst snd and_then].
  eapply wp_mono; [| apply IH].
  intros [? | []] s'; simpl; [done |].
  intros (Hports & Hrouters & Hnets). repeat split; try done.
  rewrite Hnets, <-list_fmap_compose. by apply list_fmap_ext.
Qed.

Lemma delete_subnets_succeeds (l : list Subnet) s :
  NoDup (subnet_id <$> l) →
  Forall (λ sn, sn ∈ subnets s ∧
                ¬ Exists (uses_subnet (subnet_id sn)) (ports s)) l →
  wp (for_each l (λ sn, perform (delete_subnet (subnet_id sn))))
     (succeeds (λ _ _, True)) s.
Proof.
  revert s. induction l as [| sn l IH]; intros s Hnodup Hall; [done |].
  rewrite fmap_cons in Hnodup. apply NoDup_cons in Hnodup as [Hfresh Hnodup].
  apply Forall_cons in Hall as [[Hin Hfree] Hall].
  rewrite wp_for_each_cons, wp_perform. cbn [handle].
  rewrite decide_False.
  2: { unfold lookup_subnet. rewrite head_filter_None. intros Hno.
       apply Hno, Exists_exists. by exists sn. }
  rewrite decide_False by done.
  cbn [fst snd and_then]. apply IH; [done |].
  apply Forall_forall. intros sn' Hsn'.
  pose proof (proj1 (Forall_forall _ _) Hall sn' Hsn') as [Hin' Hfree'].
  split; [| done]. simpl.
  apply list_elem_of_filter. split; [| done].
  intros Heq. apply Hfresh. rewrite <-Heq. by apply list_elem_of_fmap_2.
Qed.

(** Phase 4: the routers of the detached ports are collected.  Interfaces
    are never touched here; a router goes exactly when one of the detached
    ports names it and it has no interface left. *)
Lemma interfaces_without_gateway (ps : list Port) router r :
  filter (λ p, device_id p = r ∧ is_router_interface p)
         (filter (λ p, ¬ gateway_of router p) ps)
  = filter (λ p, device_id p = r ∧ is_router_interface p) ps.
Proof.
  rewrite list_filter_filter. apply list_filter_iff.
  intros p. unfold gateway_of, is_router_interface. split; [tauto |].
  intros [Hdev Hif]. repeat split; try done. rewrite Hif. by intros [_ ?].
Qed.

Lemma has_router_filter (rs : list Router) router r :
  Exists (λ x, router_id x = r) (filter (λ x, router_id x ≠ router) rs)
  ↔ Exists (λ x, router_id x = r) rs ∧ r ≠ router.
Proof.
  rewrite !Exists_exists. split.
  - intros (x & [Hne Hin]%list_elem_of_filter & Hid). split; [eauto | congruence].
  - intros [(x & Hin & Hid) Hne]. exists x. split; [| done].
    apply list_elem_of_filter. split; [congruence | done].
Qed.

Lemma collect_effect (l : list Port) s :
  Forall is_router_interface l →
  wp (for_each l (λ p,
        let router_id := device_id p in
        other_router_ports ←
          perform (list_ports {| pf_network_id := None;
                                 pf_device_id := Some router_id;
                                 pf_device_owner := Some (device_owner p) |});
        match other_router_ports with
        | [] =>
            perform (remove_gateway_router router_id);;
            perform (delete_router router_id)
        | _ :: _ => Ret ()
        end))
     (on_success (λ _ s',
        (∀ r, interfaces s' r = interfaces s r) ∧
        (∀ r, has_router s' r ↔
              has_router s r ∧ ¬ (r ∈ device_id <$> l ∧ interfaces s r = [])) ∧
        networks s' = networks s ∧ subnets s' = subnets s)) s.
Proof.
  intros Hall. revert s. induction Hall as [| p l Hif _ IH]; intros s.
  - split; [done |]. split; [| done]. intros r. split; [| tauto].
    intros Hr. split; [done |]. by intros [Hin%elem_of_nil _].
  - rewrite wp_for_each_cons. cbn zeta. rewrite wp_bind, wp_perform.
    cbn [handle fst snd and_then]. rewrite Hif, list_ports_of_router.
    fold (interfaces s (device_id p)).
    destruct (interfaces s (device_id p)) as [| q qs] eqn:Hifaces.
    + rewrite wp_bind, wp_perform. cbn [handle].
      destruct (decide (lookup_router s (device_id p) = None)); [done |].
      cbn [fst snd and_then]. rewrite wp_perform. cbn [handle].
      destruct (decide (lookup_router _ (device_id p) = None)); [done |].
      destruct (decide (Exists _ _)); [done |]. cbn [fst snd and_then].
      match goal with |- wp _ _ ?s2 =>
        assert (∀ r, interfaces s2 r = interfaces s r) as Hifs2
          by (intros r; unfold interfaces; simpl;
              by rewrite !interfaces_without_gateway);
        assert (∀ r, has_router s2 r ↔ has_router s r ∧ r ≠ device_id p) as Hrs2
          by (intros r; unfold has_router; simpl; apply has_router_filter)
      end.
      eapply wp_mono; [| apply IH].
      intros [? | []] s'; simpl; [done |].
      intros (Hifs & Hrouters & Hnets & Hsubs).
      split; [| split; [| done]].
      * intros r. by rewrite Hifs.
      * intros r. rewrite Hrouters, Hrs2, Hifs2. split.
        -- intros [[Hr Hne] Hnot]. split; [done |].
           intros [[-> | Hin]%elem_of_cons Hempty]; [done | tauto].
        -- intros [Hr Hnot]. repeat split; [done | |].
           ++ intros ->. apply Hnot. split; [by left | done].
           ++ intros [Hin Hempty]. apply Hnot. split; [by right | done].
    + cbn [wp and_then].
      eapply wp_mono; [| apply IH].
      intros [? | []] s'; simpl; [done |].
      intros (Hifs & Hrouters & Hnets & Hsubs).
      split; [done |]. split; [| done].
      intros r. rewrite Hrouters. split.
      * intros [Hr Hnot]. split; [done |].
        intros [[-> | Hin]%elem_of_cons Hempty]; [congruence | tauto].
      * intros [Hr Hnot]. split; [done |].
        intros [Hin Hempty]. apply Hnot. split; [by right | done].
Qed.

Lemma collect_succeeds (l : list Port) s :
  NoDup (device_id <$> l) →
  Forall (λ p, is_router_interface p ∧ has_router s (device_id p)) l →
  wp (for_each l (λ p,
        let router_id := device_id p in
        other_router_ports ←
          perform (list_ports {| pf_network_id := None;
                                 pf_device_id := Some router_id;
                                 pf_device_owner := Some (device_owner p) |});
        match other_router_ports with
        | [] =>
            perform (remove_gateway_router router_id);;
            perform (delete_router router_id)
        | _ :: _ => Ret ()
        end))
     (succeeds (λ _ _, True)) s.
Proof.
  revert s. induction l as [| p l IH]; intros s Hnodup Hall; [done |].
  rewrite fmap_cons in Hnodup. apply NoDup_cons in Hnodup as [Hfresh Hnodup].
  apply Forall_cons in Hall as [[Hif Hrouter] Hall].
  rewrite wp_for_each_cons. cbn zeta. rewrite wp_bind, wp_perform.
  cbn [handle fst snd and_then]. rewrite Hif, list_ports_of_router.
  fold (interfaces s (device_id p)).
  destruct (interfaces s (device_id p)) as [| q qs] eqn:Hifaces.
  - rewrite wp_bind, wp_perform. cbn [handle].
    rewrite decide_False by (by rewrite lookup_router_None; intros []).
    cbn [fst snd and_then]. rewrite wp_perform. cbn [handle].
    rewrite decide_False by (by rewrite lookup_router_None; intros []).
    rewrite decide_False.
    2: { intros (x & [_ Hin]%list_elem_of_filter & Hdev & Howner)%Exists_exists.
         assert (x ∈ interfaces s (device_id p)) as Hx
           by (by apply list_elem_of_filter).
         rewrite Hifaces in Hx. by apply elem_of_nil in Hx. }
    cbn [fst snd and_then]. apply IH; [done |].
    apply Forall_forall. intros x Hx.
    pose proof (proj1 (Forall_forall _ _) Hall x Hx) as [Hxif Hxr].
    split; [done |]. unfold has_router. simpl. apply has_router_filter.
    split; [done |]. intros Heq. apply Hfresh. rewrite <-Heq.
    by apply list_elem_of_fmap_2.
  - cbn [wp and_then]. apply IH; [done |].
    eapply Forall_impl; [exact Hall |]. done.
Qed.

(** A detached port whose router is gone and has no interface makes the
    collection loop fail: the API is asked to remove the gateway of a
    router that is not there. *)
Lemma collect_fails_without_router (l : list Port) s r :
  Forall is_router_interface l →
  r ∈ device_id <$> l → ¬ has_router s r → interfaces s r = [] →
  wp (for_each l (λ p,
        let router_id := device_id p in
        other_router_ports ←
          perform (list_ports {| pf_network_id := None;
                                 pf_device_id := Some router_id;
                                 pf_device_owner := Some (device_owner p) |});
        match other_router_ports with
        | [] =>
            perform (remove_gateway_router router_id);;
            perform (delete_router router_id)
        | _ :: _ => Ret ()
        end))
     (λ res _, ∃ e, res = inl e) s.
Proof.
  intros Hall. revert s.
  induction Hall as [| p l Hif _ IH]; intros s Hr Hgone Hnone.
  { by apply elem_of_nil in Hr. }
  rewrite fmap_cons in Hr.
  rewrite wp_for_each_cons. cbn zeta. rewrite wp_bind, wp_perform.
  cbn [handle fst snd and_then]. rewrite Hif, list_ports_of_router.
  fold (interfaces s (device_id p)).
  destruct (interfaces s (device_id p)) as [| q qs] eqn:Hifaces.
  - rewrite wp_bind, wp_perform. cbn [handle].
    destruct (decide (lookup_router s (device_id p) = None)) as [| Hthere];
      [by eexists |].
    assert (r ∈ device_id <$> l) as Hr'.
    { apply elem_of_cons in Hr as [-> | ?]; [| done].
      by apply lookup_router_None in Hgone. }
    cbn [fst snd and_then]. rewrite wp_perform. cbn [handle].
    destruct (decide (lookup_router _ (device_id p) = None)); [by eexists |].
    destruct (decide (Exists _ _)); [by eexists |].
    cbn [fst snd and_then]. apply IH; [done | |].
    + unfold has_router. simpl. rewrite has_router_filter. by intros [? _].
    + unfold interfaces. simpl. by rewrite !interfaces_without_gateway.
  - cbn [wp and_then]. apply IH; [| done | done].
    apply elem_of_cons in Hr as [-> | ?]; [congruence | done].
Qed.

(** So does a router without interfaces that two of the detached ports
    name: the first of them has it deleted. *)
Lemma collect_fails_on_second_turn (l1 : list Port) p1 (l2 : list Port) s :
  Forall is_router_interface (l1 ++ p1 :: l2) →
  device_id p1 ∈ device_id <$> l2 → interfaces s (device_id p1) = [] →
  wp (for_each (l1 ++ p1 :: l2) (λ p,
        let router_id := device_id p in
        other_router_ports ←
          perform (list_ports {| pf_network_id := None;
                                 pf_device_id := Some router_id;
                                 pf_device_owner := Some (device_owner p) |});
        match other_router_ports with
        | [] =>
            perform (remove_gateway_router router_id);;
            perform (delete_router router_id)
        | _ :: _ => Ret ()
        end))
     (λ res _, ∃ e, res = inl e) s.
Proof.
  revert s. induction l1 as [| q l1 IH]; intros s Hall Htwice Hnone.
  - apply Forall_cons in Hall as [Hif Hall]. simpl app.
    rewrite wp_for_each_cons. cbn zeta. rewrite wp_bind, wp_perform.
    cbn [handle fst snd and_then]. rewrite Hif, list_ports_of_router.
    fold (interfaces s (device_id p1)). rewrite Hnone.
    rewrite wp_bind, wp_perform. cbn [handle].
    destruct (decide (lookup_router s (device_id p1) = None)); [by eexists |].
    cbn [fst snd and_then]. rewrite wp_perform. cbn [handle].
    destruct (decide (lookup_router _ (device_id p1) = None)); [by eexists |].
    destruct (decide (Exists _ _)); [by eexists |].
    cbn [fst snd and_then].
    apply (collect_fails_without_router _ _ (device_id p1)); [done | done | |].
    + unfold has_router. simpl. rewrite has_router_filter. by intros [_ ?].
    + unfold interfaces. simpl. by rewrite !interfaces_without_gateway.
  - rewrite <-app_comm_cons in *. apply Forall_cons in Hall as [Hif Hall].
    rewrite wp_for_each_cons. cbn zeta. rewrite wp_bind, wp_perform.
    cbn [handle fst snd and_then]. rewrite Hif, list_ports_of_router.
    destruct (filter _ (ports s)) as [| ? ?].
    + rewrite wp_bind, wp_perform. cbn [handle].
      destruct (decide (lookup_router s (device_id q) = None)); [by eexists |].
      cbn [fst snd and_then]. rewrite wp_perform. cbn [handle].
      destruct (decide (lookup_router _ (device_id q) = None)); [by eexists |].
      destruct (decide (Exists _ _)); [by eexists |].
      cbn [fst snd and_then]. apply IH; [done | done |].
      unfold interfaces. simpl. by rewrite !interfaces_without_gateway.
    + cbn [wp and_then]. by apply IH.
Qed.

(** ** [network delete]: what a run does to the backing state *)

Lemma wp_select s segment network n (Q : exn + Network → Cloud → Prop) :
  target_network s segment network = Some n →
  Q (inr n) s →
  wp (match segment with
      | Some segment =>
          NetworkDeleteCommand._find_network
            {| nf_segmentation_id := Some segment; nf_name := None |}
      | None =>
          match network with
          | Some network => Raise (AttributeError "get_network")
          | None => Raise (ValueError "Missing either segment ID or network ID")
          end
      end) Q s.
Proof.
  unfold target_network. intros Htarget HQ.
  destruct segment as [seg |]; [| done].
  unfold NetworkDeleteCommand._find_network.
  rewrite wp_bind, wp_perform. cbn [handle fst snd and_then].
  destruct (filter _ (networks s)) as [| n' ?]; simplify_eq/=. done.
Qed.

Lemma teardown_effect s segment network n :
  target_network s segment network = Some n →
  wp (NetworkDeleteCommand.run segment network)
     (on_success (λ _ s',
        let detached := router_ports_on s n in
        Forall (λ p, has_router s (device_id p)) detached ∧
        (∀ r, interfaces s' r
              = filter (λ p, (port_id p ∉ port_id <$> detached) ∧
                             ¬ on_network n p) (interfaces s r)) ∧
        (∀ r, has_router s' r ↔
              has_router s r ∧
              ¬ (r ∈ device_id <$> detached ∧ interfaces s' r = [])) ∧
        ¬ has_network s' (net_id n) ∧ ¬ has_subnet_of s' (net_id n))) s.
Proof.
  intros Htarget. unfold NetworkDeleteCommand.run.
  rewrite wp_bind. apply (wp_select _ _ _ _ _ Htarget). cbn [and_then].
  rewrite wp_bind. unfold NetworkDeleteCommand._list_for_network.
  rewrite wp_perform. cbn [handle fst snd and_then].
  rewrite list_ports_on_network.
  destruct (decide (Exists _ _)) as [| _]; [done |]. cbn zeta.
  change (filter (λ p, device_owner p = "network:router_interface")
                 (filter (on_network n) (ports s)))
    with (router_ports_on s n).
  rewrite wp_bind. eapply wp_mono; [| apply detach_effect].
  intros [? | []] s1; [done |]. intros (Hp1 & Hn1 & Hs1 & Hr1 & Hall).
  cbn [and_then]. rewrite wp_bind, wp_perform. cbn [handle fst snd and_then].
  rewrite wp_bind. eapply wp_mono; [| apply delete_subnets_effect].
  intros [? | []] s2; [done |]. intros (Hp2 & Hr2 & Hn2).
  cbn [and_then]. rewrite wp_bind, wp_perform. cbn [handle].
  destruct (decide (lookup_network s2 (net_id n) = None)); [done |].
  destruct (decide (Exists _ (ports s2))); [done |]. cbn [fst snd and_then].
  eapply wp_mono; [| apply collect_effect].
  2: { apply Forall_forall. intros p Hp.
       by apply list_elem_of_filter in Hp as [? _]. }
  intros [? | []] s4; [done |]. intros (Hifs & Hrouters & Hn4 & Hs4).
  assert (∀ r, interfaces s4 r
               = filter (λ p, (port_id p ∉ port_id <$> router_ports_on s n) ∧
                              ¬ on_network n p) (interfaces s r)) as Hifs4.
  { intros r. rewrite Hifs. unfold interfaces. simpl. rewrite Hp2, Hp1.
    rewrite !list_filter_filter. apply list_filter_iff. intros p.
    unfold on_network. tauto. }
  simpl. split; [done |]. split; [done |]. split; [| split].
  - intros r. rewrite Hrouters, (Hifs r).
    unfold has_router. simpl. by rewrite Hr2, Hr1.
  - unfold has_network. rewrite Hn4. simpl.
    intros (m & [Hne _]%list_elem_of_filter & Hid)%Exists_exists. done.
  - unfold has_subnet_of. rewrite Hs4. simpl.
    intros (m & [Hne _]%list_elem_of_filter & Hid)%Exists_exists. done.
Qed.

(** A network with two router-interface ports of one router, which has no
    interface on another network, is never torn down without an error. *)
Lemma teardown_fails_on_second_turn s segment network n l1 p1 l2 :
  target_network s segment network = Some n →
  router_ports_on s n = l1 ++ p1 :: l2 →
  device_id p1 ∈ device_id <$> l2 →
  (∀ p, p ∈ interfaces s (device_id p1) → on_network n p) →
  wp (NetworkDeleteCommand.run segment network) (λ res _, ∃ e, res = inl e) s.
Proof.
  intros Htarget Hports Htwice Hon. unfold NetworkDeleteCommand.run.
  rewrite wp_bind. apply (wp_select _ _ _ _ _ Htarget). cbn [and_then].
  rewrite wp_bind. unfold NetworkDeleteCommand._list_for_network.
  rewrite wp_perform. cbn [handle fst snd and_then].
  rewrite list_ports_on_network.
  destruct (decide (Exists _ _)) as [| _]; [by eexists |]. cbn zeta.
  change (filter (λ p, device_owner p = "network:router_interface")
                 (filter (on_network n) (ports s)))
    with (router_ports_on s n).
  rewrite wp_bind. eapply wp_mono; [| apply detach_effect].
  intros [? | []] s1; [by eexists |]. intros (Hp1 & _ & _ & _ & _).
  cbn [and_then]. rewrite wp_bind, wp_perform. cbn [handle fst snd and_then].
  rewrite wp_bind. eapply wp_mono; [| apply delete_subnets_effect].
  intros [? | []] s2; [by eexists |]. intros (Hp2 & _ & _).
  cbn [and_then]. rewrite wp_bind, wp_perform. cbn [handle].
  destruct (decide (lookup_network s2 (net_id n) = None)); [by eexists |].
  destruct (decide (Exists _ (ports s2))); [by eexists |].
  cbn [fst snd and_then]. rewrite Hports.
  apply collect_fails_on_second_turn; [| done |].
  - rewrite <-Hports. apply Forall_forall. intros p Hp.
    by apply list_elem_of_filter in Hp as [? _].
  - unfold interfaces. simpl. rewrite Hp2, Hp1. apply filter_none.
    intros p [Hoff [_ Hp]%list_elem_of_filter]%list_elem_of_filter Hif.
    apply Hoff, Hon. by apply list_elem_of_filter.
Qed.


Lemma NoDup_fmap_eq {A B : Type} (f : A → B) (l : list A) x y :
  NoDup (f <$> l) → x ∈ l → y ∈ l → f x = f y → x = y.
Proof.
  induction l as [| z l IH]; [by intros _ ?%elem_of_nil |].
  rewrite fmap_cons, NoDup_cons. intros [Hfresh Hnodup].
  intros [-> | Hx]%elem_of_cons [-> | Hy]%elem_of_cons Heq; auto.
  - destruct Hfresh. rewrite Heq. by apply list_elem_of_fmap_2.
  - destruct Hfresh. rewrite <-Heq. by apply list_elem_of_fmap_2.
Qed.


(** C4: after a successful teardown, a router that one of the detached
    router-interface ports names is gone exactly when it has no
    router-interface port left.  So a router that also has an interface on
    another network keeps that interface and stays, and a router whose
    interfaces all were on the network torn down, as is the case when the
    last of its networks goes, is deleted. *)
Theorem router_deleted_iff_no_interface_left s segment network n :
  target_network s segment network = Some n →
  result (interp (NetworkDeleteCommand.run segment network) s) = inr () →
  let s' := final (interp (NetworkDeleteCommand.run segment network) s) in
  ∀ r, r ∈ device_id <$> router_ports_on s n →
    (¬ has_router s' r ↔ interfaces s' r = []) ∧
    (∀ p, NoDup (port_id <$> ports s) →
          p ∈ interfaces s r → ¬ on_network n p →
          p ∈ interfaces s' r ∧ has_router s' r) ∧
    ((∀ p, p ∈ interfaces s r → on_network n p) → ¬ has_router s' r).
Proof.
  intros Htarget Hok s' r Hr.
  pose proof (teardown_effect s segment network n Htarget) as Heffect.
  apply wp_interp in Heffect. rewrite Hok in Heffect. simpl in Heffect.
  fold s' in Heffect. destruct Heffect as (Hall & Hifs & Hrouters & _).
  assert (has_router s r) as Hhas.
  { apply list_elem_of_fmap in Hr as (p & -> & Hp).
    by apply (proj1 (Forall_forall _ _) Hall). }
  assert (¬ has_router s' r ↔ interfaces s' r = []) as Hiff.
  { rewrite Hrouters. split.
    - intros Hnot. destruct (interfaces s' r) as [| q qs]; [done |].
      destruct Hnot. split; [done |]. by intros [_ ?].
    - intros Hempty [_ Hnot]. by apply Hnot. }
  split; [done |]. split.
  - intros p Hnodup Hp Hoff.
    assert (p ∈ interfaces s' r) as Hp'.
    { rewrite Hifs. apply list_elem_of_filter. repeat split; try done.
      intros (q & Hid & Hq)%list_elem_of_fmap.
      apply list_elem_of_filter in Hq as [_ [Hqn Hq]%list_elem_of_filter].
      apply list_elem_of_filter in Hp as [_ Hpin].
      assert (p = q) as -> by (by eapply NoDup_fmap_eq). done. }
    split; [done |]. apply dec_stable. rewrite Hiff. intros Hempty.
    rewrite Hempty in Hp'. by apply elem_of_nil in Hp'.
  - intros Hon. apply Hiff. rewrite Hifs. apply filter_none.
    intros p Hp [_ Hoff]. by apply Hoff, Hon.
Qed.

(** ** [network delete]: when a teardown goes through *)

Lemma Exists_fmap_eq {A B : Type} (f : A → B) (l : list A) v :
  Exists (λ x, f x = v) l ↔ v ∈ f <$> l.
Proof.
  rewrite Exists_exists, list_elem_of_fmap. split; intros (x & ? & ?); eauto.
Qed.

Lemma NoDup_fmap_filter {A B : Type} (f : A → B) (P : A → Prop)
    `{∀ x, Decision (P x)} (l : list A) :
  NoDup (f <$> l) → NoDup (f <$> filter P l).
Proof.
  intros Hnodup. eapply sublist_NoDup; [exact Hnodup |].
  apply fmap_sublist, sublist_filter.
Qed.

Lemma router_port_on_elem s n p :
  p ∈ router_ports_on s n ↔ p ∈ ports s ∧ on_network n p ∧ is_router_interface p.
Proof. unfold router_ports_on. rewrite !list_elem_of_filter. tauto. Qed.

Lemma teardown_succeeds s segment network n :
  target_network s segment network = Some n →
  ¬ Exists (λ p, on_network n p ∧ is_compute p) (ports s) →
  tearable s n →
  wp (NetworkDeleteCommand.run segment network) (succeeds (λ _ _, True)) s.
Proof.
  intros Htarget Hquiet (Hpids & Hsids & Hfixed & Hkinds & Hrouters & Hone).
  rewrite Forall_forall in Hfixed. rewrite Forall_forall in Hkinds.
  rewrite Forall_forall in Hrouters.
  assert (∀ p, p ∈ ports s → on_network n p → ¬ auto_deleted p →
               port_id p ∈ port_id <$> router_ports_on s n) as Hdetached.
  { intros p Hp Hon Hkeep. apply list_elem_of_fmap_2, router_port_on_elem.
    destruct (Hkinds p Hp Hon); [done | tauto]. }
  unfold NetworkDeleteCommand.run.
  rewrite wp_bind. apply (wp_select _ _ _ _ _ Htarget). cbn [and_then].
  rewrite wp_bind. unfold NetworkDeleteCommand._list_for_network.
  rewrite wp_perform. cbn [handle fst snd and_then].
  rewrite list_ports_on_network. rewrite decide_False.
  2: { intros (p & [Hon Hp]%list_elem_of_filter & Hnova)%Exists_exists.
       apply Hquiet, Exists_exists. by exists p. }
  cbn zeta.
  change (filter (λ p, device_owner p = "network:router_interface")
                 (filter (on_network n) (ports s)))
    with (router_ports_on s n).
  rewrite wp_bind. eapply wp_mono.
  2: { apply wp_conj; [apply detach_succeeds | apply detach_effect].
       - unfold router_ports_on. by do 2 apply NoDup_fmap_filter.
       - apply Forall_forall. intros p Hp.
         pose proof (Hrouters p Hp). apply router_port_on_elem in Hp. tauto. }
  intros [? | []] s1; [by intros [[] _] |].
  intros [_ (Hp1 & Hn1 & Hs1 & Hr1 & _)].
  cbn [and_then]. rewrite wp_bind, wp_perform. cbn [handle fst snd and_then].
  assert (∀ p, p ∈ ports s1 → on_network n p → auto_deleted p) as Hleft.
  { intros p Hp Hon. apply dec_stable. intros Hkeep.
    rewrite Hp1 in Hp. apply list_elem_of_filter in Hp as [Hid Hp]. auto. }
  rewrite wp_bind. eapply wp_mono.
  2: { apply wp_conj; [apply delete_subnets_succeeds | apply delete_subnets_effect].
       - apply NoDup_fmap_filter. by rewrite Hs1.
       - apply Forall_forall. intros sn [Hnet Hsn]%list_elem_of_filter.
         split; [done |].
         intros (p & Hp & Hkeep & Hip)%Exists_exists. apply Hkeep.
         apply Hleft; [done |]. rewrite Hs1 in Hsn. rewrite Hp1 in Hp.
         apply list_elem_of_filter in Hp as [_ Hp].
         by eapply (proj1 (Forall_forall _ _) (Hfixed p Hp)). }
  intros [? | []] s2; [by intros [[] _] |]. intros [_ (Hp2 & Hr2 & Hn2)].
  cbn [and_then]. rewrite wp_bind, wp_perform. cbn [handle].
  rewrite decide_False.
  2: { rewrite lookup_network_None. intros Hno. apply Hno.
       unfold has_network. rewrite Exists_fmap_eq, Hn2, Hn1.
       apply list_elem_of_fmap_2. by eapply target_found. }
  rewrite decide_False.
  2: { intros (p & Hp & Hkeep & Hon)%Exists_exists. apply Hkeep.
       rewrite Hp2 in Hp. by apply Hleft. }
  cbn [fst snd and_then]. apply collect_succeeds; [done |].
  apply Forall_forall. intros p Hp. split.
  - by apply router_port_on_elem in Hp as (_ & _ & ?).
  - unfold has_router. simpl. rewrite Hr2, Hr1. by apply Hrouters.
Qed.

(** C5, as the code has it: a network selected by its segment ID, with no
    compute-instance port and whose backing state is well formed for its
    teardown ([tearable]), is torn down successfully, and afterwards the
    network, its subnets and every router whose router-interface ports all
    were on it are gone. *)
Theorem teardown_removes_network s segment network n :
  target_network s segment network = Some n →
  ¬ Exists (λ p, on_network n p ∧ is_compute p) (ports s) →
  tearable s n →
  let o := interp (NetworkDeleteCommand.run segment network) s in
  result o = inr () ∧
  ¬ has_network (final o) (net_id n) ∧
  ¬ has_subnet_of (final o) (net_id n) ∧
  ∀ r, interfaces s r ≠ [] → (∀ p, p ∈ interfaces s r → on_network n p) →
       ¬ has_router (final o) r.
Proof.
  intros Htarget Hquiet Hwf o.
  pose proof (teardown_succeeds s segment network n Htarget Hquiet Hwf) as Hok.
  apply wp_interp in Hok. fold o in Hok.
  destruct (result o) as [? | []] eqn:Hres; [done |]. clear Hok.
  pose proof (teardown_effect s segment network n Htarget) as Heffect.
  apply wp_interp in Heffect. fold o in Heffect. rewrite Hres in Heffect.
  simpl in Heffect. destruct Heffect as (_ & Hifs & Hrs & Hnet & Hsub).
  repeat split; try done.
  intros r Hsome Hon. rewrite Hrs. intros [_ Hnot]. apply Hnot. split.
  - assert (∃ p, p ∈ interfaces s r) as [p Hp].
    { destruct (interfaces s r) as [| p ps]; [done |]. exists p. by left. }
    pose proof (Hon p Hp) as Hpn.
    apply list_elem_of_filter in Hp as [[Hdev Hif] Hp].
    rewrite <-Hdev. by apply list_elem_of_fmap_2, router_port_on_elem.
  - rewrite Hifs. apply filter_none. intros p Hp [_ Hoff]. by apply Hoff, Hon.
Qed.

(** ** [network delete]: the claims on concrete backing states *)

Import Examples.

Lemma router_deleted_iff_no_interface_left_witness :
  let s1 := final (interp (NetworkDeleteCommand.run (Some "20") None) site_vlan) in
  let s2 := final (interp (NetworkDeleteCommand.run (Some "10") None) s1) in
  (iface2 ∈ interfaces s1 "r1" ∧ has_router s1 "r1") ∧ ¬ has_router s2 "r1".
Proof.
  intros s1 s2. split.
  - refine (proj1 (proj2 (router_deleted_iff_no_interface_left
              site_vlan (Some "20") None net1_vlan _ _ "r1" _)) iface2 _ _ _);
      [reflexivity | by vm_compute | by compute_done ..].
  - refine (proj2 (proj2 (router_deleted_iff_no_interface_left
              s1 (Some "10") None net2 _ _ "r1" _)) _);
      [reflexivity | by vm_compute | by compute_done |].
    intros p [-> | []%elem_of_nil]%elem_of_cons. reflexivity.
Defined.


(** C1, as the code has it: with neither selector, teardown raises
    ValueError("Missing either segment ID or network ID"), the spec's
    InputError, before any call and leaves the backing state alone.  With a
    segment ID the network ID is not looked at: the command is the one for
    the segment alone, and it starts by listing the networks of that
    segment. *)
Theorem teardown_selectors :
  (∀ s, interp (NetworkDeleteCommand.run None None) s
        = {| result := inl (ValueError "Missing either segment ID or network ID");
             final := s; trace := [] |}) ∧
  (∀ segment network,
     NetworkDeleteCommand.run (Some segment) network
     = NetworkDeleteCommand.run (Some segment) None) ∧
  (∀ segment network s, ∃ t,
     trace (interp (NetworkDeleteCommand.run (Some segment) network) s)
     = Event (list_networks {| nf_segmentation_id := Some segment;
                               nf_name := None |}) :: t).
Proof.
  split; [done |]. split; [done |].
  intros segment network s. unfold NetworkDeleteCommand.run. simpl.
  eexists. reflexivity.
Qed.

(** C1 fails when both selectors are given: the segment's network is torn
    down. *)
Lemma teardown_both_selectors_counterexample :
  let o := interp (NetworkDeleteCommand.run (Some "10") (Some "n1")) site in
  result o = inr () ∧
  Exists (λ e, is_api_call e = true) (trace o) ∧
  ¬ has_network (final o) "n2".
Proof.
  intros o. split; [by vm_compute |]. split; [| by compute_done].
  vm_compute. by left.
Qed.

Lemma teardown_removes_network_witness :
  let s1 := final (interp (NetworkDeleteCommand.run (Some "20") None) site_vlan) in
  let o := interp (NetworkDeleteCommand.run (Some "10") None) s1 in
  result o = inr () ∧
  ¬ has_network (final o) "n2" ∧
  ¬ has_subnet_of (final o) "n2" ∧
  ¬ has_router (final o) "r1".
Proof.
  intros s1 o.
  destruct (teardown_removes_network s1 (Some "10") None net2)
    as (Hok & Hnet & Hsub & Hrouter);
    [reflexivity | by compute_done | by compute_done |].
  repeat split; try done. apply Hrouter; [by compute_done |].
  intros p [-> | []%elem_of_nil]%elem_of_cons. reflexivity.
Defined.

(** C5 fails on the public network of [site]: none of its ports belongs to
    a compute instance, but its floating-IP and gateway ports keep the
    subnet in use, and the API refuses to delete it. *)
Lemma teardown_conflict_counterexample :
  target_network site (Some "30") None = Some public ∧
  ¬ Exists (λ p, on_network public p ∧ is_compute p) (ports site) ∧
  result (interp (NetworkDeleteCommand.run (Some "30") None) site)
    = inl (Conflict "psub").
Proof. split; [reflexivity |]. split; [by compute_done | by vm_compute]. Qed.

(** C10: the collection loop runs once for every detached port, not once
    for every router.  Whenever two of the router-interface ports of the
    network belong to one router that has no interface elsewhere, teardown
    ends with an error.  On [site_two_interfaces], where router r1 has two
    interfaces, both on network n1, the first turn deletes the router and
    the second asks the API to remove the gateway of the router that is
    gone: teardown ends with the API's NotFound, after the network has been
    deleted. *)
Theorem teardown_collects_router_twice :
  (∀ s segment network n l1 p1 l2,
     target_network s segment network = Some n →
     router_ports_on s n = l1 ++ p1 :: l2 →
     device_id p1 ∈ device_id <$> l2 →
     (∀ p, p ∈ interfaces s (device_id p1) → on_network n p) →
     ∃ e, result (interp (NetworkDeleteCommand.run segment network) s) = inl e) ∧
  let o := interp (NetworkDeleteCommand.run (Some "20") None) site_two_interfaces in
  target_network site_two_interfaces (Some "20") None = Some net1_two_subnets ∧
  router_ports_on site_two_interfaces net1_two_subnets = [iface1; iface1b] ∧
  interfaces site_two_interfaces "r1" = [iface1; iface1b] ∧
  result o = inl (NotFound "r1") ∧
  ¬ has_network (final o) "n1" ∧
  ¬ has_router (final o) "r1" ∧
  trace o =
    [ Event (list_networks {| nf_segmentation_id := Some "20";
                              nf_name := None |});
      Event (list_ports {| pf_network_id := Some "n1"; pf_device_id := None;
                           pf_device_owner := None |});
      Event (remove_interface_router "r1" "i1");
      Event (remove_interface_router "r1" "i1b");
      Event (list_subnets "n1");
      Event (delete_subnet "s1");
      Event (delete_subnet "s1b");
      Event (delete_network "n1");
      Event (list_ports {| pf_network_id := None; pf_device_id := Some "r1";
                           pf_device_owner := Some "network:router_interface" |});
      Event (remove_gateway_router "r1");
      Event (delete_router "r1");
      Event (list_ports {| pf_network_id := None; pf_device_id := Some "r1";
                           pf_device_owner := Some "network:router_interface" |});
      Event (remove_gateway_router "r1") ].
Proof.
  split.
  - intros s segment network n l1 p1 l2 Htarget Hports Htwice Hon.
    by apply (wp_interp _ (λ res _, ∃ e, res = inl e)),
      (teardown_fails_on_second_turn _ _ _ n l1 p1 l2).
  - intros o. do 4 (split; [by vm_compute |]).
    do 2 (split; [by compute_done |]). by vm_compute.
Qed.

Lemma teardown_collects_router_twice_witness :
  ∃ e, result (interp (NetworkDeleteCommand.run (Some "20") None)
                      site_two_interfaces) = inl e.
Proof.
  refine (proj1 teardown_collects_router_twice site_two_interfaces (Some "20")
            None net1_two_subnets [] iface1 [iface1b] _ _ _ _);
    [reflexivity | by vm_compute | by compute_done |].
  intros p [-> | [-> | []%elem_of_nil]%elem_of_cons]%elem_of_cons; reflexivity.
Defined.

(** ** [sorted]: a stable sort *)

Lemma StronglySorted_lookup {A : Type} (R : A → A → Prop) (l : list A) i j x y :
  StronglySorted R l → l !! i = Some x → l !! j = Some y → (i < j)%nat → R x y.
Proof.
  intros Hsorted. revert i j.
  induction Hsorted as [| a l _ IH Hall]; intros i j Hi Hj Hlt; [done |].
  destruct i as [| i], j as [| j]; simplify_eq/=; try lia.
  - rewrite Forall_forall in Hall. apply Hall. by eapply list_elem_of_lookup_2.
  - apply (IH i j); [done | done | lia].
Qed.

Section Sorted.
Context {A : Type} (key : A → Z).

Let le_key (x y : A) : Prop := key x ≤ key y.

Lemma insert_by_Permutation x l : insert_by key x l ≡ₚ x :: l.
Proof.
  induction l as [| y l IH]; simpl; [done |].
  destruct (key x <=? key y); [done |].
  rewrite IH. apply Permutation_swap.
Qed.

Lemma sorted_Permutation l : sorted key l ≡ₚ l.
Proof.
  induction l as [| x l IH]; simpl; [done |].
  by rewrite insert_by_Permutation, IH.
Qed.

Lemma insert_by_Sorted x l :
  Sorted le_key l → Sorted le_key (insert_by key x l).
Proof.
  induction 1 as [| y l Hsorted IH Hhd]; simpl.
  - by repeat constructor.
  - destruct (Z.leb_spec (key x) (key y)) as [Hle | Hlt].
    + repeat constructor; done.
    + constructor; [done |].
      destruct Hhd as [| z l Hyz]; simpl.
      * constructor. unfold le_key. lia.
      * destruct (key x <=? key z); constructor; unfold le_key in *; lia.
Qed.

Lemma sorted_Sorted l : Sorted le_key (sorted key l).
Proof.
  induction l as [| x l IH]; simpl; [constructor |].
  by apply insert_by_Sorted.
Qed.

Lemma sorted_StronglySorted l : StronglySorted le_key (sorted key l).
Proof.
  apply Sorted_StronglySorted; [| apply sorted_Sorted].
  intros x y z. unfold le_key. lia.
Qed.

(** Items with the same key keep their order. *)
Lemma insert_by_stable k x l :
  filter (λ y, key y = k) (insert_by key x l)
  = filter (λ y, key y = k) (x :: l).
Proof.
  induction l as [| y l IH]; simpl; [done |].
  destruct (Z.leb_spec (key x) (key y)) as [Hle | Hlt]; [done |].
  rewrite (filter_cons _ y), IH, !(filter_cons _ x), !(filter_cons _ y).
  repeat case_decide; try done. lia.
Qed.

Lemma sorted_stable k l :
  filter (λ y, key y = k) (sorted key l) = filter (λ y, key y = k) l.
Proof.
  induction l as [| x l IH]; simpl; [done |].
  by rewrite insert_by_stable, !(filter_cons _ x), IH.
Qed.

(** In the sorted list a smaller key comes first. *)
Lemma sorted_before l i j x y :
  sorted key l !! i = Some x → sorted key l !! j = Some y →
  key x < key y → (i < j)%nat.
Proof.
  intros Hi Hj Hlt. apply Nat.nle_gt. intros Hle.
  apply Nat.le_lteq in Hle as [Hji | ->]; [| simplify_eq; lia].
  pose proof (sorted_StronglySorted l) as Hsorted.
  pose proof (StronglySorted_lookup le_key _ j i y x Hsorted Hj Hi Hji) as Hyx.
  unfold le_key in Hyx. lia.
Qed.
End Sorted.

(** ** [network segments] *)

Lemma interp_bind {A B : Type} (m : prog A) (f : A → prog B) s :
  interp (m ≫= f) s
  = match result (interp m s) with
    | inl e => {| result := inl e; final := final (interp m s);
                  trace := trace (interp m s) |}
    | inr a =>
        let o := interp (f a) (final (interp m s)) in
        {| result := result o; final := final o;
           trace := trace (interp m s) ++ trace o |}
    end.
Proof.
  unfold mbind, prog_bind. revert s.
  induction m as [a | e | R c k IH]; intros s; simpl.
  - by destruct (interp (f a) s).
  - done.
  - destruct (handle c s) as [[e | r] s']; simpl; [done |].
    rewrite IH. by destruct (result (interp (k r) s')).
Qed.

Lemma interp_perform_bind {R B : Type} (c : call R) (f : R → prog B) s :
  interp (perform c ≫= f) s
  = match handle c s with
    | (inl e, s') => {| result := inl e; final := s'; trace := [Event c] |}
    | (inr r, s') =>
        let o := interp (f r) s' in
        {| result := result o; final := final o; trace := Event c :: trace o |}
    end.
Proof. done. Qed.

Lemma interp_lift_bind {A B : Type} (r : exn + A) (f : A → prog B) s :
  interp (lift r ≫= f) s
  = match r with
    | inl e => {| result := inl e; final := s; trace := [] |}
    | inr a => interp (f a) s
    end.
Proof. by destruct r. Qed.

Lemma interp_print_each {A : Type} (f : A → string) (rows : list A) s :
  interp (for_each rows (λ row, perform (print (f row)))) s
  = {| result := inr (); final := s;
       trace := (λ row, Event (print (f row))) <$> rows |}.
Proof.
  induction rows as [| row rows IH]; [done |].
  change (for_each (row :: rows) (λ row, perform (print (f row))))
    with (perform (print (f row)) ≫=
          λ _, for_each rows (λ row, perform (print (f row)))).
  rewrite interp_bind. simpl. by rewrite IH.
Qed.

(** *** Comprehensions that may raise *)

Lemma collect_fmap {A B : Type} (f : A → exn + B) (g : A → B) (l : list A) :
  (∀ x, x ∈ l → f x = inr (g x)) → collect f l = inr (g <$> l).
Proof.
  induction l as [| x l IH]; intros Hf; [done |]. simpl.
  rewrite (Hf x) by (by left). rewrite IH; [done |].
  intros y Hy. apply Hf. by right.
Qed.

Lemma collect_over_fmap {A B C : Type} (f : B → exn + C) (h : A → B)
    (l : list A) :
  collect f (h <$> l) = collect (λ x, f (h x)) l.
Proof. induction l as [| x l IH]; [done |]. csimpl. by rewrite IH. Qed.

(** The first item that raises decides. *)
Lemma collect_raises {A B : Type} (f : A → exn + B) (l : list A) :
  Exists (λ x, ∃ e, f x = inl e) l →
  ∃ x e, x ∈ l ∧ f x = inl e ∧ collect f l = inl e.
Proof.
  induction l as [| x l IH]; intros Hex; [by apply Exists_nil in Hex |].
  simpl. destruct (f x) as [e | y] eqn:Hx.
  - exists x, e. split; [by left | done].
  - apply Exists_cons in Hex as [[e He] | Hex]; [congruence |].
    destruct (IH Hex) as (x' & e & Hin & Hx' & ->).
    exists x', e. split; [by right | done].
Qed.

Lemma collect_len_cells (col : list string) :
  collect len (Some <$> col) = inr (String.length <$> col).
Proof. rewrite collect_over_fmap. by apply collect_fmap. Qed.

Lemma collect_len_None (col : list (option string)) :
  None ∈ col →
  collect len col = inl (TypeError "object of type 'NoneType' has no len()").
Proof.
  intros Hnone.
  destruct (collect_raises len col) as (x & e & _ & Hx & ->).
  { apply Exists_exists. exists None. split; [done | by eexists]. }
  destruct x; simpl in Hx; congruence.
Qed.

(** *** The rows, the widths and the lines of a report that can be shown *)

Lemma row_reportable (n : Network) :
  reportable n →
  NetworkSegmentStatusCommand.row n = inr (cells (report_row n)).
Proof.
  unfold reportable, NetworkSegmentStatusCommand.row, report_row.
  destruct (physical_network n) as [| | phys]; simpl;
    [by intros [[? ?] _] | by intros [[? ?] _] |].
  destruct (segmentation_id n) as [| | id]; simpl; by intros [_ ?].
Qed.

Lemma rows_of_reportable (nets : list Network) :
  Forall reportable nets →
  NetworkSegmentStatusCommand.rows_of nets
  = inr (cells <$> report_rows nets).
Proof.
  intros Hall. unfold NetworkSegmentStatusCommand.rows_of, report_rows.
  rewrite (collect_fmap _ (λ n, cells (report_row n))).
  - csimpl. by rewrite <-list_fmap_compose.
  - intros n Hn. apply row_reportable.
    rewrite sorted_Permutation in Hn.
    by apply (proj1 (Forall_forall _ _) Hall).
Qed.

Lemma foldr_min_le (k : nat) (l : list nat) : (foldr Nat.min k l ≤ k)%nat.
Proof. induction l as [| x l IH]; simpl; lia. Qed.

Lemma zip_star_nonempty {A : Type} (rows : list (list A)) (col : list A) :
  col ∈ zip_star rows → col ≠ [].
Proof.
  destruct rows as [| row rows]; [by intros ?%elem_of_nil |].
  unfold zip_star. intros (j & -> & Hj%elem_of_seq)%list_elem_of_fmap.
  pose proof (foldr_min_le (length row) (length <$> rows)).
  destruct (lookup_lt_is_Some_2 row j) as [x Hx]; [lia |].
  csimpl. by rewrite Hx.
Qed.

Lemma zip_star_cells (rows : list (list string)) :
  zip_star (cells <$> rows) = cells <$> zip_star rows.
Proof.
  destruct rows as [| row rows]; [done |].
  assert (∀ (j : nat) (l : list (list string)),
            omap (λ r : list (option string), r !! j) (cells <$> l)
            = cells (omap (λ r : list string, r !! j) l)) as Hcol.
  { intros j l. induction l as [| r l IH]; [done |]. csimpl.
    unfold cells at 1. rewrite list_lookup_fmap.
    destruct (r !! j); csimpl; by rewrite IH. }
  assert (length <$> (cells <$> rows) = length <$> rows) as Hlens.
  { rewrite <-list_fmap_compose. apply list_fmap_ext.
    intros ? r _. apply length_fmap. }
  unfold zip_star. rewrite fmap_cons.
  replace (length (cells row)) with (length row)
    by (symmetry; apply length_fmap).
  rewrite Hlens, <-list_fmap_compose. apply list_fmap_ext.
  intros ? j _. unfold compose. rewrite <-fmap_cons. apply Hcol.
Qed.

Lemma widths_of_cells (rows : list (list string)) :
  NetworkSegmentStatusCommand.widths_of (cells <$> rows)
  = inr (column_widths rows).
Proof.
  unfold NetworkSegmentStatusCommand.widths_of, column_widths.
  rewrite zip_star_cells, collect_over_fmap.
  apply collect_fmap. intros col Hcol%zip_star_nonempty.
  rewrite collect_len_cells. by destruct col.
Qed.

Lemma format_row_cells (widths : list nat) (row : list string) :
  NetworkSegmentStatusCommand.format_row widths (cells row)
  = inr (report_line widths row).
Proof.
  unfold NetworkSegmentStatusCommand.format_row, report_line.
  assert (collect NetworkSegmentStatusCommand.ljust_cell
            (zip (cells row) widths)
          = inr (zip_with ljust row widths)) as ->; [| done].
  revert widths. induction row as [| val row IH]; intros [| w widths];
    [done .. |].
  csimpl. by rewrite IH.
Qed.

Lemma interp_print_lines (widths : list nat) (rows : list (list string)) s :
  interp (for_each (cells <$> rows) (λ row,
            line ← lift (NetworkSegmentStatusCommand.format_row widths row);
            perform (print line))) s
  = {| result := inr (); final := s;
       trace := (λ row, Event (print (report_line widths row))) <$> rows |}.
Proof.
  revert s. induction rows as [| row rows IH]; intros s; [done |].
  rewrite fmap_cons.
  change (for_each (?x :: ?l) ?body) with (body x ≫= λ _, for_each l body).
  rewrite interp_bind, interp_lift_bind, format_row_cells.
  cbn [interp perform handle result final trace]. cbn zeta. by rewrite IH.
Qed.

(** What a run of the report is: the list of the networks, then either the
    error of the rows or of the widths, or the lines. *)
Lemma segments_run_rows_fail s e :
  NetworkSegmentStatusCommand.rows_of (networks s) = inl e →
  interp NetworkSegmentStatusCommand.run s
  = {| result := inl e; final := s;
       trace := [Event (list_networks no_network_filter)] |}.
Proof.
  intros Hrows. unfold NetworkSegmentStatusCommand.run.
  rewrite interp_perform_bind. cbn [handle]. rewrite list_all_networks.
  cbn zeta. by rewrite interp_lift_bind, Hrows.
Qed.

Lemma segments_run_widths_fail s rows e :
  NetworkSegmentStatusCommand.rows_of (networks s) = inr rows →
  NetworkSegmentStatusCommand.widths_of rows = inl e →
  interp NetworkSegmentStatusCommand.run s
  = {| result := inl e; final := s;
       trace := [Event (list_networks no_network_filter)] |}.
Proof.
  intros Hrows Hwidths. unfold NetworkSegmentStatusCommand.run.
  rewrite interp_perform_bind. cbn [handle]. rewrite list_all_networks.
  cbn zeta. by rewrite interp_lift_bind, Hrows, interp_lift_bind, Hwidths.
Qed.

Lemma segments_run s :
  Forall reportable (networks s) →
  let rows := report_rows (networks s) in
  interp NetworkSegmentStatusCommand.run s
  = {| result := inr (); final := s;
       trace :=
         Event (list_networks no_network_filter) ::
         ((λ row, Event (print (report_line (column_widths rows) row)))
          <$> rows) |}.
Proof.
  intros Hall rows. unfold NetworkSegmentStatusCommand.run.
  rewrite interp_perform_bind. cbn [handle]. rewrite list_all_networks.
  cbn zeta. rewrite interp_lift_bind, (rows_of_reportable _ Hall).
  rewrite interp_lift_bind, widths_of_cells, interp_print_lines. done.
Qed.

Lemma stdout_print_each {A : Type} (f : A → string) (rows : list A) :
  omap printed ((λ row, Event (print (f row))) <$> rows) = f <$> rows.
Proof. induction rows as [| row rows IH]; csimpl; [done | by rewrite IH]. Qed.

(** ** [network segments]: a network that the report cannot show *)

Lemma row_error (n : Network) e :
  NetworkSegmentStatusCommand.row n = inl e →
  ∃ key, key ∈ ["provider:physical_network"; "provider:segmentation_id"] ∧
         e = KeyError key.
Proof.
  unfold NetworkSegmentStatusCommand.row.
  destruct (physical_network n); simpl.
  - intros [= <-]. eexists. split; [| done]. by left.
  - destruct (segmentation_id n); simpl; [| done | done].
    intros [= <-]. eexists. split; [| done]. right. by left.
  - destruct (segmentation_id n); simpl; [| done | done].
    intros [= <-]. eexists. split; [| done]. right. by left.
Qed.

Lemma row_present (n : Network) :
  physical_network n ≠ Missing → segmentation_id n ≠ Missing →
  NetworkSegmentStatusCommand.row n
  = inr [get (physical_network n);
         Some (NetworkSegmentStatusCommand.str (get (segmentation_id n)));
         Some (net_name n); Some (net_project_id n)].
Proof.
  unfold NetworkSegmentStatusCommand.row.
  by destruct (physical_network n), (segmentation_id n).
Qed.

Lemma foldr_min_const (k : nat) (l : list nat) :
  Forall (λ x, x = k) l → foldr Nat.min k l = k.
Proof. induction 1 as [| x l -> _ IH]; simpl; [done | rewrite IH; lia]. Qed.

(** The columns of rows of four cells. *)
Lemma zip_star_four {A : Type} (row : list A) (rows : list (list A)) :
  Forall (λ r, length r = 4%nat) (row :: rows) →
  zip_star (row :: rows)
  = (λ j, omap (λ r : list A, r !! j) (row :: rows)) <$> [0; 1; 2; 3]%nat.
Proof.
  intros [Hrow Hrows]%Forall_cons. unfold zip_star.
  rewrite Hrow, foldr_min_const; [done |]. by apply Forall_fmap.
Qed.

(** C7: the report does not have a row for every network of every list.
    The row of a network reads both provider attributes with [n[...]], so a
    network that comes without one of them ends the run with KeyError,
    though the sort key reads the segmentation ID with [get] and a default.
    A network whose physical network is null (a tunnelled network) gets a
    row holding [None], and the widths, which take [len] of every cell, end
    the run with TypeError.  Either way the list of the networks was the
    only call and nothing was printed: no row for any network. *)
Theorem segments_report_raises :
  (∀ s,
     Exists (λ n, physical_network n = Missing ∨ segmentation_id n = Missing)
            (networks s) →
     ∃ key,
       key ∈ ["provider:physical_network"; "provider:segmentation_id"] ∧
       interp NetworkSegmentStatusCommand.run s
       = {| result := inl (KeyError key); final := s;
            trace := [Event (list_networks no_network_filter)] |}) ∧
  (∀ s,
     Forall (λ n, physical_network n ≠ Missing ∧ segmentation_id n ≠ Missing)
            (networks s) →
     Exists (λ n, physical_network n = Null) (networks s) →
     interp NetworkSegmentStatusCommand.run s
     = {| result := inl (TypeError "object of type 'NoneType' has no len()");
          final := s;
          trace := [Event (list_networks no_network_filter)] |}) ∧
  (let o := interp NetworkSegmentStatusCommand.run site_tunnel in
   result o = inl (TypeError "object of type 'NoneType' has no len()") ∧
   stdout o = []) ∧
  (let o := interp NetworkSegmentStatusCommand.run site_hidden in
   result o = inl (KeyError "provider:physical_network") ∧ stdout o = []).
Proof.
  split; [| split; [| split; by vm_compute]].
  - intros s Hmissing.
    destruct (collect_raises NetworkSegmentStatusCommand.row
                (sorted NetworkSegmentStatusCommand.sort_key (networks s)))
      as (n & e & _ & Hrow & Hcollect).
    { apply Exists_exists in Hmissing as (n & Hn & Hmiss).
      apply Exists_exists. exists n. split; [by rewrite sorted_Permutation |].
      unfold NetworkSegmentStatusCommand.row.
      destruct Hmiss as [-> | Hseg]; [by eexists |].
      destruct (physical_network n); simpl; rewrite ?Hseg; by eexists. }
    destruct (row_error n e Hrow) as (key & Hkey & ->).
    exists key. split; [done |]. apply segments_run_rows_fail.
    unfold NetworkSegmentStatusCommand.rows_of. by rewrite Hcollect.
  - intros s Hpresent Hnull.
    set (mk := λ n : Network,
           [get (physical_network n);
            Some (NetworkSegmentStatusCommand.str (get (segmentation_id n)));
            Some (net_name n); Some (net_project_id n)]).
    set (nets := sorted NetworkSegmentStatusCommand.sort_key (networks s)).
    assert (NetworkSegmentStatusCommand.rows_of (networks s)
            = inr (NetworkSegmentStatusCommand.header :: (mk <$> nets)))
      as Hrows.
    { unfold NetworkSegmentStatusCommand.rows_of. fold nets.
      rewrite (collect_fmap _ mk); [done |].
      intros n Hn. unfold nets in Hn. rewrite sorted_Permutation in Hn.
      destruct (proj1 (Forall_forall _ _) Hpresent n Hn).
      by apply row_present. }
    apply (segments_run_widths_fail s _ _ Hrows).
    unfold NetworkSegmentStatusCommand.widths_of.
    rewrite zip_star_four.
    2: { constructor; [done |]. by apply Forall_fmap, Forall_forall. }
    cbn [fmap list_fmap collect]. rewrite collect_len_None; [done |].
    apply Exists_exists in Hnull as (n & Hn & Hphys).
    apply list_elem_of_omap. exists (mk n). split.
    + right. apply list_elem_of_fmap_2. unfold nets.
      by rewrite sorted_Permutation.
    + unfold mk. by rewrite Hphys.
Qed.

Lemma segments_report_raises_witness :
  interp NetworkSegmentStatusCommand.run site_tunnel
  = {| result := inl (TypeError "object of type 'NoneType' has no len()");
       final := site_tunnel;
       trace := [Event (list_networks no_network_filter)] |}.
Proof.
  apply (proj1 (proj2 segments_report_raises) site_tunnel).
  - by compute_done.
  - by compute_done.
Defined.

(** ** [network segments]: the order of the rows *)

(** X14: when the report can show every network, it has one line for each
    after the header line, in ascending order of the sort key: the
    segmentation ID when there is one other than 0, and -1 otherwise;
    networks with equal keys keep the order of the client's list.  A network
    without a segmentation ID comes before every network with a positive one;
    when no ID is 0 (Neutron hands out none) this is the ascending order of
    the IDs with a missing one counted as -1, and networks with the IDs 30,
    None, 10 are listed in the order None, 10, 30. *)
Theorem segments_sorted_by_key s :
  Forall reportable (networks s) →
  let key := NetworkSegmentStatusCommand.sort_key in
  let nets := sorted key (networks s) in
  let rows := NetworkSegmentStatusCommand.header_text :: (report_row <$> nets) in
  let id_or_minus_one := λ n : Network, default (-1) (get (segmentation_id n)) in
  result (interp NetworkSegmentStatusCommand.run s) = inr () ∧
  stdout (interp NetworkSegmentStatusCommand.run s)
    = report_line (column_widths rows) <$> rows ∧
  nets ≡ₚ networks s ∧
  StronglySorted (λ x y, key x ≤ key y) nets ∧
  (∀ k, filter (λ x, key x = k) nets = filter (λ x, key x = k) (networks s)) ∧
  (∀ i j x y id, nets !! i = Some x → nets !! j = Some y →
     get (segmentation_id x) = None → get (segmentation_id y) = Some id →
     0 < id → (i < j)%nat) ∧
  (Forall (λ n, get (segmentation_id n) ≠ Some 0) (networks s) →
   StronglySorted (λ x y, id_or_minus_one x ≤ id_or_minus_one y) nets) ∧
  (∀ a b c, get (segmentation_id a) = Some 30 →
     get (segmentation_id b) = None → get (segmentation_id c) = Some 10 →
     networks s = [a; b; c] → nets = [b; c; a]).
Proof.
  intros Hall key nets rows id_or_minus_one.
  pose proof (segments_run s Hall) as Hrun. cbn zeta in Hrun.
  split; [by rewrite Hrun |]. split.
  { rewrite Hrun. unfold stdout. cbn [trace]. csimpl.
    by rewrite stdout_print_each. }
  split; [apply sorted_Permutation |].
  split; [apply sorted_StronglySorted |].
  split; [intros k; apply sorted_stable |].
  split; [| split].
  - intros i j x y id Hi Hj Hx Hy Hid. eapply (sorted_before key); [done.. |].
    unfold key, NetworkSegmentStatusCommand.sort_key. rewrite Hx, Hy.
    destruct (Z.eqb_spec id 0); lia.
  - intros Hnonzero.
    assert (∀ n, n ∈ nets → key n = id_or_minus_one n) as Hkey.
    { intros n Hn. unfold nets in Hn. rewrite sorted_Permutation in Hn.
      pose proof (proj1 (Forall_forall _ _) Hnonzero n Hn) as Hn0.
      cbn beta in Hn0.
      unfold key, id_or_minus_one, NetworkSegmentStatusCommand.sort_key.
      destruct (get (segmentation_id n)) as [id |]; [| done]. simpl.
      destruct (Z.eqb_spec id 0) as [-> | ?]; [by destruct Hn0 | done]. }
    pose proof (sorted_StronglySorted key (networks s)) as Hsorted.
    fold nets in Hsorted. clearbody nets.
    induction Hsorted as [| x l _ IH Hx]; [constructor |].
    constructor.
    + apply IH. intros n Hn. apply Hkey. by right.
    + apply Forall_forall. intros y Hy.
      pose proof (proj1 (Forall_forall _ _) Hx y Hy) as Hle. cbn beta in Hle.
      rewrite <-(Hkey x), <-(Hkey y); [done | by right | by left].
  - intros a b c Ha Hb Hc Hnets. unfold nets. rewrite Hnets.
    assert (key a = 30) as Hka
      by (unfold key, NetworkSegmentStatusCommand.sort_key; by rewrite Ha).
    assert (key b = -1) as Hkb
      by (unfold key, NetworkSegmentStatusCommand.sort_key; by rewrite Hb).
    assert (key c = 10) as Hkc
      by (unfold key, NetworkSegmentStatusCommand.sort_key; by rewrite Hc).
    cbn [sorted insert_by]. rewrite Hkb, Hkc. cbn [Z.leb Z.compare insert_by].
    by rewrite Hka, Hkb, Hkc.
Qed.

Lemma segments_sorted_by_key_witness :
  stdout (interp NetworkSegmentStatusCommand.run site)
    = ["physical_network  segmentation_id  name    project_id";
       "physnet1          None             one     p1        ";
       "physnet1          10               two     p2        ";
       "physnet1          30               public  admin     "] ∧
  sorted NetworkSegmentStatusCommand.sort_key [public; net1; net2]
    = [net1; net2; public].
Proof.
  destruct (segments_sorted_by_key site) as (_ & Hout & _ & _ & _ & _ & _ & Hex);
    [by compute_done |].
  split; [by rewrite Hout |]. by apply Hex.
Defined.
(** ** [ipaddress]: a summarized range expands to the range *)

Lemma int_range_app lo (a b : nat) :
  ipaddress.int_range lo (a + b)
  = ipaddress.int_range lo a ++ ipaddress.int_range (lo + Z.of_nat a) b.
Proof.
  unfold ipaddress.int_range. rewrite seq_app, fmap_app. f_equal.
  replace (0 + a)%nat with (a + 0)%nat by lia.
  rewrite <-(fmap_add_seq a 0 b), <-list_fmap_compose.
  apply list_fmap_ext. intros i. simpl. lia.
Qed.

Lemma elem_of_int_range lo count a :
  a ∈ ipaddress.int_range lo count ↔ lo ≤ a < lo + Z.of_nat count.
Proof.
  unfold ipaddress.int_range. rewrite list_elem_of_fmap. split.
  - intros (i & -> & Hi%elem_of_seq). lia.
  - intros Ha. exists (Z.to_nat (a - lo)). split; [lia |].
    apply elem_of_seq. lia.
Qed.

Lemma next_nbits_bounds first last :
  first ≤ last →
  0 ≤ ipaddress.next_nbits first last ∧
  2 ^ ipaddress.next_nbits first last ≤ last - first + 1.
Proof.
  intros Hle. unfold ipaddress.next_nbits.
  set (count := last - first + 1). assert (0 < count) as Hcount by (unfold count; lia).
  assert (ipaddress.bit_length count - 1 = Z.log2 count) as Hlog.
  { unfold ipaddress.bit_length. destruct (Z.eqb_spec count 0); [lia |].
    rewrite Z.abs_eq by lia. lia. }
  assert (0 ≤ ipaddress.count_righthand_zero_bits first ipaddress.max_prefixlen)
    as Hzeros.
  { unfold ipaddress.count_righthand_zero_bits, ipaddress.max_prefixlen,
      ipaddress.bit_length.
    destruct (first =? 0); [lia |].
    destruct (_ =? 0); [lia |].
    pose proof (Z.log2_nonneg (Z.abs (Z.land (Z.lnot first) (first - 1)))). lia. }
  pose proof (Z.log2_nonneg count) as Hlog0.
  rewrite Hlog. split; [lia |].
  etrans; [| apply (Z.log2_spec count Hcount)].
  apply Z.pow_le_mono_r; lia.
Qed.

Lemma network_addresses_block first nbits :
  0 ≤ nbits →
  ipaddress.network_addresses
    {| ipaddress.network_address := first;
       ipaddress.prefixlen := ipaddress.max_prefixlen - nbits |}
  = ipaddress.int_range first (Z.to_nat (2 ^ nbits)).
Proof.
  intros Hn. unfold ipaddress.network_addresses. simpl.
  replace (ipaddress.max_prefixlen - (ipaddress.max_prefixlen - nbits))
    with nbits by lia.
  by rewrite Z.shiftl_1_l.
Qed.

Lemma summarize_loop_addresses first last :
  last ≤ ipaddress.ALL_ONES →
  concat (ipaddress.network_addresses <$> ipaddress.summarize_loop first last)
  = ipaddress.int_range first (Z.to_nat (last - first + 1)).
Proof.
  apply (ipaddress.summarize_loop_elim
           (λ first last nets,
              last ≤ ipaddress.ALL_ONES →
              concat (ipaddress.network_addresses <$> nets)
              = ipaddress.int_range first (Z.to_nat (last - first + 1))));
    clear first last.
  - intros first last Hle IH _ Hmax. cbn zeta in *.
    destruct (next_nbits_bounds first last Hle) as [Hn Hsize].
    set (nbits := ipaddress.next_nbits first last) in *.
    rewrite Z.shiftl_1_l in *.
    assert (0 < 2 ^ nbits) as Hpos by (apply Z.pow_pos_nonneg; lia).
    destruct (Z.eqb_spec (first + 2 ^ nbits - 1) ipaddress.ALL_ONES) as [Hend | _].
    + csimpl. rewrite app_nil_r, network_addresses_block by done.
      f_equal. lia.
    + csimpl. rewrite IH, network_addresses_block by done.
      replace (Z.to_nat (last - first + 1))
        with (Z.to_nat (2 ^ nbits)
              + Z.to_nat (last - (first + 2 ^ nbits) + 1))%nat by lia.
      rewrite int_range_app. do 2 f_equal. lia.
  - intros first last Hgt _ _. simpl.
    by replace (Z.to_nat (last - first + 1)) with 0%nat by lia.
Qed.

(** ** [network ips]: the steps before the rows *)

Lemma wp_parse_addresses (fips : list FloatingIP) (acc : list Z) Q s :
  wp (for_fold (λ ips fip,
        ip ← NetworkPublicIPStatusCommand.IPv4Address (floating_ip_address fip);
        Ret (ips ++ [ip])) fips acc) Q s
  ↔ Q (match parse_addresses (floating_ip_address <$> fips) with
       | inl e => inl e
       | inr ips => inr (acc ++ ips)
       end) s.
Proof.
  revert acc. induction fips as [| fip fips IH]; intros acc.
  - simpl. by rewrite app_nil_r.
  - rewrite wp_for_fold_cons, wp_bind. csimpl.
    unfold NetworkPublicIPStatusCommand.IPv4Address.
    destruct (ipaddress.IPv4Address (floating_ip_address fip)) as [ip |];
      [| done].
    cbn [wp and_then]. rewrite IH.
    destruct (parse_addresses _) as [e | ips]; [done |].
    by rewrite <-app_assoc.
Qed.

Lemma wp_index_ports (l : list Port) (m : gmap string Port) Q s :
  wp (for_fold (λ (ports_by_ip : gmap string Port) p,
        match fixed_ips p with
        | [] => Raise IndexError
        | ip :: _ => Ret (<[ip_address ip := p]> ports_by_ip)
        end) l m) Q s
  ↔ Q (match index_from m l with
       | Some m' => inr m'
       | None => inl IndexError
       end) s.
Proof.
  revert m. induction l as [| p l IH]; intros m; [done |].
  rewrite wp_for_fold_cons. simpl. unfold first_address.
  destruct (fixed_ips p) as [| ip ips]; [done |].
  cbn [wp and_then]. by rewrite IH.
Qed.

Lemma wp_subnet_pools (ids : list string) (acc : list AllocationPool) Q s :
  wp (for_fold (λ pools subnet_id,
        subnet ← perform (show_subnet subnet_id);
        Ret (pools ++ allocation_pools subnet)) ids acc) Q s
  ↔ Q (match subnet_pools s ids with
       | inl e => inl e
       | inr pools => inr (acc ++ pools)
       end) s.
Proof.
  revert acc. induction ids as [| id ids IH]; intros acc.
  - simpl. by rewrite app_nil_r.
  - rewrite wp_for_fold_cons, wp_bind, wp_perform. cbn [handle subnet_pools].
    destruct (lookup_subnet s id) as [sn |]; [| done].
    cbn [fst snd and_then wp]. rewrite IH.
    destruct (subnet_pools s ids) as [e | pools]; [done |].
    by rewrite <-app_assoc.
Qed.

Lemma wp_public_allocation_pools Q s :
  wp NetworkPublicIPStatusCommand._public_allocation_pools Q s
  ↔ Q (public_pools s) s.
Proof.
  unfold NetworkPublicIPStatusCommand._public_allocation_pools, public_pools.
  rewrite wp_bind, wp_perform. cbn [handle fst snd and_then].
  rewrite (list_filter_iff _ (λ n, net_name n = "public")).
  2: { intros n. unfold network_matches. simpl. intuition congruence. }
  destruct (filter _ (networks s)) as [| public_net ?]; [done |].
  destruct (net_subnets public_net) as [| id ids] eqn:Hids; [done |].
  rewrite wp_subnet_pools. by destruct (subnet_pools s (id :: ids)).
Qed.

Lemma int_of_digits_nonneg s acc :
  ipaddress.all_digits s = true → 0 ≤ acc → 0 ≤ ipaddress.int_of_digits acc s.
Proof.
  revert acc. induction s as [| c s IH]; intros acc; simpl; [done |].
  intros [Hc Hs]%andb_true_iff Hacc. apply IH; [done |].
  unfold ipaddress.is_digit in Hc. apply andb_true_iff in Hc as [Hlo _].
  apply Nat.leb_le in Hlo. unfold ipaddress.digit_value. lia.
Qed.

Lemma parse_octet_range s o :
  ipaddress.parse_octet s = Some o → 0 ≤ o ≤ 255.
Proof.
  unfold ipaddress.parse_octet. destruct s as [| c rest]; [done |].
  destruct (ipaddress.all_digits (String c rest)) eqn:Hdigits; [| done].
  simpl negb. cbv iota.
  destruct (_ <? _)%nat; [done |].
  destruct (_ && _); [done |].
  destruct (Z.ltb_spec 255 (ipaddress.int_of_digits 0 (String c rest)));
    [done |].
  intros Heq.
  assert (o = ipaddress.int_of_digits 0 (String c rest)) as -> by congruence.
  split; [| exact H]. apply int_of_digits_nonneg; [done | lia].
Qed.

Lemma IPv4Address_range s a :
  ipaddress.IPv4Address s = Some a → 0 ≤ a ≤ ipaddress.ALL_ONES.
Proof.
  unfold ipaddress.IPv4Address, ipaddress.ALL_ONES.
  destruct (ipaddress.split_dot _ s) as [| o1 [| o2 [| o3 [| o4 [| ? ?]]]]];
    try done.
  destruct (ipaddress.parse_octet o1) as [a1 |] eqn:H1; [| done].
  destruct (ipaddress.parse_octet o2) as [a2 |] eqn:H2; [| done].
  destruct (ipaddress.parse_octet o3) as [a3 |] eqn:H3; [| done].
  destruct (ipaddress.parse_octet o4) as [a4 |] eqn:H4; [| done].
  apply parse_octet_range in H1, H2, H3, H4. intros [= <-]. lia.
Qed.

Lemma foldl_extend (all : list Z) (nets : list ipaddress.IPv4Network) :
  foldl (λ acc net, acc ++ ipaddress.network_addresses net) all nets
  = all ++ concat (ipaddress.network_addresses <$> nets).
Proof.
  revert all. induction nets as [| net nets IH]; intros all; csimpl.
  - by rewrite app_nil_r.
  - by rewrite IH, app_assoc.
Qed.

Lemma wp_extend_with_pools (all : list Z) (pools : list AllocationPool) Q s :
  wp (NetworkPublicIPStatusCommand.extend_with_pools all pools) Q s
  ↔ Q (match pools_bounds pools with
       | inl e => inl e
       | inr bounds => inr (candidate_addresses all bounds)
       end) s.
Proof.
  unfold NetworkPublicIPStatusCommand.extend_with_pools, candidate_addresses.
  revert all. induction pools as [| p pools IH]; intros all.
  - simpl. by rewrite app_nil_r.
  - rewrite wp_for_fold_cons, wp_bind. cbn [pools_bounds].
    unfold pool_bounds, NetworkPublicIPStatusCommand.IPv4Address.
    destruct (ipaddress.IPv4Address (pool_start p)) as [lo |]; [| done].
    cbn [wp and_then]. rewrite wp_bind.
    destruct (ipaddress.IPv4Address (pool_end p)) as [hi |] eqn:Hhi; [| done].
    cbn [wp and_then]. unfold ipaddress.summarize_address_range.
    destruct (hi <? lo); [done |].
    cbn [wp and_then]. rewrite IH.
    destruct (pools_bounds pools) as [e | bounds]; [done |].
    rewrite foldl_extend, summarize_loop_addresses
      by (by eapply IPv4Address_range).
    csimpl. by rewrite <-app_assoc.
Qed.

(** ** Addresses and their text *)

Lemma string_app_empty_r (s : string) : s +:+ String.EmptyString = s.
Proof.
  induction s as [| c s IH]; [done |].
  change (String c (s +:+ String.EmptyString) = String c s). by rewrite IH.
Qed.

Lemma string_app_assoc (a b c : string) : (a +:+ b) +:+ c = a +:+ b +:+ c.
Proof.
  induction a as [| x a IH]; [done |].
  change (String x ((a +:+ b) +:+ c) = String x (a +:+ b +:+ c)).
  by rewrite IH.
Qed.

Lemma string_rev_app (s acc : string) :
  String.rev_app s acc = String.rev s +:+ acc.
Proof.
  unfold String.rev. revert acc.
  induction s as [| c s IH]; intros acc; simpl; [done |].
  rewrite (IH (String c acc)), (IH (String c String.EmptyString)).
  by rewrite string_app_assoc.
Qed.

Lemma string_rev_app_rev (s acc acc' : string) :
  String.rev_app (String.rev_app s acc) acc' = String.rev_app acc (s +:+ acc').
Proof.
  revert acc. induction s as [| c s IH]; intros acc; simpl; [done |].
  by rewrite IH.
Qed.

Lemma string_rev_involutive (s : string) : String.rev (String.rev s) = s.
Proof.
  unfold String.rev. rewrite string_rev_app_rev. simpl.
  apply string_app_empty_r.
Qed.

Lemma split_dot_nonempty (cur s : string) : ipaddress.split_dot cur s ≠ [].
Proof.
  revert cur. induction s as [| c s IH]; intros cur; simpl; [done |].
  destruct (Ascii.eqb c "."); [done | apply IH].
Qed.

(** Joining the parts with dots gives the string back. *)
Lemma split_dot_join (cur s : string) :
  String.concat "." (ipaddress.split_dot cur s) = String.rev cur +:+ s.
Proof.
  revert cur. induction s as [| c s IH]; intros cur; simpl.
  { by rewrite string_app_empty_r. }
  destruct (Ascii.eqb_spec c ".") as [-> | Hc].
  - pose proof (split_dot_nonempty String.EmptyString s) as Hne.
    specialize (IH String.EmptyString).
    destruct (ipaddress.split_dot String.EmptyString s) as [| x l]; [done |].
    change (String.concat "." (String.rev cur :: x :: l))
      with (String.rev cur +:+ "." +:+ String.concat "." (x :: l)).
    by rewrite IH.
  - rewrite IH. unfold String.rev. simpl.
    rewrite (string_rev_app cur (String c String.EmptyString)).
    by rewrite string_app_assoc.
Qed.

Lemma is_digit_not_dot (c : ascii) :
  ipaddress.is_digit c = true → Ascii.eqb c "." = false.
Proof.
  intros Hc. destruct (Ascii.eqb_spec c ".") as [-> | ?]; [| done].
  by vm_compute in Hc.
Qed.

(** A run of digits is one part, up to the next dot or the end. *)
Lemma split_dot_digits (cur s : string) :
  ipaddress.all_digits s = true →
  ipaddress.split_dot cur s = [String.rev (String.rev_app s cur)] ∧
  ∀ rest, ipaddress.split_dot cur (s +:+ String "." rest)
          = String.rev (String.rev_app s cur)
            :: ipaddress.split_dot String.EmptyString rest.
Proof.
  revert cur. induction s as [| c s IH]; intros cur; simpl; [done |].
  intros [Hc Hs]%andb_true_iff. rewrite (is_digit_not_dot c Hc).
  apply IH, Hs.
Qed.

Lemma parse_octet_digits (s : string) (o : Z) :
  ipaddress.parse_octet s = Some o → ipaddress.all_digits s = true.
Proof.
  unfold ipaddress.parse_octet. destruct s as [| c rest]; [done |].
  by destruct (ipaddress.all_digits (String c rest)).
Qed.

(** The decimal text of an octet parses back to it. *)
Lemma parse_octet_pretty (o : Z) :
  0 ≤ o ≤ 255 → ipaddress.parse_octet (pretty o) = Some o.
Proof.
  intros Ho.
  assert (Forall (λ n : nat, ipaddress.parse_octet (pretty (Z.of_nat n))
                             = Some (Z.of_nat n)) (seq 0 256)) as Hall.
  { apply (bool_decide_unpack _). by vm_compute. }
  rewrite Forall_forall in Hall. specialize (Hall (Z.to_nat o)).
  rewrite Z2Nat.id in Hall by lia. apply Hall, elem_of_seq. lia.
Qed.

Lemma is_digit_cases (c : ascii) :
  ipaddress.is_digit c = true → c ∈ ascii_of_nat <$> seq 48 10.
Proof.
  intros Hc. unfold ipaddress.is_digit in Hc.
  apply andb_true_iff in Hc as [Hlo%Nat.leb_le Hhi%Nat.leb_le].
  apply list_elem_of_fmap. exists (nat_of_ascii c).
  split; [by rewrite ascii_nat_embedding | apply elem_of_seq; lia].
Qed.

(** An octet is written in one way only: the text that parses to it is its
    decimal text. *)
Lemma parse_octet_canonical (s : string) (o : Z) :
  ipaddress.parse_octet s = Some o → pretty o = s.
Proof.
  set (digits := ascii_of_nat <$> seq 48 10).
  set (ok := λ s : string,
         match ipaddress.parse_octet s with
         | Some o => bool_decide (pretty o = s)
         | None => true
         end = true).
  assert (Forall (λ a, ok (String a String.EmptyString)) digits) as H1.
  { apply (bool_decide_unpack _). by vm_compute. }
  assert (Forall (λ a, Forall (λ b,
            ok (String a (String b String.EmptyString))) digits) digits) as H2.
  { apply (bool_decide_unpack _). by vm_compute. }
  assert (Forall (λ a, Forall (λ b, Forall (λ c,
            ok (String a (String b (String c String.EmptyString))))
            digits) digits) digits) as H3.
  { apply (bool_decide_unpack _). by vm_compute. }
  intros Hs.
  assert (ok s) as Hok.
  { pose proof (parse_octet_digits s o Hs) as Hdigits.
    unfold ipaddress.parse_octet in Hs.
    destruct s as [| a [| b [| c [| d rest]]]]; [done | | | |].
    - simpl in Hdigits. apply andb_true_iff in Hdigits as [Ha _].
      rewrite Forall_forall in H1. by apply H1, is_digit_cases.
    - simpl in Hdigits.
      apply andb_true_iff in Hdigits as [Ha [Hb _]%andb_true_iff].
      rewrite Forall_forall in H2.
      specialize (H2 a (is_digit_cases a Ha)).
      rewrite Forall_forall in H2. by apply H2, is_digit_cases.
    - simpl in Hdigits.
      apply andb_true_iff in Hdigits
        as [Ha [Hb [Hc _]%andb_true_iff]%andb_true_iff].
      rewrite Forall_forall in H3.
      specialize (H3 a (is_digit_cases a Ha)).
      rewrite Forall_forall in H3.
      specialize (H3 b (is_digit_cases b Hb)).
      rewrite Forall_forall in H3. by apply H3, is_digit_cases.
    - rewrite Hdigits in Hs. by simpl in Hs. }
  unfold ok in Hok. rewrite Hs in Hok. by apply bool_decide_eq_true in Hok.
Qed.

(** [IPv4Address(str(a))] is [a], for every 32-bit address. *)
Lemma IPv4Address_str (a : Z) :
  0 ≤ a ≤ ipaddress.ALL_ONES →
  ipaddress.IPv4Address (ipaddress.str a) = Some a.
Proof.
  unfold ipaddress.ALL_ONES. intros Ha.
  assert (∀ o, 0 ≤ o ≤ 255 → ipaddress.all_digits (pretty o) = true) as Hdigits.
  { intros o Ho. eapply parse_octet_digits, parse_octet_pretty, Ho. }
  assert (∀ s, String.rev (String.rev_app s String.EmptyString) = s) as Hrev.
  { intros s. apply string_rev_involutive. }
  unfold ipaddress.IPv4Address, ipaddress.str.
  assert (0 ≤ (a / 16777216) `mod` 256 ≤ 255) as H1 by (Z.div_mod_to_equations; lia).
  assert (0 ≤ (a / 65536) `mod` 256 ≤ 255) as H2 by (Z.div_mod_to_equations; lia).
  assert (0 ≤ (a / 256) `mod` 256 ≤ 255) as H3 by (Z.div_mod_to_equations; lia).
  assert (0 ≤ a `mod` 256 ≤ 255) as H4 by (Z.div_mod_to_equations; lia).
  assert (∀ s rest, ipaddress.all_digits s = true →
            ipaddress.split_dot String.EmptyString (s +:+ "." +:+ rest)
            = s :: ipaddress.split_dot String.EmptyString rest) as Hpart.
  { intros s rest Hs. rewrite <-(Hrev s) at 2.
    exact (proj2 (split_dot_digits _ _ Hs) rest). }
  rewrite !Hpart by auto.
  rewrite (proj1 (split_dot_digits _ _ (Hdigits _ H4))), Hrev.
  rewrite !parse_octet_pretty by done. f_equal. Z.div_mod_to_equations. lia.
Qed.

(** An address is written in one way only: the text that [IPv4Address]
    accepts for it is [str] of it. *)
Lemma IPv4Address_canonical (s : string) (a : Z) :
  ipaddress.IPv4Address s = Some a → ipaddress.str a = s.
Proof.
  unfold ipaddress.IPv4Address.
  pose proof (split_dot_join String.EmptyString s) as Hjoin.
  destruct (ipaddress.split_dot _ s) as [| x1 [| x2 [| x3 [| x4 [| ? ?]]]]];
    try done.
  destruct (ipaddress.parse_octet x1) as [o1 |] eqn:H1; [| done].
  destruct (ipaddress.parse_octet x2) as [o2 |] eqn:H2; [| done].
  destruct (ipaddress.parse_octet x3) as [o3 |] eqn:H3; [| done].
  destruct (ipaddress.parse_octet x4) as [o4 |] eqn:H4; [| done].
  intros [= <-].
  pose proof (parse_octet_range _ _ H1). pose proof (parse_octet_range _ _ H2).
  pose proof (parse_octet_range _ _ H3). pose proof (parse_octet_range _ _ H4).
  apply parse_octet_canonical in H1, H2, H3, H4.
  change (x1 +:+ "." +:+ x2 +:+ "." +:+ x3 +:+ "." +:+ x4 = s) in Hjoin.
  rewrite <-Hjoin. unfold ipaddress.str.
  replace (((((o1 * 256 + o2) * 256 + o3) * 256 + o4) / 16777216) `mod` 256)
    with o1 by (Z.div_mod_to_equations; lia).
  replace (((((o1 * 256 + o2) * 256 + o3) * 256 + o4) / 65536) `mod` 256)
    with o2 by (Z.div_mod_to_equations; lia).
  replace (((((o1 * 256 + o2) * 256 + o3) * 256 + o4) / 256) `mod` 256)
    with o3 by (Z.div_mod_to_equations; lia).
  replace ((((o1 * 256 + o2) * 256 + o3) * 256 + o4) `mod` 256)
    with o4 by (Z.div_mod_to_equations; lia).
  by rewrite H1, H2, H3, H4.
Qed.

Lemma parse_addresses_range (l : list string) (ips : list Z) :
  parse_addresses l = inr ips →
  Forall (λ a, 0 ≤ a ≤ ipaddress.ALL_ONES) ips.
Proof.
  revert ips. induction l as [| x l IH]; intros ips; simpl.
  { intros [= <-]. constructor. }
  destruct (ipaddress.IPv4Address x) as [a |] eqn:Hx; [| done].
  destruct (parse_addresses l) as [? | ips']; [done |]. intros [= <-].
  constructor; [by eapply IPv4Address_range | by apply IH].
Qed.

Lemma pools_bounds_range (pools : list AllocationPool) bounds :
  pools_bounds pools = inr bounds →
  Forall (λ b, 0 ≤ b.1 ∧ b.2 ≤ ipaddress.ALL_ONES) bounds.
Proof.
  revert bounds. induction pools as [| p pools IH]; intros bounds; simpl.
  { intros [= <-]. constructor. }
  destruct (pool_bounds p) as [? | b] eqn:Hb; [done |].
  destruct (pools_bounds pools) as [? | bs]; [done |].
  intros [= <-]. constructor; [| by apply IH].
  unfold pool_bounds in Hb.
  destruct (ipaddress.IPv4Address (pool_start p)) as [lo |] eqn:Hlo; [| done].
  destruct (ipaddress.IPv4Address (pool_end p)) as [hi |] eqn:Hhi; [| done].
  destruct (hi <? lo); [done |]. injection Hb as <-. simpl.
  apply IPv4Address_range in Hlo, Hhi. lia.
Qed.

(** ** [network ips]: the rows *)

Lemma process_addresses s ports_by_ip reserved addrs routers rows0 :
  cache_of s routers →
  wp (for_fold (NetworkPublicIPStatusCommand.process_address ports_by_ip reserved)
               addrs (routers, rows0))
     (λ r s', s' = s ∧
        match r with
        | inl e => ∃ id, e = NotFound id
        | inr state =>
            ∃ new, state.2 = rows0 ++ new ∧
                   Forall2 (row_for s ports_by_ip reserved) addrs new
        end) s.
Proof.
  revert routers rows0.
  induction addrs as [| a addrs IH]; intros routers rows0 Hcache.
  - simpl. split; [done |]. exists []. by rewrite app_nil_r.
  - rewrite wp_for_fold_cons.
    unfold NetworkPublicIPStatusCommand.process_address at 1.
    assert (∀ routers' allocation_type project_id,
              cache_of s routers' →
              row_for s ports_by_ip reserved a
                [ipaddress.str a; allocation_type;
                 str_bool (bool_decide (a ∈ reserved)); project_id] →
              and_then
                (for_fold (NetworkPublicIPStatusCommand.process_address
                             ports_by_ip reserved) addrs)
                (λ r s', s' = s ∧
                   match r with
                   | inl e => ∃ id, e = NotFound id
                   | inr state =>
                       ∃ new, state.2 = rows0 ++ new ∧
                              Forall2 (row_for s ports_by_ip reserved)
                                      (a :: addrs) new
                   end)
                (inr (routers',
                      rows0 ++ [[ipaddress.str a; allocation_type;
                                 str_bool (bool_decide (a ∈ reserved));
                                 project_id]])) s) as Hnext.
    { intros routers' allocation_type project_id Hcache' Hrow. cbn [and_then].
      eapply wp_mono; [| by apply IH].
      intros [e | state] s'; [done |]. intros [-> (new & Hrows & Hall)].
      split; [done |]. eexists (_ :: new).
      split; [by rewrite Hrows, <-app_assoc | by constructor]. }
    rewrite wp_bind.
    destruct (ports_by_ip !! ipaddress.str a) as [port |] eqn:Hport.
    + destruct (decide (device_owner port = "network:router_gateway"))
        as [Hgw | Hfip].
      * rewrite wp_bind.
        destruct (routers !! device_id port) as [router |] eqn:Hcached.
        -- cbn [wp and_then]. apply Hnext; [done |].
           do 2 eexists. split; [done |]. rewrite Hport, decide_True by done.
           split; [done |]. exists router. split; [exact (Hcache _ _ Hcached) | done].
        -- rewrite wp_bind, wp_perform. cbn [handle].
           destruct (lookup_router s (device_id port)) as [router |] eqn:Hrouter.
           ++ cbn [fst snd wp and_then]. apply Hnext.
              ** intros id r. rewrite lookup_insert.
                 destruct (decide (device_id port = id)) as [<- | _];
                   [| apply (Hcache id r)].
                 by intros [= <-].
              ** do 2 eexists. split; [done |].
                 rewrite Hport, decide_True by done. eauto.
           ++ cbn [fst snd and_then]. split; [done |]. eauto.
      * cbn [wp and_then]. apply Hnext; [done |].
        do 2 eexists. split; [done |]. by rewrite Hport, decide_False.
    + cbn [wp and_then]. apply Hnext; [done |].
      do 2 eexists. split; [done |]. by rewrite Hport.
Qed.

Lemma run_rows_outcome s :
  wp NetworkPublicIPStatusCommand.run_rows
     (λ r s', s' = s ∧ audit_outcome s r) s.
Proof.
  unfold NetworkPublicIPStatusCommand.run_rows, audit_outcome,
    reserved_addresses, public_ports.
  rewrite wp_bind, wp_perform. cbn [handle fst snd and_then].
  rewrite wp_bind, wp_parse_addresses.
  destruct (parse_addresses _) as [e | reserved]; [done |].
  cbn [and_then app]. rewrite wp_bind, wp_perform. cbn [handle fst snd and_then].
  rewrite list_all_ports. cbn zeta.
  unfold NetworkPublicIPStatusCommand.index_ports.
  rewrite wp_bind, wp_index_ports.
  change (filter (λ p, device_owner p ∈ ["network:floatingip";
                                         "network:router_gateway"]) (ports s))
    with (filter is_public_port (ports s)).
  destruct (index_from ∅ _) as [ports_by_ip |]; [| done].
  cbn [and_then]. rewrite wp_bind, wp_public_allocation_pools.
  destruct (public_pools s) as [e | pools]; [done |].
  cbn [and_then]. rewrite wp_bind, wp_extend_with_pools.
  destruct (pools_bounds pools) as [e | bounds]; [done |].
  cbn [and_then]. cbn zeta. rewrite wp_bind, wp_perform.
  cbn [handle fst snd and_then]. rewrite wp_bind.
  eapply wp_mono; [| by apply process_addresses].
  intros [e | [routers rows]] s'; [done |].
  intros [-> (new & Hnew & Hrows)]. simpl in Hnew. by subst rows.
Qed.

(** The index of the kept ports. *)
Lemma index_from_None m l :
  index_from m l = None ↔ Exists (λ p, fixed_ips p = []) l.
Proof.
  revert m. induction l as [| p l IH]; intros m; simpl.
  - split; [done | by intros ?%Exists_nil].
  - rewrite Exists_cons. unfold first_address.
    destruct (fixed_ips p) as [| ip ips]; simpl.
    + split; [by left | done].
    + rewrite IH. split; [by right | by intros [? | ?]].
Qed.

Lemma index_from_untouched m l m' k :
  index_from m l = Some m' →
  Forall (λ q, first_address q ≠ Some k) l →
  m' !! k = m !! k.
Proof.
  revert m. induction l as [| p l IH]; intros m; simpl; [by intros [= ->] |].
  destruct (first_address p) as [a |] eqn:Ha; [| done].
  intros Hindex [Hp Hl]%Forall_cons. rewrite (IH _ Hindex Hl).
  apply lookup_insert_ne. congruence.
Qed.

Lemma index_from_app m l1 l2 :
  index_from m (l1 ++ l2) = index_from m l1 ≫= λ m1, index_from m1 l2.
Proof.
  revert m. induction l1 as [| p l1 IH]; intros m; simpl; [done |].
  destruct (first_address p); [apply IH | done].
Qed.

(** The last port at an address is the one the index holds. *)
Lemma index_from_last m l1 p l2 m' k :
  index_from m (l1 ++ p :: l2) = Some m' →
  first_address p = Some k →
  Forall (λ q, first_address q ≠ Some k) l2 →
  m' !! k = Some p.
Proof.
  rewrite index_from_app. destruct (index_from m l1) as [m1 |]; [| done].
  simpl. intros Hindex Hp Hl2. rewrite Hp in Hindex.
  rewrite (index_from_untouched _ _ _ _ Hindex Hl2). apply lookup_insert_eq.
Qed.

Lemma index_from_sound m l m' k p :
  index_from m l = Some m' → m' !! k = Some p →
  (p ∈ l ∧ first_address p = Some k) ∨ m !! k = Some p.
Proof.
  revert m. induction l as [| q l IH]; intros m; simpl.
  - intros [= ->]. by right.
  - destruct (first_address q) as [a |] eqn:Ha; [| done].
    intros Hindex Hk. destruct (IH _ Hindex Hk) as [[Hin Hp] | Hm].
    + left. split; [by right | done].
    + rewrite lookup_insert in Hm. case_decide as Heq.
      * left. simplify_eq. split; [by left | done].
      * by right.
Qed.

Lemma index_from_complete m l m' p :
  index_from m l = Some m' → p ∈ l →
  ∃ k q, first_address p = Some k ∧ m' !! k = Some q.
Proof.
  intros Hindex (l1 & l2 & ->)%list_elem_of_split.
  destruct (first_address p) as [k |] eqn:Hp.
  2: { assert (index_from m (l1 ++ p :: l2) = None) as Hnone.
       { apply index_from_None, Exists_app. right. left.
         unfold first_address in Hp. by destruct (fixed_ips p). }
       congruence. }
  exists k. rewrite index_from_app in Hindex.
  destruct (index_from m l1) as [m1 |]; [| done]. simpl in Hindex.
  rewrite Hp in Hindex. clear Hp.
  assert (∀ l (m0 : gmap string Port), is_Some (m0 !! k) →
            index_from m0 l = Some m' → is_Some (m' !! k)) as Hkeep.
  { clear. induction l as [| q l IH]; intros m0 Hsome; simpl.
    - by intros [= <-].
    - destruct (first_address q) as [a |]; [| done]. apply IH.
      rewrite lookup_insert. by case_decide. }
  destruct (Hkeep l2 _ (mk_is_Some _ _ (lookup_insert_eq m1 k p)) Hindex) as [q Hq].
  eauto.
Qed.

Lemma process_addresses_succeed s ports_by_ip reserved addrs routers rows0 :
  Forall (router_known s ports_by_ip) addrs →
  wp (for_fold (NetworkPublicIPStatusCommand.process_address ports_by_ip reserved)
               addrs (routers, rows0))
     (succeeds (λ _ s', s' = s)) s.
Proof.
  revert routers rows0.
  induction addrs as [| a addrs IH]; intros routers rows0 Hknown; [done |].
  apply Forall_cons in Hknown as [Ha Hknown].
  rewrite wp_for_fold_cons.
  unfold NetworkPublicIPStatusCommand.process_address at 1.
  rewrite wp_bind. unfold router_known in Ha.
  destruct (ports_by_ip !! ipaddress.str a) as [port |].
  - destruct (decide (device_owner port = "network:router_gateway"))
      as [Hgw | Hfip].
    + rewrite wp_bind.
      destruct (routers !! device_id port) as [router |].
      * cbn [wp and_then]. by apply IH.
      * rewrite wp_bind, wp_perform. cbn [handle].
        destruct (Ha Hgw) as [router ->].
        cbn [fst snd wp and_then]. by apply IH.
    + cbn [wp and_then]. by apply IH.
  - cbn [wp and_then]. by apply IH.
Qed.

Lemma run_rows_succeed s :
  auditable s →
  ∃ rows, result (interp NetworkPublicIPStatusCommand.run_rows s) = inr rows.
Proof.
  intros Hok.
  assert (wp NetworkPublicIPStatusCommand.run_rows (succeeds (λ _ _, True)) s)
    as Hwp.
  { unfold auditable, reserved_addresses, public_ports in Hok.
    unfold NetworkPublicIPStatusCommand.run_rows.
    rewrite wp_bind, wp_perform. cbn [handle fst snd and_then].
    rewrite wp_bind, wp_parse_addresses.
    destruct (parse_addresses _) as [e | reserved]; [done |].
    cbn [and_then app]. rewrite wp_bind, wp_perform.
    cbn [handle fst snd and_then]. rewrite list_all_ports. cbn zeta.
    unfold NetworkPublicIPStatusCommand.index_ports.
    rewrite wp_bind, wp_index_ports.
    change (filter (λ p, device_owner p ∈ ["network:floatingip";
                                           "network:router_gateway"]) (ports s))
      with (filter is_public_port (ports s)).
    destruct (index_from ∅ _) as [ports_by_ip |]; [| done].
    cbn [and_then]. rewrite wp_bind, wp_public_allocation_pools.
    destruct (public_pools s) as [e | pools]; [done |].
    cbn [and_then]. rewrite wp_bind, wp_extend_with_pools.
    destruct (pools_bounds pools) as [e | bounds]; [done |].
    cbn [and_then]. cbn zeta. rewrite wp_bind, wp_perform.
    cbn [handle fst snd and_then]. rewrite wp_bind.
    eapply wp_mono; [| apply process_addresses_succeed].
    - by intros [e | [routers rows]] s'.
    - apply Forall_forall. intros a Ha. rewrite Forall_forall in Hok.
      apply Hok. by rewrite <-(sorted_Permutation id). }
  apply wp_interp in Hwp.
  destruct (result (interp NetworkPublicIPStatusCommand.run_rows s)) as [| rows];
    [done | by exists rows].
Qed.

Lemma run_rows_result s :
  final (interp NetworkPublicIPStatusCommand.run_rows s) = s ∧
  audit_outcome s (result (interp NetworkPublicIPStatusCommand.run_rows s)).
Proof. apply (wp_interp _ (λ r s', s' = s ∧ audit_outcome s r)), run_rows_outcome. Qed.

(** What a successful audit read from the backing state. *)
Lemma run_rows_success s rows :
  result (interp NetworkPublicIPStatusCommand.run_rows s) = inr rows →
  ∃ reserved ports_by_ip pools bounds,
    reserved_addresses s = inr reserved ∧
    index_from ∅ (public_ports s) = Some ports_by_ip ∧
    public_pools s = inr pools ∧
    pools_bounds pools = inr bounds ∧
    Forall2 (row_for s ports_by_ip reserved)
            (sorted id (candidate_addresses reserved bounds)) rows.
Proof.
  intros Hrows. destruct (run_rows_result s) as [_ Hout].
  rewrite Hrows in Hout. unfold audit_outcome in Hout.
  destruct (reserved_addresses s) as [? | reserved]; [done |].
  destruct (index_from ∅ (public_ports s)) as [ports_by_ip |]; [| done].
  destruct (public_pools s) as [? | pools]; [done |].
  destruct (pools_bounds pools) as [? | bounds] eqn:Hbounds; [done |].
  exists reserved, ports_by_ip, pools, bounds. by repeat split.
Qed.

Lemma run_rows_auditable s :
  auditable s
  ↔ ∃ rows, result (interp NetworkPublicIPStatusCommand.run_rows s) = inr rows.
Proof.
  split; [apply run_rows_succeed |].
  intros (rows & (reserved & ports_by_ip & pools & bounds & Hres & Hindex
                  & Hpools & Hbounds & Hrows)%run_rows_success).
  unfold auditable. rewrite Hres, Hindex, Hpools, Hbounds.
  rewrite <-(sorted_Permutation id).
  apply Forall_forall. intros a Ha.
  apply list_elem_of_lookup in Ha as [i Ha].
  destruct (Forall2_lookup_l _ _ _ _ _ Hrows Ha)
    as (row & _ & (allocation_type & project_id & _ & Hrow)).
  unfold router_known. destruct (ports_by_ip !! ipaddress.str a) as [port |];
    [| done].
  intros Hgw. rewrite decide_True in Hrow by done.
  destruct Hrow as (_ & router & -> & _). done.
Qed.

Lemma rows_addresses s ports_by_ip reserved addrs rows :
  Forall2 (row_for s ports_by_ip reserved) addrs rows →
  head <$> rows = Some ∘ ipaddress.str <$> addrs.
Proof.
  induction 1 as [| a row addrs rows Hrow _ IH]; [done |].
  destruct Hrow as (? & ? & -> & _). csimpl. by rewrite IH.
Qed.

Lemma pools_bounds_ordered pools bounds :
  pools_bounds pools = inr bounds → Forall (λ b, b.1 ≤ b.2) bounds.
Proof.
  revert bounds. induction pools as [| p pools IH]; intros bounds; simpl.
  - intros [= <-]. constructor.
  - destruct (pool_bounds p) as [? | b] eqn:Hb; [done |].
    destruct (pools_bounds pools) as [? | bs]; [done |].
    intros [= <-]. constructor; [| by apply IH].
    unfold pool_bounds in Hb.
    destruct (ipaddress.IPv4Address (pool_start p)) as [lo |]; [| done].
    destruct (ipaddress.IPv4Address (pool_end p)) as [hi |]; [| done].
    destruct (Z.ltb_spec hi lo); [done |]. by simplify_eq/=.
Qed.

Lemma elem_of_concat {A : Type} (x : A) (ls : list (list A)) :
  x ∈ concat ls ↔ ∃ l, x ∈ l ∧ l ∈ ls.
Proof.
  induction ls as [| l ls IH]; simpl.
  - split; [by intros ?%elem_of_nil | by intros (? & _ & ?%elem_of_nil)].
  - rewrite elem_of_app, IH. split.
    + intros [Hx | (l' & Hx & Hl')]; [exists l | exists l'];
        (split; [done |]); [by left | by right].
    + intros (l' & Hx & [-> | Hl']%elem_of_cons); [by left | right; eauto].
Qed.

Lemma elem_of_candidate_addresses reserved bounds a :
  a ∈ candidate_addresses reserved bounds
  ↔ a ∈ reserved ∨ ∃ lo hi, (lo, hi) ∈ bounds ∧ lo ≤ a ≤ hi.
Proof.
  unfold candidate_addresses. rewrite elem_of_app, elem_of_concat.
  split; (intros [? | Hpool]; [by left | right]).
  - destruct Hpool as (l & Ha & ([lo hi] & -> & Hb)%list_elem_of_fmap).
    exists lo, hi. split; [done |].
    unfold pool_addresses in Ha. apply elem_of_int_range in Ha. simpl in Ha. lia.
  - destruct Hpool as (lo & hi & Hb & Ha). exists (pool_addresses (lo, hi)).
    split; [| by apply list_elem_of_fmap_2].
    unfold pool_addresses. apply elem_of_int_range. simpl. lia.
Qed.

(** C2, as the code has it: the rows of a successful audit are, in order,
    the rows of the sorted list of the reserved addresses followed by the
    addresses of every allocation pool of the public network from its start
    to its end, both included.  The rows are in ascending order of address,
    an address has a row exactly if it is reserved or lies in a pool, and it
    has as many rows as it occurs among the reserved addresses and in the
    pools: one when they hold it once. *)
Theorem audit_rows_cover_addresses s :
  (auditable s
   ↔ ∃ rows, result (interp NetworkPublicIPStatusCommand.run_rows s) = inr rows) ∧
  ∀ rows,
    result (interp NetworkPublicIPStatusCommand.run_rows s) = inr rows →
    ∃ reserved pools bounds addrs,
      reserved_addresses s = inr reserved ∧
      public_pools s = inr pools ∧
      pools_bounds pools = inr bounds ∧
      Forall (λ b, b.1 ≤ b.2) bounds ∧
      head <$> rows = Some ∘ ipaddress.str <$> addrs ∧
      StronglySorted Z.le addrs ∧
      addrs ≡ₚ candidate_addresses reserved bounds ∧
      (∀ a, a ∈ addrs
            ↔ a ∈ reserved ∨ ∃ lo hi, (lo, hi) ∈ bounds ∧ lo ≤ a ≤ hi) ∧
      (NoDup (candidate_addresses reserved bounds) → NoDup addrs).
Proof.
  split; [apply run_rows_auditable |].
  intros rows (reserved & ports_by_ip & pools & bounds & Hres & _ & Hpools
               & Hbounds & Hrows)%run_rows_success.
  exists reserved, pools, bounds, (sorted id (candidate_addresses reserved bounds)).
  repeat split; try done.
  - by eapply pools_bounds_ordered.
  - by eapply rows_addresses.
  - apply (sorted_StronglySorted id).
  - apply sorted_Permutation.
  - rewrite sorted_Permutation. apply elem_of_candidate_addresses.
  - rewrite sorted_Permutation. apply elem_of_candidate_addresses.
  - by rewrite sorted_Permutation.
Qed.

Lemma audit_rows_cover_addresses_witness :
  auditable site ∧
  ∃ rows addrs,
    result (interp NetworkPublicIPStatusCommand.run_rows site) = inr rows ∧
    head <$> rows = Some ∘ ipaddress.str <$> addrs ∧
    addrs ≡ₚ candidate_addresses [167772165] [(167772162, 167772164)].
Proof.
  assert (auditable site) as Hok by (by compute_done).
  split; [exact Hok |].
  destruct (audit_rows_cover_addresses site) as [Hiff Hcover].
  destruct (proj1 Hiff Hok) as [rows Hrows]. exists rows.
  destruct (Hcover rows Hrows)
    as (reserved & pools & bounds & addrs & Hres & Hpools & Hbounds & _ & Hhead
        & _ & Hperm & _).
  vm_compute in Hres. vm_compute in Hpools. simplify_eq.
  vm_compute in Hbounds. simplify_eq. by exists addrs.
Defined.

(** C2 fails when a reserved address lies inside a pool: 10.0.0.3 has two
    rows. *)
Lemma audit_duplicate_rows_counterexample :
  let rows := [["10.0.0.2"; "unallocated"; "False"; "none"];
               ["10.0.0.3"; "floating_ip"; "True"; "p1"];
               ["10.0.0.3"; "floating_ip"; "True"; "p1"];
               ["10.0.0.4"; "gateway"; "False"; "p1"]] in
  result (interp NetworkPublicIPStatusCommand.run_rows site_overlap) = inr rows ∧
  ¬ NoDup (head <$> rows) ∧
  reserved_addresses site_overlap = inr [167772163] ∧
  public_pools site_overlap
    = inr [ {| pool_start := "10.0.0.2"; pool_end := "10.0.0.4" |} ] ∧
  pools_bounds [ {| pool_start := "10.0.0.2"; pool_end := "10.0.0.4" |} ]
    = inr [(167772162, 167772164)].
Proof.
  intros rows. split; [by vm_compute |]. split; [by compute_done | by vm_compute].
Qed.

Lemma candidate_addresses_range reserved bounds :
  Forall (λ a, 0 ≤ a ≤ ipaddress.ALL_ONES) reserved →
  Forall (λ b : Z * Z, 0 ≤ b.1 ∧ b.2 ≤ ipaddress.ALL_ONES) bounds →
  Forall (λ a, 0 ≤ a ≤ ipaddress.ALL_ONES) (candidate_addresses reserved bounds).
Proof.
  intros Hres Hbounds. apply Forall_forall. intros a Ha.
  apply elem_of_candidate_addresses in Ha as [Ha | (lo & hi & Hb & Ha)].
  - by apply (proj1 (Forall_forall _ _) Hres).
  - pose proof (proj1 (Forall_forall _ _) Hbounds _ Hb) as Hrange.
    simpl in Hrange. lia.
Qed.

Lemma Forall2_impl_Forall_l {A B : Type} (P : A → Prop) (R R' : A → B → Prop)
    (l : list A) (k : list B) :
  Forall P l → Forall2 R l k → (∀ x y, P x → R x y → R' x y) → Forall2 R' l k.
Proof.
  intros HP HR Himpl. induction HR as [| x y l k Hxy _ IH]; [constructor |].
  apply Forall_cons in HP as [Hx Hl]. constructor; [by apply Himpl | by apply IH].
Qed.

(** C6: in a successful audit the rows are, one for one, those of the
    candidate addresses in ascending order, and the first cell of a row is
    the text of its address, which [IPv4Address] reads back.  The
    [reservable] field of a row is "True" exactly when its address is among
    the reserved ones.  When the index of the kept ports (the ports owned by
    a floating IP or a router gateway, by first fixed IP address) holds a
    port at the address, the row is a "gateway" row with the project of the
    port's router if the port is a router gateway, and a "floating_ip" row
    with the project of the port otherwise; when it holds none, the row is
    "unallocated" with the project "none". *)
Theorem audit_rows_classify_addresses s :
  (auditable s
   → ∃ rows, result (interp NetworkPublicIPStatusCommand.run_rows s) = inr rows) ∧
  ∀ rows,
    result (interp NetworkPublicIPStatusCommand.run_rows s) = inr rows →
    ∃ reserved ports_by_ip pools bounds,
      let addrs := sorted id (candidate_addresses reserved bounds) in
      reserved_addresses s = inr reserved ∧
      index_from ∅ (public_ports s) = Some ports_by_ip ∧
      public_pools s = inr pools ∧
      pools_bounds pools = inr bounds ∧
      (∀ k p, ports_by_ip !! k = Some p →
              p ∈ ports s ∧ is_public_port p ∧ first_address p = Some k) ∧
      (∀ p, p ∈ ports s → is_public_port p →
            ∃ k q, first_address p = Some k ∧ ports_by_ip !! k = Some q) ∧
      (∀ l1 p l2 k, public_ports s = l1 ++ p :: l2 →
                    first_address p = Some k →
                    Forall (λ q, first_address q ≠ Some k) l2 →
                    ports_by_ip !! k = Some p) ∧
      Forall (λ a, 0 ≤ a ≤ ipaddress.ALL_ONES) addrs ∧
      Forall2 (λ a row, ∃ cell, head row = Some cell ∧
                                ipaddress.IPv4Address cell = Some a)
              addrs rows ∧
      Forall2 (row_for s ports_by_ip reserved) addrs rows ∧
      (∀ i a row, addrs !! i = Some a → rows !! i = Some row →
                  (row !! 2%nat = Some "True" ↔ a ∈ reserved)).
Proof.
  split; [apply run_rows_succeed |].
  intros rows (reserved & ports_by_ip & pools & bounds & Hres & Hindex & Hpools
               & Hbounds & Hrows)%run_rows_success.
  exists reserved, ports_by_ip, pools, bounds. cbn zeta.
  assert (Forall (λ a, 0 ≤ a ≤ ipaddress.ALL_ONES)
            (sorted id (candidate_addresses reserved bounds))) as Hrange.
  { rewrite sorted_Permutation. apply candidate_addresses_range.
    - by eapply parse_addresses_range.
    - by eapply pools_bounds_range. }
  do 4 (split; [done |]).
  split; [| split; [| split; [| split; [done | split; [| split; [done |]]]]]].
  - intros k p Hk.
    destruct (index_from_sound _ _ _ _ _ Hindex Hk) as [[Hin Hp] | Hempty];
      [| by rewrite lookup_empty in Hempty].
    by apply list_elem_of_filter in Hin as [? ?].
  - intros p Hp Hkept. eapply index_from_complete; [done |].
    by apply list_elem_of_filter.
  - intros l1 p l2 k Hsplit Hp Hlast. rewrite Hsplit in Hindex.
    by eapply index_from_last.
  - eapply Forall2_impl_Forall_l; [exact Hrange | exact Hrows |].
    intros a row Ha (? & ? & -> & _). exists (ipaddress.str a).
    split; [done | by apply IPv4Address_str].
  - intros i a row Ha Hrow.
    destruct (Forall2_lookup_lr _ _ _ _ _ _ Hrows Ha Hrow)
      as (allocation_type & project_id & -> & _).
    simpl. unfold str_bool. case_bool_decide; split; (done || by intros [=]).
Qed.

Lemma audit_rows_classify_addresses_witness :
  let rows := [["10.0.0.2"; "unallocated"; "False"; "none"];
               ["10.0.0.3"; "floating_ip"; "False"; "p1"];
               ["10.0.0.4"; "gateway"; "False"; "p1"];
               ["10.0.0.5"; "unallocated"; "True"; "none"]] in
  auditable site ∧
  result (interp NetworkPublicIPStatusCommand.run_rows site) = inr rows ∧
  ∃ reserved ports_by_ip bounds,
    reserved_addresses site = inr reserved ∧
    index_from ∅ (public_ports site) = Some ports_by_ip ∧
    Forall2 (row_for site ports_by_ip reserved)
            (sorted id (candidate_addresses reserved bounds)) rows.
Proof.
  intros rows. split; [by compute_done |].
  assert (result (interp NetworkPublicIPStatusCommand.run_rows site) = inr rows)
    as Hrows by (by vm_compute).
  split; [exact Hrows |].
  destruct (proj2 (audit_rows_classify_addresses site) rows Hrows)
    as (reserved & ports_by_ip & pools & bounds & Hres & Hindex & _ & _ & _ & _
        & _ & _ & _ & Hfor & _).
  by exists reserved, ports_by_ip, bounds.
Defined.

Lemma parse_addresses_error l e :
  parse_addresses l = inl e → e ≠ IndexError.
Proof.
  induction l as [| a l IH]; simpl; [done |].
  destruct (ipaddress.IPv4Address a); [| by intros [= <-]].
  destruct (parse_addresses l); [| done]. intros [= <-]. by apply IH.
Qed.

Lemma subnet_pools_error s ids e :
  subnet_pools s ids = inl e → e ≠ IndexError.
Proof.
  induction ids as [| id ids IH]; simpl; [done |].
  destruct (lookup_subnet s id); [| by intros [= <-]].
  destruct (subnet_pools s ids); [| done]. intros [= <-]. by apply IH.
Qed.

Lemma public_pools_error s e : public_pools s = inl e → e ≠ IndexError.
Proof.
  unfold public_pools. destruct (filter _ _) as [| n ?]; [by intros [= <-] |].
  destruct (net_subnets n) as [| id ids]; [by intros [= <-] |].
  apply subnet_pools_error.
Qed.

Lemma pools_bounds_error pools e : pools_bounds pools = inl e → e ≠ IndexError.
Proof.
  induction pools as [| p pools IH]; simpl; [done |].
  destruct (pool_bounds p) as [e' | b] eqn:Hb.
  - intros [= <-]. unfold pool_bounds in Hb.
    destruct (ipaddress.IPv4Address (pool_start p)); [| by simplify_eq].
    destruct (ipaddress.IPv4Address (pool_end p)); [| by simplify_eq].
    destruct (_ <? _); by simplify_eq.
  - destruct (pools_bounds pools); [| done]. intros [= <-]. by apply IH.
Qed.

(** C9: the index takes the first fixed IP of every kept port without a
    check.  The audit ends with IndexError exactly when the reserved
    addresses were read and some port owned by a floating IP or router
    gateway has no fixed IP; [site_no_fixed_ip] is such a backing state. *)
Theorem audit_index_error :
  (∀ s, result (interp NetworkPublicIPStatusCommand.run_rows s) = inl IndexError
        ↔ (∃ reserved, reserved_addresses s = inr reserved) ∧
          ∃ p, p ∈ ports s ∧ is_public_port p ∧ fixed_ips p = []) ∧
  result (interp NetworkPublicIPStatusCommand.run_rows site_no_fixed_ip)
    = inl IndexError.
Proof.
  split; [| by vm_compute]. intros s.
  destruct (run_rows_result s) as [_ Hout]. unfold audit_outcome in Hout.
  destruct (reserved_addresses s) as [e | reserved] eqn:Hres.
  { rewrite Hout. apply parse_addresses_error in Hres.
    split; [by intros [= ->] | by intros [[? [=]] _]]. }
  destruct (index_from ∅ (public_ports s)) as [ports_by_ip |] eqn:Hindex.
  - split.
    + intros Herr. exfalso.
      destruct (public_pools s) as [e | pools] eqn:Hpools.
      { apply public_pools_error in Hpools. congruence. }
      destruct (pools_bounds pools) as [e | bounds] eqn:Hbounds.
      { apply pools_bounds_error in Hbounds. congruence. }
      rewrite Herr in Hout. by destruct Hout as [? ?].
    + intros [_ (p & Hp & Hkept & Hnone)].
      assert (index_from ∅ (public_ports s) = None) as Hno; [| congruence].
      apply index_from_None, Exists_exists. exists p.
      split; [by apply list_elem_of_filter | done].
  - split; [| done]. intros _. split; [by exists reserved |].
    apply index_from_None, Exists_exists in Hindex as (p & Hp & Hnone).
    apply list_elem_of_filter in Hp as [? ?]. by exists p.
Qed.

(** * Further properties of the commands *)

(** ** The calls of a run *)

(** A loop of single calls makes them in order, up to the first that
    fails. *)
Lemma interp_for_each_perform {A : Type} (c : A → call unit) (l : list A) s :
  let o := interp (for_each l (λ x, perform (c x))) s in
  trace o `prefix_of` ((λ x, Event (c x)) <$> l) ∧
  (result o = inr () → trace o = (λ x, Event (c x)) <$> l).
Proof.
  revert s. induction l as [| x l IH]; intros s.
  - simpl. split; [apply prefix_nil | done].
  - change (for_each (x :: l) (λ x, perform (c x)))
      with (perform (c x) ≫= λ _, for_each l (λ x, perform (c x))).
    rewrite interp_perform_bind. rewrite fmap_cons.
    destruct (handle (c x) s) as [[e | []] s']; simpl.
    + split; [| done]. apply prefix_cons, prefix_nil.
    + destruct (IH s') as [Hprefix Hall]. split.
      * by apply prefix_cons.
      * intros Hok. by rewrite Hall.
Qed.

Lemma trace_Forall_bind {A B : Type} (P : event → Prop) (m : prog A)
    (f : A → prog B) s :
  Forall P (trace (interp m s)) →
  (∀ a, result (interp m s) = inr a →
        Forall P (trace (interp (f a) (final (interp m s))))) →
  Forall P (trace (interp (m ≫= f) s)).
Proof.
  intros Hm Hf. rewrite interp_bind.
  destruct (result (interp m s)) as [e | a]; simpl; [done |].
  apply Forall_app. split; [done | by apply Hf].
Qed.

Lemma trace_Forall_for_each {A : Type} (P : event → Prop) (l : list A)
    (body : A → prog unit) s :
  (∀ x s', x ∈ l → Forall P (trace (interp (body x) s'))) →
  Forall P (trace (interp (for_each l body) s)).
Proof.
  revert s. induction l as [| x l IH]; intros s Hbody; [constructor |].
  change (for_each (x :: l) body) with (body x ≫= λ _, for_each l body).
  apply trace_Forall_bind.
  - apply Hbody. by left.
  - intros _ _. apply IH. intros y s' Hy. apply Hbody. by right.
Qed.

Lemma trace_Forall_for_fold {A S : Type} (P : event → Prop) (l : list A)
    (body : S → A → prog S) acc s :
  (∀ acc' x s', x ∈ l → Forall P (trace (interp (body acc' x) s'))) →
  Forall P (trace (interp (for_fold body l acc) s)).
Proof.
  revert acc s. induction l as [| x l IH]; intros acc s Hbody; [constructor |].
  change (for_fold body (x :: l) acc)
    with (body acc x ≫= λ acc', for_fold body l acc').
  apply trace_Forall_bind.
  - apply Hbody. by left.
  - intros acc' _. apply IH. intros acc'' y s' Hy. apply Hbody. by right.
Qed.

(** ** [network delete]: resolving the selectors *)

Lemma interp_select s segment network n :
  target_network s segment network = Some n →
  interp (match segment with
          | Some segment =>
              NetworkDeleteCommand._find_network
                {| nf_segmentation_id := Some segment; nf_name := None |}
          | None =>
              match network with
              | Some network => Raise (AttributeError "get_network")
              | None =>
                  Raise (ValueError "Missing either segment ID or network ID")
              end
          end) s
  = {| result := inr n; final := s; trace := select_event segment network |}.
Proof.
  unfold target_network, select_event. intros Htarget.
  destruct segment as [seg |]; [| done].
  unfold NetworkDeleteCommand._find_network. rewrite interp_perform_bind.
  simpl. destruct (filter _ (networks s)) as [| n' ?]; by simplify_eq/=.
Qed.

(** X1: when the selectors resolve to no network, teardown fails on the
    spot and leaves the backing state as it was.  For a segment that no
    network carries it raises ValueError("Could not find network for ...")
    with the keyword dictionary as Python prints it, the segment between the
    quotes that [repr] picks, after the one call that lists the networks of
    the segment; a network ID given beside the segment is not looked at.
    With a network ID alone it raises AttributeError before any call, for
    every ID and every backing state: the client has no [get_network].  With
    neither it raises ValueError("Missing either segment ID or network ID")
    before any call. *)
Theorem teardown_unresolved s segment network :
  target_network s segment network = None →
  interp (NetworkDeleteCommand.run segment network) s
  = {| result :=
         inl (match segment, network with
              | Some segment, _ =>
                  ValueError ("Could not find network for "
                              +:+ "{'provider:segmentation_id': "
                              +:+ repr_str segment +:+ "}")
              | None, Some network => AttributeError "get_network"
              | None, None =>
                  ValueError "Missing either segment ID or network ID"
              end);
       final := s;
       trace := select_event segment network |}.
Proof.
  unfold target_network, select_event, NetworkDeleteCommand.run.
  intros Htarget. rewrite interp_bind.
  destruct segment as [seg |]; [| by destruct network].
  unfold NetworkDeleteCommand._find_network. rewrite interp_perform_bind.
  simpl. apply head_None in Htarget. by rewrite Htarget.
Qed.

Lemma teardown_unresolved_witness :
  interp (NetworkDeleteCommand.run (Some "it's") (Some "n1")) site
  = {| result :=
         inl (ValueError
                (String.append
                   "Could not find network for {'provider:segmentation_id': "
                   (String.String double_quote
                      (String.append "it's"
                         (String.String double_quote "}")))));
       final := site;
       trace := [Event (list_networks {| nf_segmentation_id := Some "it's";
                                         nf_name := None |})] |} ∧
  interp (NetworkDeleteCommand.run None (Some "n1")) site
  = {| result := inl (AttributeError "get_network"); final := site;
       trace := [] |}.
Proof.
  split.
  - exact (teardown_unresolved site (Some "it's") (Some "n1") eq_refl).
  - exact (teardown_unresolved site None (Some "n1") eq_refl).
Defined.

(** ** [network delete]: the order and the reach of the calls *)

Lemma interp_perform {R : Type} (c : call R) s :
  trace (interp (perform c) s) = [Event c].
Proof. simpl. by destruct (handle c s) as [[e | r] s']. Qed.

(** One turn of the collection loop: the calls it makes, and that it
    leaves every router's interfaces as they were. *)
Lemma interp_collect_one (p : Port) s0 :
  is_router_interface p →
  let o := interp (let router_id := device_id p in
                   other_router_ports ←
                     perform (list_ports
                                {| pf_network_id := None;
                                   pf_device_id := Some router_id;
                                   pf_device_owner := Some (device_owner p) |});
                   match other_router_ports with
                   | [] =>
                       perform (remove_gateway_router router_id);;
                       perform (delete_router router_id)
                   | _ :: _ => Ret ()
                   end) s0 in
  let calls :=
    Event (list_ports {| pf_network_id := None;
                         pf_device_id := Some (device_id p);
                         pf_device_owner := Some (device_owner p) |}) ::
    match interfaces s0 (device_id p) with
    | [] => [Event (remove_gateway_router (device_id p));
             Event (delete_router (device_id p))]
    | _ :: _ => []
    end in
  trace o `prefix_of` calls ∧
  (result o = inr () →
   trace o = calls ∧ ∀ r, interfaces (final o) r = interfaces s0 r).
Proof.
  intros Hif. cbn zeta. rewrite interp_perform_bind. cbn [handle]. cbn zeta.
  rewrite Hif, list_ports_of_router. fold (interfaces s0 (device_id p)).
  destruct (interfaces s0 (device_id p)) as [| q qs]; [| done].
  rewrite interp_perform_bind. cbn [handle].
  destruct (decide (lookup_router s0 (device_id p) = None)).
  { cbn [result final trace]. split; [| done].
    apply prefix_cons, prefix_cons, prefix_nil. }
  cbn zeta. cbn [interp perform handle].
  destruct (decide (lookup_router _ (device_id p) = None)); [done |].
  destruct (decide (Exists _ _)); [done |].
  cbn [result final trace]. split; [done |]. intros _. split; [done |].
  intros r. unfold interfaces. simpl. by rewrite !interfaces_without_gateway.
Qed.

(** The collection loop makes the calls of its turns in order, up to the
    first that fails. *)
Lemma interp_collect (l : list Port) s0 :
  Forall is_router_interface l →
  let o := interp (for_each l (λ p,
             let router_id := device_id p in
             other_router_ports ←
               perform (list_ports
                          {| pf_network_id := None;
                             pf_device_id := Some router_id;
                             pf_device_owner := Some (device_owner p) |});
             match other_router_ports with
             | [] =>
                 perform (remove_gateway_router router_id);;
                 perform (delete_router router_id)
             | _ :: _ => Ret ()
             end)) s0 in
  let calls :=
    l ≫= λ p,
      Event (list_ports {| pf_network_id := None;
                           pf_device_id := Some (device_id p);
                           pf_device_owner := Some (device_owner p) |}) ::
      match interfaces s0 (device_id p) with
      | [] => [Event (remove_gateway_router (device_id p));
               Event (delete_router (device_id p))]
      | _ :: _ => []
      end in
  trace o `prefix_of` calls ∧ (result o = inr () → trace o = calls).
Proof.
  intros Hall. revert s0. induction Hall as [| p l Hif _ IH]; intros s0.
  { simpl. split; [apply prefix_nil | done]. }
  cbn zeta. rewrite bind_cons.
  match goal with |- context [for_each (p :: l) ?body] =>
    change (for_each (p :: l) body) with (body p ≫= λ _, for_each l body)
  end.
  rewrite interp_bind. cbn beta.
  destruct (interp_collect_one p s0 Hif) as [Hpre Hok]. cbn zeta in Hpre, Hok.
  match type of Hok with result ?o1 = _ → _ =>
    destruct (result o1) as [e | []] eqn:Hres
  end.
  { cbn [result final trace]. split; [| done]. by apply prefix_app_r. }
  destruct (Hok eq_refl) as [-> Hsame]. cbn zeta. cbn [result final trace].
  match goal with |- context [interp (for_each l _) ?s1] =>
    destruct (IH s1) as [Hpre' Hok']
  end.
  cbn zeta in Hpre', Hok'.
  assert (∀ s1, (∀ r, interfaces s1 r = interfaces s0 r) →
            (l ≫= λ p,
               Event (list_ports {| pf_network_id := None;
                                    pf_device_id := Some (device_id p);
                                    pf_device_owner := Some (device_owner p) |}) ::
               match interfaces s1 (device_id p) with
               | [] => [Event (remove_gateway_router (device_id p));
                        Event (delete_router (device_id p))]
               | _ :: _ => []
               end)
            = (l ≫= λ p,
               Event (list_ports {| pf_network_id := None;
                                    pf_device_id := Some (device_id p);
                                    pf_device_owner := Some (device_owner p) |}) ::
               match interfaces s0 (device_id p) with
               | [] => [Event (remove_gateway_router (device_id p));
                        Event (delete_router (device_id p))]
               | _ :: _ => []
               end)) as Hcalls.
  { intros s1 Hs1. clear -Hs1. induction l as [| q l IHl]; [done |].
    by rewrite !bind_cons, IHl, Hs1. }
  rewrite (Hcalls _ Hsame) in Hpre', Hok'. split.
  - by apply prefix_app.
  - intros Hdone. by rewrite (Hok' Hdone).
Qed.

(** The calls of a teardown: a prefix of the plan, and all of it when the
    run succeeds. *)
Lemma teardown_trace_shape s segment network n :
  target_network s segment network = Some n →
  let o := interp (NetworkDeleteCommand.run segment network) s in
  let plan := teardown_plan s segment network n ++ collect_plan s n in
  trace o `prefix_of` plan ∧ (result o = inr () → trace o = plan).
Proof.
  intros Htarget o plan. subst o plan.
  unfold NetworkDeleteCommand.run, teardown_plan.
  rewrite interp_bind, (interp_select _ _ _ _ Htarget).
  cbn beta iota zeta. cbn [result final trace].
  rewrite <-!app_assoc.
  unfold NetworkDeleteCommand._list_for_network. cbn beta iota zeta.
  rewrite interp_perform_bind. cbn [handle]. cbn zeta.
  rewrite list_ports_on_network.
  destruct (decide (Exists _ _)) as [| _].
  { simpl. split; [| done]. apply prefix_app, prefix_cons, prefix_nil. }
  change (filter (λ p, device_owner p = "network:router_interface")
                 (filter (on_network n) (ports s)))
    with (router_ports_on s n).
  rewrite interp_bind.
  destruct (interp_for_each_perform
              (λ p, remove_interface_router (device_id p) (port_id p))
              (router_ports_on s n) s) as [Hpre1 Hall1].
  pose proof (proj1 (wp_interp _ _ _) (detach_effect (router_ports_on s n) s))
    as Heffect1.
  destruct (result (interp (for_each (router_ports_on s n) _) s))
    as [e1 | []] eqn:Hr1.
  { cbn [result final trace]. split; [| done].
    apply prefix_app, prefix_cons, prefix_app_r, Hpre1. }
  rewrite (Hall1 eq_refl). clear Hpre1 Hall1.
  simpl in Heffect1. destruct Heffect1 as (Hports1 & _ & Hsubnets & _).
  rewrite interp_perform_bind. cbn [handle]. cbn zeta. rewrite Hsubnets.
  fold (subnets_on s n). rewrite interp_bind.
  destruct (interp_for_each_perform (λ sn, delete_subnet (subnet_id sn))
              (subnets_on s n)
              (final (interp (for_each (router_ports_on s n) (λ p,
                 perform (remove_interface_router (device_id p) (port_id p))))
                 s))) as [Hpre2 Hall2].
  pose proof (proj1 (wp_interp _ _ _)
                (delete_subnets_effect (subnets_on s n)
                   (final (interp (for_each (router_ports_on s n) (λ p,
                      perform (remove_interface_router (device_id p)
                                                       (port_id p)))) s))))
    as Heffect2.
  destruct (result (interp (for_each (subnets_on s n) _) _))
    as [e2 | []] eqn:Hr2.
  { cbn [result final trace]. split; [| done].
    apply prefix_app, prefix_cons, prefix_app, prefix_cons, prefix_app_r, Hpre2. }
  rewrite (Hall2 eq_refl). clear Hpre2 Hall2.
  simpl in Heffect2. destruct Heffect2 as (Hports2 & _ & _).
  rewrite interp_perform_bind. cbn [handle].
  match goal with |- context [decide (lookup_network ?s2 (net_id n) = None)] =>
    destruct (decide (lookup_network s2 (net_id n) = None))
  end.
  { cbn [result final trace]. split; [| done].
    apply prefix_app, prefix_cons, prefix_app, prefix_cons, prefix_app,
          prefix_cons, prefix_nil. }
  match goal with |- context [decide (Exists ?P ?l)] =>
    destruct (decide (Exists P l))
  end.
  { cbn [result final trace]. split; [| done].
    apply prefix_app, prefix_cons, prefix_app, prefix_cons, prefix_app,
          prefix_cons, prefix_nil. }
  cbn zeta. cbn [result final trace].
  match goal with
  | |- context [interp (for_each (router_ports_on s n) ?body) ?s3] =>
      pose proof (interp_collect (router_ports_on s n) s3) as Hcollect;
      assert (∀ r, interfaces s3 r = kept_interfaces s n r) as Hifs;
      [| assert ((router_ports_on s n ≫= λ p,
             Event (list_ports {| pf_network_id := None;
                                  pf_device_id := Some (device_id p);
                                  pf_device_owner := Some (device_owner p) |}) ::
             match interfaces s3 (device_id p) with
             | [] => [Event (remove_gateway_router (device_id p));
                      Event (delete_router (device_id p))]
             | _ :: _ => []
             end) = collect_plan s n) as Hplan]
  end.
  { intros r. unfold kept_interfaces, interfaces. simpl.
    rewrite Hports2, Hports1.
    rewrite !list_filter_filter. apply list_filter_iff. intros p.
    unfold on_network. tauto. }
  { unfold collect_plan. apply list_bind_ext; [| done].
    intros p. by rewrite Hifs. }
  cbn zeta in Hcollect. destruct Hcollect as [Hpre3 Hall3].
  { apply Forall_forall. intros p Hp.
    by apply list_elem_of_filter in Hp as [? _]. }
  rewrite Hplan in Hpre3, Hall3. split.
  - apply prefix_app, prefix_cons, prefix_app, prefix_cons, prefix_app,
          prefix_cons, Hpre3.
  - intros Hdone. by rewrite (Hall3 Hdone).
Qed.

(** X3: the calls of a teardown come in a fixed order that the backing
    state decides: the lookup, the list of ports, the detaching of every
    router-interface port of the network, the list of subnets, the deletion
    of every subnet, the deletion of the network, and then, for each
    detached port in turn, the list of the interfaces of its router followed,
    when none is left to it, by the removal of the router's gateway and of
    the router.  A run that fails stops somewhere along this sequence; a run
    that succeeds made exactly these calls. *)
Theorem teardown_calls_in_order s segment network n :
  target_network s segment network = Some n →
  let o := interp (NetworkDeleteCommand.run segment network) s in
  let plan := teardown_plan s segment network n ++ collect_plan s n in
  trace o `prefix_of` plan ∧ (result o = inr () → trace o = plan).
Proof. apply teardown_trace_shape. Qed.

Lemma teardown_calls_in_order_witness :
  let o := interp (NetworkDeleteCommand.run (Some "20") None) site_vlan in
  let plan := teardown_plan site_vlan (Some "20") None net1_vlan
              ++ collect_plan site_vlan net1_vlan in
  trace o `prefix_of` plan ∧ (result o = inr () → trace o = plan).
Proof.
  exact (teardown_calls_in_order site_vlan (Some "20") None net1_vlan eq_refl).
Defined.

Lemma plan_within_reach s segment network n :
  Forall (teardown_may s n) (teardown_plan s segment network n).
Proof.
  unfold teardown_plan. repeat apply Forall_app_2.
  - unfold select_event. destruct segment; by repeat constructor.
  - by repeat constructor.
  - apply Forall_fmap, Forall_forall. intros p Hp. simpl. eauto.
  - by repeat constructor.
  - apply Forall_fmap, Forall_forall. intros sn Hsn. simpl.
    by apply list_elem_of_fmap_2.
  - by repeat constructor.
Qed.

Lemma collect_within_reach s n :
  Forall (teardown_may s n) (collect_plan s n).
Proof.
  unfold collect_plan. apply Forall_forall. intros e He.
  apply list_elem_of_bind in He as (p & He & Hp).
  assert (device_id p ∈ device_id <$> router_ports_on s n) as Hrouter
    by (by apply list_elem_of_fmap_2).
  apply elem_of_cons in He as [-> | He]; [done |].
  destruct (kept_interfaces s n (device_id p)); [| by apply elem_of_nil in He].
  apply elem_of_cons in He as [-> | He]; [done |].
  apply list_elem_of_singleton in He as ->. done.
Qed.

(** X4: whatever becomes of a teardown, the only things it asks the API to
    change are the router-interface ports of the network (detached from
    their routers), the subnets of the network, the network itself and the
    routers of those ports: no other network, subnet or router is touched. *)
Theorem teardown_reach s segment network n :
  target_network s segment network = Some n →
  Forall (teardown_may s n)
         (trace (interp (NetworkDeleteCommand.run segment network) s)).
Proof.
  intros Htarget.
  destruct (teardown_trace_shape s segment network n Htarget)
    as [[k Hplan] _].
  assert (Forall (teardown_may s n)
            (teardown_plan s segment network n ++ collect_plan s n)) as Hall
    by (apply Forall_app_2;
        [apply plan_within_reach | apply collect_within_reach]).
  rewrite Hplan in Hall. by apply Forall_app in Hall as [? _].
Qed.

Lemma teardown_reach_witness :
  Forall (teardown_may site net2)
         (trace (interp (NetworkDeleteCommand.run (Some "10") None) site)).
Proof. exact (teardown_reach site (Some "10") None net2 eq_refl). Defined.

(** ** [network delete]: a failure keeps what was done before it *)

(** X5: teardown does not undo its work.  When the router-interface ports can
    be detached and the API then refuses to delete the first subnet, because
    a port that is not one of them still holds an address of it, teardown
    ends with that Conflict: the interfaces stay detached, and the network,
    its subnets and the routers are all still there. *)
Theorem teardown_keeps_partial_work s segment network n sn rest :
  target_network s segment network = Some n →
  ¬ Exists (λ p, on_network n p ∧ is_compute p) (ports s) →
  NoDup (port_id <$> router_ports_on s n) →
  Forall (λ p, has_router s (device_id p)) (router_ports_on s n) →
  subnets_on s n = sn :: rest →
  Exists (λ p, uses_subnet (subnet_id sn) p ∧
               port_id p ∉ port_id <$> router_ports_on s n) (ports s) →
  let o := interp (NetworkDeleteCommand.run segment network) s in
  result o = inl (Conflict (subnet_id sn)) ∧
  ports (final o)
    = filter (λ q, port_id q ∉ port_id <$> router_ports_on s n) (ports s) ∧
  networks (final o) = networks s ∧
  subnets (final o) = subnets s ∧
  routers (final o) = routers s.
Proof.
  intros Htarget Hquiet Hnodup Hrouters Hsubnets Hused o.
  apply (wp_interp _ (λ r s',
    r = inl (Conflict (subnet_id sn)) ∧
    ports s' = filter (λ q, port_id q ∉ port_id <$> router_ports_on s n) (ports s) ∧
    networks s' = networks s ∧ subnets s' = subnets s ∧ routers s' = routers s)).
  unfold NetworkDeleteCommand.run.
  rewrite wp_bind. apply (wp_select _ _ _ _ _ Htarget). cbn [and_then].
  rewrite wp_bind. unfold NetworkDeleteCommand._list_for_network.
  rewrite wp_perform. cbn [handle fst snd and_then].
  rewrite list_ports_on_network. rewrite decide_False.
  2: { intros (p & [Hon Hp]%list_elem_of_filter & Hnova)%Exists_exists.
       apply Hquiet, Exists_exists. by exists p. }
  cbn zeta.
  change (filter (λ p, device_owner p = "network:router_interface")
                 (filter (on_network n) (ports s)))
    with (router_ports_on s n).
  rewrite wp_bind. eapply wp_mono.
  2: { apply wp_conj; [apply detach_succeeds | apply detach_effect]; [done |].
       apply Forall_forall. intros p Hp.
       pose proof (proj1 (Forall_forall _ _) Hrouters p Hp).
       apply router_port_on_elem in Hp. tauto. }
  intros [? | []] s1; [by intros [[] _] |].
  intros [_ (Hp1 & Hn1 & Hs1 & Hr1 & _)].
  cbn [and_then]. rewrite wp_bind, wp_perform. cbn [handle fst snd and_then].
  rewrite Hs1. fold (subnets_on s n). rewrite Hsubnets.
  rewrite wp_bind, wp_for_each_cons, wp_perform. cbn [handle].
  assert (sn ∈ subnets s) as Hsn.
  { assert (sn ∈ subnets_on s n) as Hin by (rewrite Hsubnets; by left).
    by apply list_elem_of_filter in Hin as [_ ?]. }
  rewrite decide_False.
  2: { unfold lookup_subnet. rewrite head_filter_None. intros Hno.
       apply Hno, Exists_exists. exists sn. by rewrite Hs1. }
  rewrite decide_True.
  2: { apply Exists_exists in Hused as (p & Hp & Huses & Hid).
       apply Exists_exists. exists p. split; [| done].
       rewrite Hp1. by apply list_elem_of_filter. }
  done.
Qed.

Lemma teardown_keeps_partial_work_witness :
  let o := interp (NetworkDeleteCommand.run (Some "20") None)
                  Scenarios.site_baremetal in
  result o = inl (Conflict "s1") ∧
  ports (final o)
    = filter (λ q, port_id q ∉ port_id
                     <$> router_ports_on Scenarios.site_baremetal net1_vlan)
             (ports Scenarios.site_baremetal) ∧
  networks (final o) = networks Scenarios.site_baremetal ∧
  subnets (final o) = subnets Scenarios.site_baremetal ∧
  routers (final o) = routers Scenarios.site_baremetal.
Proof.
  apply (teardown_keeps_partial_work Scenarios.site_baremetal (Some "20") None
           net1_vlan {| subnet_id := "s1"; subnet_network_id := "n1";
                        allocation_pools := [] |} []);
    [reflexivity | by compute_done | by compute_done | by compute_done
    | by vm_compute | by compute_done].
Defined.
(** ** [network ips]: the calls of an audit *)

Lemma trace_nil_of_Forall_False (t : list event) :
  Forall (λ _, False) t → t = [].
Proof. by destruct 1. Qed.

Lemma trace_parse_addresses (fips : list FloatingIP) (acc : list Z) s :
  trace (interp (for_fold (λ ips fip,
           ip ← NetworkPublicIPStatusCommand.IPv4Address
                  (floating_ip_address fip);
           Ret (ips ++ [ip])) fips acc) s) = [].
Proof.
  apply trace_nil_of_Forall_False, trace_Forall_for_fold.
  intros ips fip s' _. cbn beta.
  unfold NetworkPublicIPStatusCommand.IPv4Address.
  destruct (ipaddress.IPv4Address _); simpl; constructor.
Qed.

Lemma trace_index_ports (l : list Port) s :
  trace (interp (NetworkPublicIPStatusCommand.index_ports l) s) = [].
Proof.
  apply trace_nil_of_Forall_False, trace_Forall_for_fold.
  intros m p s' _. cbn beta. destruct (fixed_ips p); simpl; constructor.
Qed.

Lemma trace_extend_with_pools (all : list Z) (pools : list AllocationPool) s :
  trace (interp (NetworkPublicIPStatusCommand.extend_with_pools all pools) s)
  = [].
Proof.
  apply trace_nil_of_Forall_False, trace_Forall_for_fold.
  intros acc p s' _. cbn beta.
  unfold NetworkPublicIPStatusCommand.IPv4Address.
  destruct (ipaddress.IPv4Address (pool_start p)); simpl; [| constructor].
  destruct (ipaddress.IPv4Address (pool_end p)); simpl; [| constructor].
  destruct (ipaddress.summarize_address_range _ _); simpl; constructor.
Qed.

Lemma trace_public_allocation_pools (P : event → Prop) s :
  P (Event (list_networks {| nf_segmentation_id := None;
                             nf_name := Some "public" |})) →
  (∀ id, P (Event (show_subnet id))) →
  Forall P (trace (interp NetworkPublicIPStatusCommand._public_allocation_pools s)).
Proof.
  intros Hlist Hshow.
  unfold NetworkPublicIPStatusCommand._public_allocation_pools.
  apply trace_Forall_bind; [rewrite interp_perform; by repeat constructor |].
  intros [| public_net ?] _; [constructor |].
  destruct (net_subnets public_net) as [| id ids]; [constructor |].
  apply trace_Forall_for_fold. intros pools id' s' _. cbn beta.
  apply trace_Forall_bind; [rewrite interp_perform; by repeat constructor |].
  intros sn _. constructor.
Qed.

(** What one address adds to the calls: nothing, or the fetch of a router
    that the cache does not hold, which is cached when it succeeds. *)
Lemma process_address_calls ports_by_ip reserved routers rows a s :
  let o := interp (NetworkPublicIPStatusCommand.process_address
                     ports_by_ip reserved (routers, rows) a) s in
  (trace o = [] ∧ ∃ rows', result o = inr (routers, rows')) ∨
  ∃ port,
    ports_by_ip !! ipaddress.str a = Some port ∧
    device_owner port = "network:router_gateway" ∧
    routers !! device_id port = None ∧
    trace o = [Event (show_router (device_id port))] ∧
    (result o = inl (NotFound (device_id port)) ∨
     ∃ router rows',
       result o = inr (<[device_id port := router]> routers, rows')).
Proof.
  unfold NetworkPublicIPStatusCommand.process_address.
  destruct (ports_by_ip !! ipaddress.str a) as [port |]; [| left; simpl; eauto].
  destruct (decide (device_owner port = "network:router_gateway"));
    [| left; simpl; eauto].
  destruct (routers !! device_id port) as [router |] eqn:Hcached;
    [left; simpl; eauto |].
  right. exists port. do 3 (split; [done |]). simpl.
  destruct (lookup_router s (device_id port)); simpl; eauto.
Qed.



Lemma omap_None_Forall {A B : Type} (f : A → option B) (l : list A) :
  Forall (λ x, f x = None) l → omap f l = [].
Proof. induction 1 as [| x l Hx _ IH]; csimpl; [done | by rewrite Hx]. Qed.





(** ** [network ips]: only reads, and one table *)


(** ** [network ips]: a malformed reservation *)

Lemma parse_addresses_first_bad (l : list string) e :
  parse_addresses l = inl e →
  ∃ good a rest,
    l = good ++ a :: rest ∧
    Forall (λ x, is_Some (ipaddress.IPv4Address x)) good ∧
    ipaddress.IPv4Address a = None ∧ e = AddressValueError a.
Proof.
  revert e. induction l as [| x l IH]; intros e; simpl; [done |].
  destruct (ipaddress.IPv4Address x) as [ip |] eqn:Hx.
  - destruct (parse_addresses l) as [e' |]; [| done]. intros [= <-].
    destruct (IH e' eq_refl) as (good & a & rest & -> & Hgood & Ha & ->).
    exists (x :: good), a, rest. repeat split; [| done].
    constructor; [by rewrite Hx | done].
  - intros [= <-]. exists [], x, l. by repeat split.
Qed.

(** X7: when an address that Blazar reports is not a well-formed IPv4 literal,
    the audit ends with the [AddressValueError] of the first such literal
    right after the call to Blazar: Neutron is not contacted, nothing is
    written, and the state is as before. *)
Theorem audit_stops_at_malformed_reservation
    (tabulate : list (list string) → list string → string) s e :
  reserved_addresses s = inl e →
  interp (NetworkPublicIPStatusCommand.run tabulate) s
  = {| result := inl e; final := s; trace := [Event floatingip_list] |} ∧
  ∃ good a rest,
    floating_ip_address <$> floatingips s = good ++ a :: rest ∧
    Forall (λ x, is_Some (ipaddress.IPv4Address x)) good ∧
    ipaddress.IPv4Address a = None ∧ e = AddressValueError a.
Proof.
  intros Hbad. split; [| by apply parse_addresses_first_bad].
  unfold NetworkPublicIPStatusCommand.run,
    NetworkPublicIPStatusCommand.run_rows.
  rewrite interp_bind, interp_perform_bind. cbn [handle fst snd].
  rewrite interp_bind, trace_parse_addresses.
  match goal with
  | |- context [interp ?loop s] =>
      assert (result (interp loop s) = inl e ∧ final (interp loop s) = s)
        as [-> ->]
  end; [| done].
  apply (wp_interp _ (λ r s', r = inl e ∧ s' = s)), wp_parse_addresses.
  unfold reserved_addresses in Hbad. by rewrite Hbad.
Qed.

Lemma audit_stops_at_malformed_reservation_witness :
  reserved_addresses Scenarios.site_bad_reservation
  = inl (AddressValueError "10.0.0.256") ∧
  interp (NetworkPublicIPStatusCommand.run (λ _ _, "table")) 
         Scenarios.site_bad_reservation
  = {| result := inl (AddressValueError "10.0.0.256");
       final := Scenarios.site_bad_reservation;
       trace := [Event floatingip_list] |}.
Proof.
  split; [reflexivity |].
  apply (audit_stops_at_malformed_reservation (λ _ _, "table")
           Scenarios.site_bad_reservation (AddressValueError "10.0.0.256")).
  reflexivity.
Defined.

(** ** [network ips]: the router cache *)

Lemma final_of_silent {A : Type} (p : prog A) s :
  trace (interp p s) = [] → final (interp p s) = s.
Proof.
  destruct p as [a | e | R c k]; simpl; [done | done |].
  by destruct (handle c s) as [[e | r] s'].
Qed.

Lemma shown_routers_bind {A B : Type} (m : prog A) (f : A → prog B) s :
  Forall (λ e, shown_router e = None) (trace (interp m s)) →
  shown_routers (trace (interp (m ≫= f) s))
  = match result (interp m s) with
    | inl _ => []
    | inr a => shown_routers (trace (interp (f a) (final (interp m s))))
    end.
Proof.
  intros Hm%omap_None_Forall. rewrite interp_bind. unfold shown_routers.
  destruct (result (interp m s)); cbn [trace]; [done |].
  by rewrite omap_app, Hm.
Qed.

(** The loop over the addresses fetches a router only when the cache does
    not hold it, and caches it: no router is fetched twice, and each
    fetched router is the device of a gateway port of the index. *)
Lemma process_addresses_fetch ports_by_ip reserved addrs routers rows s :
  let fetched :=
    shown_routers (trace (interp
      (for_fold (NetworkPublicIPStatusCommand.process_address
                   ports_by_ip reserved) addrs (routers, rows)) s)) in
  NoDup fetched ∧
  Forall (λ id, routers !! id = None ∧
                ∃ a port, a ∈ addrs ∧
                  ports_by_ip !! ipaddress.str a = Some port ∧
                  device_owner port = "network:router_gateway" ∧
                  device_id port = id) fetched.
Proof.
  cbn zeta. revert routers rows s.
  induction addrs as [| a addrs IH]; intros routers rows s.
  { split; constructor. }
  change (for_fold ?body (a :: addrs) ?acc)
    with (body acc a ≫= λ acc', for_fold body addrs acc').
  rewrite interp_bind.
  destruct (process_address_calls ports_by_ip reserved routers rows a s)
    as [[Ht [rows' Hr]]
       | (port & Hport & Hgw & Hnone & Ht & [Hr | (router & rows' & Hr)])];
    rewrite Hr; cbn [trace]; rewrite ?Ht; cbn zeta.
  - destruct (IH routers rows'
                (final (interp (NetworkPublicIPStatusCommand.process_address
                          ports_by_ip reserved (routers, rows) a) s)))
      as [Hnodup Hall].
    split; [done |]. eapply Forall_impl; [exact Hall |].
    intros id (Hid & a' & port & Ha' & ?). split; [done |].
    exists a', port. split; [by right | done].
  - split; [apply NoDup_singleton |]. repeat constructor; [done |].
    exists a, port. split; [by left | done].
  - destruct (IH (<[device_id port := router]> routers) rows'
                (final (interp (NetworkPublicIPStatusCommand.process_address
                          ports_by_ip reserved (routers, rows) a) s)))
      as [Hnodup Hall].
    change (shown_routers ([?e] ++ ?t)) with (device_id port :: shown_routers t).
    split.
    + constructor; [| done]. intros Hin.
      destruct (proj1 (Forall_forall _ _) Hall _ Hin) as [Hfresh _].
      by rewrite lookup_insert_eq in Hfresh.
    + constructor.
      * split; [done |]. exists a, port. split; [by left | done].
      * eapply Forall_impl; [exact Hall |].
        intros id (Hid & a' & port' & Ha' & ?). split.
        -- destruct (decide (device_id port = id)) as [<- | Hne];
             [by rewrite lookup_insert_eq in Hid |].
           by rewrite lookup_insert_ne in Hid.
        -- exists a', port'. split; [by right | done].
Qed.

Lemma shown_routers_run
    (tabulate : list (list string) → list string → string) s :
  shown_routers (trace (interp (NetworkPublicIPStatusCommand.run tabulate) s))
  = shown_routers (trace (interp NetworkPublicIPStatusCommand.run_rows s)).
Proof.
  unfold NetworkPublicIPStatusCommand.run. rewrite interp_bind.
  destruct (result (interp NetworkPublicIPStatusCommand.run_rows s));
    cbn [trace]; [done |].
  cbn zeta. rewrite interp_perform. unfold shown_routers.
  rewrite omap_app. csimpl. by rewrite app_nil_r.
Qed.

Lemma trace_bind_silent {A B : Type} (m : prog A) (f : A → prog B) s :
  (∀ a s', trace (interp (f a) s') = []) →
  trace (interp (m ≫= f) s) = trace (interp m s).
Proof.
  intros Hf. rewrite interp_bind.
  destruct (result (interp m s)); cbn [trace]; [done |].
  cbn zeta. by rewrite Hf, app_nil_r.
Qed.

(** X8: no router is fetched twice in one audit, however many gateway addresses
    it holds; and a router is fetched only for a port that Neutron lists as
    a router gateway. *)
Theorem audit_fetches_each_router_once
    (tabulate : list (list string) → list string → string) s :
  let fetched :=
    shown_routers
      (trace (interp (NetworkPublicIPStatusCommand.run tabulate) s)) in
  NoDup fetched ∧
  Forall (λ id, ∃ port, port ∈ ports s ∧
                  device_owner port = "network:router_gateway" ∧
                  device_id port = id) fetched.
Proof.
  cbn zeta. rewrite shown_routers_run.
  unfold NetworkPublicIPStatusCommand.run_rows.
  rewrite shown_routers_bind by (rewrite interp_perform; by repeat constructor).
  cbn [perform interp handle result final].
  rewrite shown_routers_bind by (rewrite trace_parse_addresses; constructor).
  rewrite final_of_silent by apply trace_parse_addresses.
  destruct (result (interp (for_fold _ (floatingips s) []) s))
    as [e | reserved]; [split; constructor |].
  rewrite shown_routers_bind by (rewrite interp_perform; by repeat constructor).
  cbn [perform interp handle result final]. cbn zeta.
  rewrite shown_routers_bind by (rewrite trace_index_ports; constructor).
  rewrite final_of_silent by apply trace_index_ports.
  destruct (result (interp (NetworkPublicIPStatusCommand.index_ports _) s))
    as [e | ports_by_ip] eqn:Hindex; [split; constructor |].
  rewrite shown_routers_bind
    by (by apply (trace_public_allocation_pools (λ e, shown_router e = None))).
  destruct (result (interp NetworkPublicIPStatusCommand._public_allocation_pools s))
    as [e | pools]; [split; constructor |].
  rewrite shown_routers_bind by (rewrite trace_extend_with_pools; constructor).
  destruct (result (interp (NetworkPublicIPStatusCommand.extend_with_pools _ _) _))
    as [e | all_addresses]; [split; constructor |].
  cbn zeta.
  rewrite shown_routers_bind by (rewrite interp_perform; by repeat constructor).
  cbn [perform interp handle result final].
  rewrite trace_bind_silent by (by intros [routers rows] s').
  match goal with
  | |- context [interp (for_fold _ ?l _) ?s'] =>
      pose proof (process_addresses_fetch ports_by_ip reserved l ∅ [] s')
        as Hfetch
  end.
  cbn zeta in Hfetch. destruct Hfetch as [Hnodup Hall].
  split; [done |]. eapply Forall_impl; [exact Hall |].
  intros id (_ & a & port & _ & Hport & Hgw & Hid).
  exists port. split; [| done].
  match type of Hindex with
  | result (interp (NetworkPublicIPStatusCommand.index_ports ?l) _) = _ =>
      pose proof (proj1 (wp_interp _ _ s)
                    (proj2 (wp_index_ports l ∅
                              (λ r _, r = match index_from ∅ l with
                                          | Some m' => inr m'
                                          | None => inl IndexError
                                          end) s) eq_refl)) as Hfrom;
      unfold NetworkPublicIPStatusCommand.index_ports in Hindex;
      cbn beta in Hfrom; rewrite Hindex in Hfrom;
      destruct (index_from ∅ l) as [m' |] eqn:Hm'; [| done];
      injection Hfrom as ->;
      destruct (index_from_sound _ _ _ _ _ Hm' Hport) as [[Hin _] | Hempty];
        [| by rewrite lookup_empty in Hempty]
  end.
  apply list_elem_of_filter in Hin as [_ Hin].
  by apply list_elem_of_filter in Hin as [_ Hin].
Qed.

(** ** [network ips]: gathering the allocation pools *)

Lemma interp_subnet_loop_found s (ids : list string) (sns : list Subnet)
    (acc : list AllocationPool) :
  Forall2 (λ id sn, lookup_subnet s id = Some sn) ids sns →
  interp (for_fold (λ pools subnet_id,
            subnet ← perform (show_subnet subnet_id);
            Ret (pools ++ allocation_pools subnet)) ids acc) s
  = {| result := inr (acc ++ (sns ≫= allocation_pools)); final := s;
       trace := (λ id, Event (show_subnet id)) <$> ids |}.
Proof.
  intros Hall. revert acc.
  induction Hall as [| id sn ids sns Hid _ IH]; intros acc.
  { simpl. by rewrite app_nil_r. }
  change (for_fold ?body (id :: ids) ?acc)
    with (body acc id ≫= λ acc', for_fold body ids acc').
  rewrite interp_bind, interp_perform_bind. cbn [handle]. rewrite Hid.
  cbn [result final trace interp]. cbn zeta. rewrite IH. csimpl.
  by rewrite <-app_assoc.
Qed.

Lemma interp_subnet_loop_missing s (good : list string) (sns : list Subnet)
    (id : string) (rest : list string) (acc : list AllocationPool) :
  Forall2 (λ id sn, lookup_subnet s id = Some sn) good sns →
  lookup_subnet s id = None →
  interp (for_fold (λ pools subnet_id,
            subnet ← perform (show_subnet subnet_id);
            Ret (pools ++ allocation_pools subnet)) (good ++ id :: rest) acc) s
  = {| result := inl (NotFound id); final := s;
       trace := (λ id, Event (show_subnet id)) <$> (good ++ [id]) |}.
Proof.
  intros Hall Hid. revert acc.
  induction Hall as [| id' sn ids sns Hid' _ IH]; intros acc.
  - change (for_fold ?body ([] ++ id :: rest) ?acc)
      with (body acc id ≫= λ acc', for_fold body rest acc').
    rewrite interp_bind, interp_perform_bind. cbn [handle]. by rewrite Hid.
  - change (for_fold ?body ((id' :: ids) ++ id :: rest) ?acc)
      with (body acc id' ≫= λ acc', for_fold body (ids ++ id :: rest) acc').
    rewrite interp_bind, interp_perform_bind. cbn [handle]. rewrite Hid'.
    cbn [result final trace interp]. cbn zeta. by rewrite IH.
Qed.

(** X9: the pools are those of the subnets of the first network that Neutron
    lists under the name "public", other networks of that name being left
    aside.  No such network, or no subnet on it, is a [ValueError].  The
    subnets are fetched in the order the network lists them: when all are
    there the result is their pools in that order; the first that is missing
    ends the run with its [NotFound] and the later ones are not fetched. *)
Theorem public_pools_of_first_network s :
  let o := interp NetworkPublicIPStatusCommand._public_allocation_pools s in
  let listing :=
    Event (list_networks {| nf_segmentation_id := None;
                            nf_name := Some "public" |}) in
  final o = s ∧
  match filter (λ n, net_name n = "public") (networks s) with
  | [] =>
      result o = inl (ValueError "Could not find public network") ∧
      trace o = [listing]
  | public_net :: _ =>
      match net_subnets public_net with
      | [] =>
          result o = inl (ValueError "No subnets defined on public network") ∧
          trace o = [listing]
      | ids =>
          (∀ sns,
             Forall2 (λ id sn, lookup_subnet s id = Some sn) ids sns →
             result o = inr (sns ≫= allocation_pools) ∧
             trace o = listing :: ((λ id, Event (show_subnet id)) <$> ids)) ∧
          (∀ good sns id rest,
             ids = good ++ id :: rest →
             Forall2 (λ id sn, lookup_subnet s id = Some sn) good sns →
             lookup_subnet s id = None →
             result o = inl (NotFound id) ∧
             trace o = listing ::
                       ((λ id, Event (show_subnet id)) <$> (good ++ [id])))
      end
  end.
Proof.
  cbn zeta. split.
  { by apply (wp_interp _ (λ _ s', s' = s)), wp_public_allocation_pools. }
  unfold NetworkPublicIPStatusCommand._public_allocation_pools.
  rewrite interp_perform_bind. cbn [handle].
  rewrite (list_filter_iff
             (network_matches {| nf_segmentation_id := None;
                                 nf_name := Some "public" |})
             (λ n, net_name n = "public")).
  2: { intros n. unfold network_matches. simpl. intuition congruence. }
  destruct (filter _ (networks s)) as [| public_net ?]; [done |].
  destruct (net_subnets public_net) as [| id0 ids0] eqn:Hids; [done |].
  split.
  - intros sns Hall. cbn zeta.
    by rewrite (interp_subnet_loop_found s _ sns [] Hall).
  - intros good sns id rest -> Hall Hid. cbn zeta.
    by rewrite (interp_subnet_loop_missing s good sns id rest [] Hall Hid).
Qed.

Lemma public_pools_of_first_network_witness :
  let o := interp NetworkPublicIPStatusCommand._public_allocation_pools
             Scenarios.site_missing_subnet in
  result o = inl (NotFound "gone") ∧
  trace o = [Event (list_networks {| nf_segmentation_id := None;
                                     nf_name := Some "public" |});
             Event (show_subnet "psub"); Event (show_subnet "gone")].
Proof.
  destruct (public_pools_of_first_network Scenarios.site_missing_subnet)
    as [_ [_ Hmissing]].
  apply (Hmissing ["psub"]
           [ {| subnet_id := "psub"; subnet_network_id := "pub";
                allocation_pools := [ {| pool_start := "10.0.0.2";
                                         pool_end := "10.0.0.4" |} ] |} ]
           "gone" ["s1"]).
  - reflexivity.
  - repeat constructor.
  - reflexivity.
Defined.

(** ** [network segments]: the layout of the table *)

Lemma length_append (a b : string) :
  String.length (a +:+ b) = (String.length a + String.length b)%nat.
Proof. induction a as [| c a IH]; simpl; [done | by rewrite IH]. Qed.

Lemma length_padding (k : nat) :
  String.length (String.concat String.EmptyString (replicate k " ")) = k.
Proof.
  induction k as [| k IH]; [done |].
  destruct k as [| k]; [done |].
  change (replicate (S (S k)) " ") with (" " :: replicate (S k) " ").
  change (String.concat String.EmptyString (" " :: replicate (S k) " "))
    with (" " +:+ String.EmptyString
          +:+ String.concat String.EmptyString (replicate (S k) " ")).
  rewrite !length_append, IH. done.
Qed.

(** [ljust] pads up to the width and never cuts. *)
Lemma ljust_length (val : string) (width : nat) :
  String.length (ljust val width) = (String.length val `max` width)%nat.
Proof. unfold ljust. rewrite length_append, length_padding. lia. Qed.

Lemma report_rows_length (nets : list Network) (row : list string) :
  row ∈ report_rows nets → length row = 4%nat.
Proof.
  unfold report_rows.
  intros [-> | (n & -> & _)%list_elem_of_fmap]%elem_of_cons; done.
Qed.

Lemma column_widths_rows (nets : list Network) :
  let rows := report_rows nets in
  column_widths rows
  = (λ j, max_list (String.length <$> omap (λ r : list string, r !! j) rows))
    <$> [0; 1; 2; 3]%nat.
Proof.
  cbn zeta. unfold column_widths. unfold report_rows at 1.
  rewrite zip_star_four.
  - by rewrite <-list_fmap_compose.
  - apply Forall_forall. intros row Hrow.
    by apply (report_rows_length nets).
Qed.

(** The width of a column is the length of its longest cell, the header
    included. *)
Lemma column_widths_column (nets : list Network) (j w : nat) :
  let rows := report_rows nets in
  column_widths rows !! j = Some w →
  (∀ row cell, row ∈ rows → row !! j = Some cell →
               (String.length cell ≤ w)%nat) ∧
  ∃ row cell, row ∈ rows ∧ row !! j = Some cell ∧ String.length cell = w.
Proof.
  cbn zeta. rewrite column_widths_rows. cbn zeta.
  rewrite list_lookup_fmap. intros Hw.
  destruct ([0; 1; 2; 3]%nat !! j) as [j' |] eqn:Hj; [| done].
  assert (j' = j) as ->.
  { by do 4 (destruct j as [| j]; [by injection Hj |]). }
  apply (inj Some) in Hw. subst w. split.
  - intros row cell Hrow Hcell. apply max_list_elem_of_le.
    apply list_elem_of_fmap. exists cell. split; [done |].
    apply list_elem_of_omap. by exists row.
  - assert (String.length <$> omap (λ r : list string, r !! j)
              (report_rows nets) ≠ []) as Hne.
    { unfold report_rows. csimpl.
      by do 4 (destruct j as [| j]; [done |]). }
    apply max_list_elem_of in Hne.
    apply list_elem_of_fmap in Hne as (cell & Hlen & Hcell).
    apply list_elem_of_omap in Hcell as (row & Hrow & Hcell).
    by exists row, cell.
Qed.

(** X10: when every network of the list carries both provider attributes
    and its physical network is a string, the table is aligned.  The rows
    that [run] builds are the header and one row of four cells per network;
    there are four column widths, each the length of the longest cell of its
    column (the header cell included), every cell is padded to the width of
    its column, and so every line of the report has the same length, the
    four widths and three separators of two spaces. *)
Theorem segments_columns_aligned s :
  Forall reportable (networks s) →
  let rows := report_rows (networks s) in
  let widths := column_widths rows in
  NetworkSegmentStatusCommand.rows_of (networks s) = inr (cells <$> rows) ∧
  NetworkSegmentStatusCommand.widths_of (cells <$> rows) = inr widths ∧
  length widths = 4%nat ∧
  (∀ j w, widths !! j = Some w →
     (∀ row cell, row ∈ rows → row !! j = Some cell →
                  String.length (ljust cell w) = w) ∧
     ∃ row cell, row ∈ rows ∧ row !! j = Some cell ∧ String.length cell = w) ∧
  length (stdout (interp NetworkSegmentStatusCommand.run s))
  = S (length (networks s)) ∧
  Forall (λ line, String.length line = (sum_list widths + 6)%nat)
         (stdout (interp NetworkSegmentStatusCommand.run s)).
Proof.
  intros Hall. cbn zeta.
  split; [by apply rows_of_reportable |].
  split; [apply widths_of_cells |].
  assert (stdout (interp NetworkSegmentStatusCommand.run s)
          = report_line (column_widths (report_rows (networks s)))
            <$> report_rows (networks s)) as Hout.
  { rewrite (segments_run s Hall). unfold stdout. simpl.
    by rewrite stdout_print_each. }
  split; [| split; [| split]].
  - pose proof (column_widths_rows (networks s)) as ->. done.
  - intros j w Hw.
    destruct (column_widths_column (networks s) j w Hw) as [Hle Hmax].
    split; [| done]. intros row cell Hrow Hcell.
    rewrite ljust_length. specialize (Hle row cell Hrow Hcell). lia.
  - rewrite Hout, length_fmap. unfold report_rows. simpl.
    rewrite length_fmap. f_equal. apply Permutation_length, sorted_Permutation.
  - rewrite Hout. apply Forall_fmap, Forall_forall.
    intros row Hrow.
    pose proof (report_rows_length _ _ Hrow) as Hlen.
    destruct row as [| a [| b [| c [| d [| ? ?]]]]]; try done.
    pose proof (column_widths_column (networks s)) as Hcol. cbn zeta in Hcol.
    pose proof (column_widths_rows (networks s)) as Hwidths.
    cbn zeta in Hwidths.
    remember (column_widths (report_rows (networks s))) as widths.
    destruct widths as [| w0 [| w1 [| w2 [| w3 [| ? ?]]]]]; try done.
    destruct (Hcol 0%nat w0 eq_refl) as [H0 _].
    destruct (Hcol 1%nat w1 eq_refl) as [H1 _].
    destruct (Hcol 2%nat w2 eq_refl) as [H2 _].
    destruct (Hcol 3%nat w3 eq_refl) as [H3 _].
    specialize (H0 _ a Hrow eq_refl). specialize (H1 _ b Hrow eq_refl).
    specialize (H2 _ c Hrow eq_refl). specialize (H3 _ d Hrow eq_refl).
    unfold report_line, compose. cbn beta. cbn [zip_with String.concat].
    rewrite !length_append, !ljust_length. simpl. lia.
Qed.

Lemma segments_columns_aligned_witness :
  NetworkSegmentStatusCommand.widths_of
    (cells <$> report_rows (networks site)) = inr [16; 15; 6; 10]%nat ∧
  String.length (ljust "one" 6) = 6%nat ∧
  length (stdout (interp NetworkSegmentStatusCommand.run site)) = 4%nat ∧
  Forall (λ line, String.length line = 53%nat)
         (stdout (interp NetworkSegmentStatusCommand.run site)).
Proof.
  destruct (segments_columns_aligned site ltac:(by compute_done))
    as (_ & Hwidths & _ & Hcol & Hcount & Hlines).
  split; [exact Hwidths |]. split; [| split; [exact Hcount | exact Hlines]].
  apply (proj1 (Hcol 2%nat 6%nat eq_refl) (report_row net1) "one").
  - right. left.
  - reflexivity.
Defined.

(** ** [network ips]: the table, read by address *)

(** X11: the first cell of every row of a successful audit is an address in
    text that [IPv4Address] reads back, and read so the rows are in
    ascending order.  Ports are matched to a row by that text, which is
    matching by address, as an address has one text only: a row is
    "unallocated" exactly when no port owned by a floating IP or a router
    gateway has the row's address as its first fixed IP. *)
Theorem audit_rows_by_address s rows :
  result (interp NetworkPublicIPStatusCommand.run_rows s) = inr rows →
  ∃ addrs,
    Forall2 (λ a row, ∃ cell, head row = Some cell ∧
                              ipaddress.IPv4Address cell = Some a) addrs rows ∧
    StronglySorted Z.le addrs ∧
    ∀ i a row, addrs !! i = Some a → rows !! i = Some row →
      (row !! 1%nat = Some "unallocated" ↔
       ∀ p k, p ∈ ports s → is_public_port p → first_address p = Some k →
              ipaddress.IPv4Address k ≠ Some a).
Proof.
  intros (reserved & ports_by_ip & pools & bounds & Hres & Hindex & _ & Hbounds
          & Hrows)%run_rows_success.
  assert (Forall (λ a, 0 ≤ a ≤ ipaddress.ALL_ONES)
            (sorted id (candidate_addresses reserved bounds))) as Hrange.
  { rewrite sorted_Permutation. apply candidate_addresses_range.
    - by eapply parse_addresses_range.
    - by eapply pools_bounds_range. }
  exists (sorted id (candidate_addresses reserved bounds)).
  split; [| split; [apply (sorted_StronglySorted id) |]].
  - eapply Forall2_impl_Forall_l; [exact Hrange | exact Hrows |].
    intros a row Ha (? & ? & -> & _). exists (ipaddress.str a).
    split; [done | by apply IPv4Address_str].
  - intros i a row Ha Hrow.
    pose proof (proj1 (Forall_lookup _ _) Hrange i a Ha) as Hin.
    destruct (Forall2_lookup_lr _ _ _ _ _ _ Hrows Ha Hrow)
      as (allocation_type & project_id & -> & Hport).
    cbn [lookup list_lookup]. split.
    + intros [= ->] p k Hp Hkept Hk Hparse.
      apply IPv4Address_canonical in Hparse as <-.
      destruct (index_from_complete ∅ (public_ports s) ports_by_ip p Hindex)
        as (k' & q & Hk' & Hq); [by apply list_elem_of_filter |].
      rewrite Hk in Hk'. injection Hk' as <-. rewrite Hq in Hport.
      by destruct (decide _); destruct Hport.
    + intros Hnone.
      destruct (ports_by_ip !! ipaddress.str a) as [port |] eqn:Hlookup;
        [| by destruct Hport as [-> _]].
      destruct (index_from_sound _ _ _ _ _ Hindex Hlookup)
        as [[Hin' Hfirst] | Hempty]; [| by rewrite lookup_empty in Hempty].
      apply list_elem_of_filter in Hin' as [Hkept Hp].
      destruct (Hnone port (ipaddress.str a) Hp Hkept Hfirst).
      by apply IPv4Address_str.
Qed.

Lemma audit_rows_by_address_witness :
  let rows := [["10.0.0.2"; "unallocated"; "False"; "none"];
               ["10.0.0.3"; "floating_ip"; "False"; "p1"];
               ["10.0.0.4"; "gateway"; "False"; "p1"];
               ["10.0.0.5"; "unallocated"; "True"; "none"]] in
  result (interp NetworkPublicIPStatusCommand.run_rows site) = inr rows ∧
  ∃ addrs,
    Forall2 (λ a row, ∃ cell, head row = Some cell ∧
                              ipaddress.IPv4Address cell = Some a) addrs rows ∧
    StronglySorted Z.le addrs.
Proof.
  intros rows.
  assert (result (interp NetworkPublicIPStatusCommand.run_rows site) = inr rows)
    as Hrows by (by vm_compute).
  split; [exact Hrows |].
  destruct (audit_rows_by_address site rows Hrows) as (addrs & Hcells & Hsorted & _).
  by exists addrs.
Defined.

(** ** [network delete]: a second run *)

(** The API creates no network and changes neither the ID nor the
    segmentation ID of one: every network after a call was there before. *)
Lemma handle_networks {R : Type} (c : call R) s (m' : Network) :
  m' ∈ networks (handle c s).2 →
  ∃ m, m ∈ networks s ∧ net_id m' = net_id m ∧
       segmentation_id m' = segmentation_id m.
Proof.
  destruct c; cbn [handle]; repeat case_match; repeat case_decide;
    cbn [snd networks set_ports]; try (intros ?; by exists m').
  - intros (m & -> & Hm)%list_elem_of_fmap. by exists m.
  - intros [_ Hm]%list_elem_of_filter. by exists m'.
Qed.

Lemma interp_networks {A : Type} (p : prog A) s (m' : Network) :
  m' ∈ networks (final (interp p s)) →
  ∃ m, m ∈ networks s ∧ net_id m' = net_id m ∧
       segmentation_id m' = segmentation_id m.
Proof.
  revert s m'. induction p as [a | e | R c k IH]; intros s m'; simpl;
    [intros ?; by exists m' | intros ?; by exists m' |].
  pose proof (handle_networks c s) as Hcall.
  destruct (handle c s) as [[e | r] s1]; cbn [final snd] in *;
    [apply Hcall |].
  intros (m1 & Hm1 & Hid1 & Hseg1)%IH.
  destruct (Hcall m1 Hm1) as (m & Hm & Hid & Hseg).
  exists m. split; [done |]. split; congruence.
Qed.

(** X12: a teardown by segment that succeeded is not repeated on the same
    network: the network is gone and the API has made no other network
    carry its ID.  A second run with the same segment resolves, if at all,
    to another network that carried the segment before the first run; when
    no other network did, it lists the networks of the segment, finds none
    and ends with ValueError("Could not find network for ..."), leaving the
    backing state as the first run left it. *)
Theorem teardown_again_unresolved s segment network n :
  target_network s (Some segment) network = Some n →
  result (interp (NetworkDeleteCommand.run (Some segment) network) s)
  = inr () →
  let selected :=
    network_matches {| nf_segmentation_id := Some segment;
                       nf_name := None |} in
  let s' :=
    final (interp (NetworkDeleteCommand.run (Some segment) network) s) in
  (∀ m', target_network s' (Some segment) network = Some m' →
         net_id m' ≠ net_id n ∧
         ∃ m, m ∈ networks s ∧ selected m ∧ net_id m = net_id m') ∧
  ((∀ m, m ∈ networks s → selected m → net_id m = net_id n) →
   interp (NetworkDeleteCommand.run (Some segment) network) s'
   = {| result :=
          inl (ValueError ("Could not find network for "
                           +:+ "{'provider:segmentation_id': "
                           +:+ repr_str segment +:+ "}"));
        final := s';
        trace := [Event (list_networks {| nf_segmentation_id := Some segment;
                                          nf_name := None |})] |}).
Proof.
  intros Htarget Hok selected s'.
  pose proof (teardown_effect s (Some segment) network n Htarget) as Heffect.
  apply wp_interp in Heffect. rewrite Hok in Heffect. simpl in Heffect.
  fold s' in Heffect. destruct Heffect as (_ & _ & _ & Hgone & _).
  assert (∀ m', target_network s' (Some segment) network = Some m' →
            net_id m' ≠ net_id n ∧
            ∃ m, m ∈ networks s ∧ selected m ∧ net_id m = net_id m')
    as Hnext.
  { intros m' Hm'. unfold target_network in Hm'.
    apply head_Some_elem_of, list_elem_of_filter in Hm' as [Hsel Hin].
    split.
    - intros Hid. apply Hgone, Exists_exists. by exists m'.
    - destruct (interp_networks _ _ _ Hin) as (m & Hm & Hid & Hseg).
      exists m. split; [done |]. split; [| done].
      unfold selected, network_matches in *. simpl in *. by rewrite <-Hseg. }
  split; [done |]. intros Halone.
  assert (target_network s' (Some segment) network = None) as Hnone.
  { destruct (target_network s' (Some segment) network) as [m' |] eqn:Hm';
      [| done].
    destruct (Hnext m' eq_refl) as (Hne & m & Hm & Hsel & Hid).
    destruct Hne. rewrite <-Hid. by apply Halone. }
  unfold target_network in Hnone. apply head_None in Hnone.
  unfold NetworkDeleteCommand.run. rewrite interp_bind.
  unfold NetworkDeleteCommand._find_network. rewrite interp_perform_bind.
  simpl. by rewrite Hnone.
Qed.

Lemma teardown_again_unresolved_witness :
  let s' :=
    final (interp (NetworkDeleteCommand.run (Some "20") None) site_vlan) in
  interp (NetworkDeleteCommand.run (Some "20") None) s'
  = {| result :=
         inl (ValueError
                "Could not find network for {'provider:segmentation_id': '20'}");
       final := s';
       trace := [Event (list_networks {| nf_segmentation_id := Some "20";
                                         nf_name := None |})] |}.
Proof.
  apply (teardown_again_unresolved site_vlan "20" None net1_vlan);
    [reflexivity | by vm_compute |].
  apply (proj1 (Forall_forall
    (λ m, network_matches {| nf_segmentation_id := Some "20";
                             nf_name := None |} m →
          net_id m = net_id net1_vlan) (networks site_vlan))).
  by compute_done.
Defined.

(** ** [network ips]: a pool that cannot be read *)

Lemma pools_bounds_first_bad (pools : list AllocationPool) e :
  pools_bounds pools = inl e →
  ∃ good p rest,
    pools = good ++ p :: rest ∧
    Forall (λ q, ∃ b, pool_bounds q = inr b) good ∧
    pool_bounds p = inl e.
Proof.
  induction pools as [| q pools IH]; simpl; [done |].
  destruct (pool_bounds q) as [e' | b] eqn:Hq.
  - intros [= <-]. by exists [], q, pools.
  - destruct (pools_bounds pools) as [e' |]; [| done]. intros [= <-].
    destruct (IH eq_refl) as (good & p & rest & -> & Hgood & Hp).
    exists (q :: good), p, rest. repeat split; [| done].
    constructor; [by exists b | done].
Qed.

(** X13: when the reservations and the ports are fine and the public
    network's pools were fetched, the first pool whose start or end is not a
    well-formed IPv4 literal, or whose end lies before its start, ends the
    audit: with the [AddressValueError] of the literal, or with
    ValueError("last IP address must be greater than first").  No router
    has been fetched by then.  A pool of one address (start = end) is
    fine. *)
Theorem audit_rejects_bad_pool
    (tabulate : list (list string) → list string → string)
    s reserved ports_by_ip pools e :
  reserved_addresses s = inr reserved →
  index_from ∅ (public_ports s) = Some ports_by_ip →
  public_pools s = inr pools →
  pools_bounds pools = inl e →
  let o := interp (NetworkPublicIPStatusCommand.run tabulate) s in
  result o = inl e ∧ shown_routers (trace o) = [] ∧
  ∃ good p rest,
    pools = good ++ p :: rest ∧
    Forall (λ q, ∃ lo hi, ipaddress.IPv4Address (pool_start q) = Some lo ∧
                          ipaddress.IPv4Address (pool_end q) = Some hi ∧
                          lo ≤ hi) good ∧
    match ipaddress.IPv4Address (pool_start p),
          ipaddress.IPv4Address (pool_end p) with
    | None, _ => e = AddressValueError (pool_start p)
    | Some _, None => e = AddressValueError (pool_end p)
    | Some lo, Some hi =>
        hi < lo ∧ e = ValueError "last IP address must be greater than first"
    end.
Proof.
  intros Hres Hindex Hpools Hbounds o. split; [| split].
  - unfold o, NetworkPublicIPStatusCommand.run. rewrite interp_bind.
    destruct (run_rows_result s) as [_ Hout]. unfold audit_outcome in Hout.
    rewrite Hres, Hindex, Hpools, Hbounds in Hout. by rewrite Hout.
  - unfold o. rewrite shown_routers_run.
    unfold NetworkPublicIPStatusCommand.run_rows.
    rewrite shown_routers_bind
      by (rewrite interp_perform; by repeat constructor).
    cbn [perform interp handle result final].
    rewrite shown_routers_bind by (rewrite trace_parse_addresses; constructor).
    rewrite final_of_silent by apply trace_parse_addresses.
    match goal with
    | |- context [result (interp ?loop s)] =>
        assert (result (interp loop s) = inr reserved) as ->
    end.
    { apply (wp_interp _ (λ r _, r = inr reserved)), wp_parse_addresses.
      unfold reserved_addresses in Hres. by rewrite Hres. }
    rewrite shown_routers_bind
      by (rewrite interp_perform; by repeat constructor).
    cbn [perform interp handle result final]. cbn zeta.
    rewrite shown_routers_bind by (rewrite trace_index_ports; constructor).
    rewrite final_of_silent by apply trace_index_ports.
    destruct (result (interp (NetworkPublicIPStatusCommand.index_ports _) s))
      as [? | ports_by_ip']; [done |].
    rewrite shown_routers_bind
      by (by apply (trace_public_allocation_pools
                      (λ e, shown_router e = None))).
    assert (result (interp NetworkPublicIPStatusCommand._public_allocation_pools s)
            = inr pools) as ->.
    { apply (wp_interp _ (λ r _, r = inr pools)), wp_public_allocation_pools.
      done. }
    rewrite shown_routers_bind
      by (rewrite trace_extend_with_pools; constructor).
    match goal with
    | |- context [result (interp ?ext ?s')] =>
        assert (result (interp ext s') = inl e) as ->; [| done]
    end.
    apply (wp_interp _ (λ r _, r = inl e)), wp_extend_with_pools.
    by rewrite Hbounds.
  - destruct (pools_bounds_first_bad pools e Hbounds)
      as (good & p & rest & -> & Hgood & Hp).
    exists good, p, rest. split; [done |]. split.
    + eapply Forall_impl; [exact Hgood |]. intros q [b Hq].
      unfold pool_bounds in Hq.
      destruct (ipaddress.IPv4Address (pool_start q)) as [lo |]; [| done].
      destruct (ipaddress.IPv4Address (pool_end q)) as [hi |]; [| done].
      destruct (Z.ltb_spec hi lo); [done |]. by exists lo, hi.
    + unfold pool_bounds in Hp.
      destruct (ipaddress.IPv4Address (pool_start p)) as [lo |];
        [| by injection Hp as <-].
      destruct (ipaddress.IPv4Address (pool_end p)) as [hi |];
        [| by injection Hp as <-].
      destruct (Z.ltb_spec hi lo); [| done]. by injection Hp as <-.
Qed.

Lemma audit_rejects_bad_pool_witness :
  let o := interp (NetworkPublicIPStatusCommand.run (λ _ _, "table"))
             Scenarios.site_reversed_pool in
  result o = inl (ValueError "last IP address must be greater than first") ∧
  shown_routers (trace o) = [].
Proof.
  intros o.
  destruct (audit_rejects_bad_pool (λ _ _, "table")
              Scenarios.site_reversed_pool [167772165]
              (<["10.0.0.4" := gateway]> (<["10.0.0.3" := floating]> ∅))
              [ {| pool_start := "10.0.0.2"; pool_end := "10.0.0.2" |};
                {| pool_start := "10.0.0.9"; pool_end := "10.0.0.4" |} ]
              (ValueError "last IP address must be greater than first"))
    as (Hresult & Hfetched & _); [reflexivity .. |].
  by split.
Defined.

